(** * Call routing and agent-state coordination of acs-dynamic-queue-calling

    A shallow embedding of the backend services of the repository
    (AgentService, GroupService, ACSService and CallService) and the
    properties of the routing engine proved, or refuted, over it.

    Modelling decisions:
    - a JavaScript [Map<string, V>] is an association list in insertion order
      ([Map.set] on a present key replaces the value in place, on an absent
      key appends), because listing order decides which agent is picked;
    - a [Date] is its time value in milliseconds, an integer; the host's clock
      and its local calendar are the [Host] record, read once per operation;
    - a JavaScript number holding a count or a number of milliseconds is an
      integer; a number of seconds ([duration / 1000]) is a rational;
    - the Call objects are shared by reference between the [calls] map and
      the running operation: every mutation of a call is written through to
      the map entry of that call;
    - the telephony SDK and the WebSocket fan-out are external: the outcome
      of each SDK request is an input of the operation, every notification
      is appended to the [sent] log of the state;
    - each public operation is one atomic step (the [await]s are not
      interleaved with other requests). *)

From Stdlib Require Import ZArith QArith List String Ascii Bool Lia.
From Stdlib Require Import DecimalString.
Import ListNotations.
Open Scope string_scope.
Open Scope Z_scope.

(** ** JavaScript values *)

(** Truthiness of an optional string ([undefined] and [''] are falsy). *)
Definition truthy (s : option string) : bool :=
  match s with
  | Some s' => negb (String.eqb s' "")
  | None => false
  end.

(** [a || b] on optional strings. *)
Definition orElse (a b : option string) : option string :=
  if truthy a then a else b.

(** [s.startsWith(p)] *)
Definition startsWith (s p : string) : bool := String.prefix p s.

(** [s.includes(p)] *)
Fixpoint includes (s p : string) : bool :=
  String.prefix p s ||
  match s with
  | EmptyString => false
  | String _ s' => includes s' p
  end.

(** [arr.includes(x)] on an array of strings. *)
Definition arrayIncludes (arr : list string) (x : string) : bool :=
  existsb (String.eqb x) arr.

(** Strict equality of an optional string field with a string. *)
Definition optEq (a : option string) (b : string) : bool :=
  match a with
  | Some a' => String.eqb a' b
  | None => false
  end.

(** Decimal rendering of a number inside a template string. *)
Definition numberToString (z : Z) : string :=
  NilZero.string_of_int (Z.to_int z).

(** ** [Map<string, V>] in insertion order *)
Module JsMap.
Section WithValue.
Context {V : Type}.

Definition t := list (string * V).

Definition empty : t := [].

Fixpoint get (k : string) (m : t) : option V :=
match m with
| [] => None
| (k', v) :: m' => if String.eqb k k' then Some v else get k m'
end.

Fixpoint set (k : string) (v : V) (m : t) : t :=
match m with
| [] => [(k, v)]
| (k', v') :: m' =>
    if String.eqb k k' then (k, v) :: m' else (k', v') :: set k v m'
end.

(** [Map.delete]: the map without the key, and whether it was present. *)
Fixpoint remove (k : string) (m : t) : t :=
match m with
| [] => []
| (k', v') :: m' =>
    if String.eqb k k' then m' else (k', v') :: remove k m'
end.

Definition has (k : string) (m : t) : bool :=
match get k m with Some _ => true | None => false end.

Definition delete (k : string) (m : t) : bool * t := (has k m, remove k m).

Definition values (m : t) : list V := map snd m.

Definition keys (m : t) : list string := map fst m.

(** The first value in listing order that satisfies [p], mutated in place:
    what [for (const v of map.values()) if (p(v)) { mutate v; stop }] does. *)
Fixpoint mutateFirst (p : V -> bool) (f : V -> V) (m : t) : t :=
  match m with
  | [] => []
  | (k, v) :: m' =>
      if p v then (k, f v) :: m' else (k, v) :: mutateFirst p f m'
  end.
End WithValue.
Arguments t V : clear implicits.
End JsMap.

(** ** The host: clock and local calendar of [Date] *)
Record Host := {
  now : Z;                     (* new Date(), Date.now() *)
  getDate : Z -> Z;
  getMonth : Z -> Z;
  getFullYear : Z -> Z;
  getDay : Z -> Z;
  setDate : Z -> Z -> Z        (* time value after date.setDate(d) *)
}.

(** A host in UTC, for running the model on concrete inputs. *)
Module Utc.
Definition msPerDay : Z := 86400000.
Definition days (t : Z) : Z := t / msPerDay.

(* civil date of a day number counted from 1970-01-01 *)
Definition civil (d : Z) : Z * Z * Z :=
  let z := d + 719468 in
  let era := z / 146097 in
  let doe := z - era * 146097 in
  let yoe := (doe - doe / 1460 + doe / 36524 - doe / 146096) / 365 in
  let doy := doe - (365 * yoe + yoe / 4 - yoe / 100) in
  let mp := (5 * doy + 2) / 153 in
  let dd := doy - (153 * mp + 2) / 5 + 1 in
  let m := if mp <? 10 then mp + 3 else mp - 9 in
  let y := yoe + era * 400 + (if m <=? 2 then 1 else 0) in
  (y, m, dd).

Definition host (t : Z) : Host := {|
  now := t;
  getDate := fun x => snd (civil (days x));
  getMonth := fun x => snd (fst (civil (days x))) - 1;
  getFullYear := fun x => fst (fst (civil (days x)));
  getDay := fun x => (days x + 4) mod 7;
  setDate := fun x d => x + (d - snd (civil (days x))) * msPerDay
|}.
End Utc.

(** ** models/types.ts *)
Inductive AgentStatus := AVAILABLE | BUSY | OFFLINE | IN_CALL.

Inductive CallStatus := INCOMING | RINGING | CONNECTED | ENDED | TRANSFERRED.

Definition AgentStatus_eqb (a b : AgentStatus) : bool :=
  match a, b with
  | AVAILABLE, AVAILABLE | BUSY, BUSY | OFFLINE, OFFLINE | IN_CALL, IN_CALL => true
  | _, _ => false
  end.

Definition CallStatus_eqb (a b : CallStatus) : bool :=
  match a, b with
  | INCOMING, INCOMING | RINGING, RINGING | CONNECTED, CONNECTED
  | ENDED, ENDED | TRANSFERRED, TRANSFERRED => true
  | _, _ => false
  end.

Module AgentStatistics.
Record t := mk {
  totalCalls : Z;
  totalCallDuration : Q;     (* in seconds *)
  averageCallDuration : Q;
  callsToday : Z;
  callsThisWeek : Z;
  callsThisMonth : Z;
  lastCallTime : option Z
}.

Definition zero : t := mk 0 0%Q 0%Q 0 0 0 None.
End AgentStatistics.

Module Agent.
Record t := mk {
  id : string;
  name : string;
  email : string;
  username : string;
  password : string;
  status : AgentStatus;
  groupIds : list string;
  currentCallId : option string;
  lastActivity : Z;
  statistics : AgentStatistics.t;
  acsUserId : option string  (* attached by updateAgentACSUserId *)
}.
End Agent.

Module GroupStatistics.
Record t := mk {
  totalCalls : Z;
  averageWaitTime : Z;
  callsInQueue : Z;
  busyAgents : Z;
  availableAgents : Z;
  totalAgents : Z
}.

Definition zero : t := mk 0 0 0 0 0 0.
End GroupStatistics.

Module Group.
Record t := mk {
  id : string;
  name : string;
  location : string;
  phoneNumber : string;
  agentIds : list string;
  overflowGroupIds : list string;
  overflowEnabled : bool;
  statistics : GroupStatistics.t
}.

Definition with_agentIds (g : t) (ids : list string) : t :=
  mk (id g) (name g) (location g) (phoneNumber g) ids
     (overflowGroupIds g) (overflowEnabled g) (statistics g).

Definition with_overflowGroupIds (g : t) (ids : list string) : t :=
  mk (id g) (name g) (location g) (phoneNumber g) (agentIds g)
     ids (overflowEnabled g) (statistics g).

Definition with_overflowEnabled (g : t) (b : bool) : t :=
  mk (id g) (name g) (location g) (phoneNumber g) (agentIds g)
     (overflowGroupIds g) b (statistics g).

Definition with_statistics (g : t) (s : GroupStatistics.t) : t :=
  mk (id g) (name g) (location g) (phoneNumber g) (agentIds g)
     (overflowGroupIds g) (overflowEnabled g) s.
End Group.

Module Call.
Record t := mk {
  id : string;
  phoneNumber : string;
  groupId : string;
  assignedAgentId : option string;
  status : CallStatus;
  startTime : Z;
  endTime : option Z;
  duration : option Z;        (* milliseconds *)
  waitTime : option Z;
  acsCallConnectionId : option string;
  acsIncomingCallContext : option string
}.

Definition with_groupId (c : t) (g : string) : t :=
  mk (id c) (phoneNumber c) g (assignedAgentId c) (status c) (startTime c)
     (endTime c) (duration c) (waitTime c) (acsCallConnectionId c)
     (acsIncomingCallContext c).

Definition with_assignedAgentId (c : t) (a : option string) : t :=
  mk (id c) (phoneNumber c) (groupId c) a (status c) (startTime c)
     (endTime c) (duration c) (waitTime c) (acsCallConnectionId c)
     (acsIncomingCallContext c).

Definition with_status (c : t) (s : CallStatus) : t :=
  mk (id c) (phoneNumber c) (groupId c) (assignedAgentId c) s (startTime c)
     (endTime c) (duration c) (waitTime c) (acsCallConnectionId c)
     (acsIncomingCallContext c).

Definition with_endTime (c : t) (e : option Z) : t :=
  mk (id c) (phoneNumber c) (groupId c) (assignedAgentId c) (status c)
     (startTime c) e (duration c) (waitTime c) (acsCallConnectionId c)
     (acsIncomingCallContext c).

Definition with_duration (c : t) (d : option Z) : t :=
  mk (id c) (phoneNumber c) (groupId c) (assignedAgentId c) (status c)
     (startTime c) (endTime c) d (waitTime c) (acsCallConnectionId c)
     (acsIncomingCallContext c).

Definition with_waitTime (c : t) (w : option Z) : t :=
  mk (id c) (phoneNumber c) (groupId c) (assignedAgentId c) (status c)
     (startTime c) (endTime c) (duration c) w (acsCallConnectionId c)
     (acsIncomingCallContext c).

Definition with_acsCallConnectionId (c : t) (x : option string) : t :=
  mk (id c) (phoneNumber c) (groupId c) (assignedAgentId c) (status c)
     (startTime c) (endTime c) (duration c) (waitTime c) x
     (acsIncomingCallContext c).
End Call.

Module CreateAgentRequest.
Record t := mk {
  name : string;
  email : string;
  username : string;
  password : string;
  groupIds : list string
}.
End CreateAgentRequest.

(** A key of the request that is absent is [None]; [currentCallId: undefined]
    is a present key holding [undefined], that is [Some None]. *)
Module UpdateAgentRequest.
Record t := mk {
  name : option string;
  email : option string;
  username : option string;
  password : option string;
  groupIds : option (list string);
  status : option AgentStatus;
  currentCallId : option (option string);
  statistics : option AgentStatistics.t
}.
End UpdateAgentRequest.

Module CreateGroupRequest.
Record t := mk {
  name : string;
  location : string;
  phoneNumber : string;
  overflowEnabled : option bool;
  overflowGroupIds : option (list string)
}.
End CreateGroupRequest.

Module UpdateGroupRequest.
Record t := mk {
  name : option string;
  location : option string;
  phoneNumber : option string;
  overflowEnabled : option bool;
  overflowGroupIds : option (list string)
}.
End UpdateGroupRequest.

(** ** WebSocket notifications, as a log *)
Inductive Payload :=
| CallData (c : Call.t)
| AgentData (a : Agent.t)
| TransferData (callConnectionId agentUserId : string) (timestamp : Z).

Inductive Event :=
| notifyAgent (agentId type : string) (data : Payload)
| notifySupervisors (type : string) (data : Payload)
| broadcast (type : string) (data : Payload).

(** ** The state of the three services *)
Record State := {
  agents : JsMap.t Agent.t;
  groups : JsMap.t Group.t;
  calls : JsMap.t Call.t;
  sent : list Event
}.

Definition initial : State :=
  {| agents := JsMap.empty; groups := JsMap.empty; calls := JsMap.empty;
     sent := [] |}.

Definition with_agents (st : State) (m : JsMap.t Agent.t) : State :=
  {| agents := m; groups := groups st; calls := calls st; sent := sent st |}.

Definition with_groups (st : State) (m : JsMap.t Group.t) : State :=
  {| agents := agents st; groups := m; calls := calls st; sent := sent st |}.

Definition with_calls (st : State) (m : JsMap.t Call.t) : State :=
  {| agents := agents st; groups := groups st; calls := m; sent := sent st |}.

Definition send (st : State) (e : Event) : State :=
  {| agents := agents st; groups := groups st; calls := calls st;
     sent := sent st ++ [e] |}.

(** ** services/agentService.ts *)
Module AgentService.

Definition createAgent (st : State) (h : Host) (uuid : string)
    (request : CreateAgentRequest.t) : Agent.t * State :=
  let agent := {|
    Agent.id := uuid;
    Agent.name := CreateAgentRequest.name request;
    Agent.email := CreateAgentRequest.email request;
    Agent.username := CreateAgentRequest.username request;
    Agent.password := CreateAgentRequest.password request;
    Agent.status := OFFLINE;
    Agent.groupIds := CreateAgentRequest.groupIds request;
    Agent.currentCallId := None;
    Agent.lastActivity := now h;
    Agent.statistics := AgentStatistics.zero;
    Agent.acsUserId := None |} in
  (agent, with_agents st (JsMap.set (Agent.id agent) agent (agents st))).

Definition getAgent (st : State) (id : string) : option Agent.t :=
  JsMap.get id (agents st).

Definition authenticateAgent (st : State) (username password : string)
    : option Agent.t :=
  find (fun a => String.eqb (Agent.username a) username
                 && String.eqb (Agent.password a) password)
       (JsMap.values (agents st)).

Definition getAllAgents (st : State) : list Agent.t :=
  JsMap.values (agents st).

Definition getAgentsByGroup (st : State) (groupId : string) : list Agent.t :=
  filter (fun agent => arrayIncludes (Agent.groupIds agent) groupId)
         (JsMap.values (agents st)).

Definition getAvailableAgentsByGroup (st : State) (groupId : string)
    : list Agent.t :=
  filter (fun agent => AgentStatus_eqb (Agent.status agent) AVAILABLE)
         (getAgentsByGroup st groupId).

(** [{ ...agent, ...updates, lastActivity: new Date() }] *)
Definition merge (agent : Agent.t) (updates : UpdateAgentRequest.t)
    (lastActivity : Z) : Agent.t :=
  let pick {A} (o : option A) (d : A) : A :=
    match o with Some x => x | None => d end in
  {| Agent.id := Agent.id agent;
     Agent.name := pick (UpdateAgentRequest.name updates) (Agent.name agent);
     Agent.email := pick (UpdateAgentRequest.email updates) (Agent.email agent);
     Agent.username :=
       pick (UpdateAgentRequest.username updates) (Agent.username agent);
     Agent.password :=
       pick (UpdateAgentRequest.password updates) (Agent.password agent);
     Agent.status := pick (UpdateAgentRequest.status updates) (Agent.status agent);
     Agent.groupIds :=
       pick (UpdateAgentRequest.groupIds updates) (Agent.groupIds agent);
     Agent.currentCallId :=
       pick (UpdateAgentRequest.currentCallId updates) (Agent.currentCallId agent);
     Agent.lastActivity := lastActivity;
     Agent.statistics :=
       pick (UpdateAgentRequest.statistics updates) (Agent.statistics agent);
     Agent.acsUserId := Agent.acsUserId agent |}.

Definition updateAgent (st : State) (h : Host) (id : string)
    (updates : UpdateAgentRequest.t) : option Agent.t * State :=
  match JsMap.get id (agents st) with
  | None => (None, st)
  | Some agent =>
      let updatedAgent := merge agent updates (now h) in
      (Some updatedAgent, with_agents st (JsMap.set id updatedAgent (agents st)))
  end.

(** [{ status }] *)
Definition statusUpdate (status : AgentStatus) : UpdateAgentRequest.t :=
  {| UpdateAgentRequest.name := None; UpdateAgentRequest.email := None;
     UpdateAgentRequest.username := None; UpdateAgentRequest.password := None;
     UpdateAgentRequest.groupIds := None;
     UpdateAgentRequest.status := Some status;
     UpdateAgentRequest.currentCallId := None;
     UpdateAgentRequest.statistics := None |}.

(** [{ status: AgentStatus.IN_CALL, currentCallId: callId }] *)
Definition assignUpdate (callId : string) : UpdateAgentRequest.t :=
  {| UpdateAgentRequest.name := None; UpdateAgentRequest.email := None;
     UpdateAgentRequest.username := None; UpdateAgentRequest.password := None;
     UpdateAgentRequest.groupIds := None;
     UpdateAgentRequest.status := Some IN_CALL;
     UpdateAgentRequest.currentCallId := Some (Some callId);
     UpdateAgentRequest.statistics := None |}.

(** [{ status: AgentStatus.AVAILABLE, currentCallId: undefined,
      statistics: newStatistics }] *)
Definition releaseUpdate (newStatistics : AgentStatistics.t)
    : UpdateAgentRequest.t :=
  {| UpdateAgentRequest.name := None; UpdateAgentRequest.email := None;
     UpdateAgentRequest.username := None; UpdateAgentRequest.password := None;
     UpdateAgentRequest.groupIds := None;
     UpdateAgentRequest.status := Some AVAILABLE;
     UpdateAgentRequest.currentCallId := Some None;
     UpdateAgentRequest.statistics := Some newStatistics |}.

Definition updateAgentStatus (st : State) (h : Host) (id : string)
    (status : AgentStatus) : option Agent.t * State :=
  updateAgent st h id (statusUpdate status).

(** The agent after [agent.acsUserId = acsUserId; agent.lastActivity = new
    Date()]. *)
Definition withACSUserId (agent : Agent.t) (acsUserId : string)
    (lastActivity : Z) : Agent.t :=
  {| Agent.id := Agent.id agent; Agent.name := Agent.name agent;
     Agent.email := Agent.email agent; Agent.username := Agent.username agent;
     Agent.password := Agent.password agent; Agent.status := Agent.status agent;
     Agent.groupIds := Agent.groupIds agent;
     Agent.currentCallId := Agent.currentCallId agent;
     Agent.lastActivity := lastActivity;
     Agent.statistics := Agent.statistics agent;
     Agent.acsUserId := Some acsUserId |}.

Definition updateAgentACSUserId (st : State) (h : Host) (id acsUserId : string)
    : option Agent.t * State :=
  match JsMap.get id (agents st) with
  | None => (None, st)
  | Some agent =>
      let agent' := withACSUserId agent acsUserId (now h) in
      (Some agent', with_agents st (JsMap.set id agent' (agents st)))
  end.

Definition deleteAgent (st : State) (id : string) : bool * State :=
  let '(found, m) := JsMap.delete id (agents st) in
  (found, with_agents st m).

Definition assignCallToAgent (st : State) (h : Host) (agentId callId : string)
    : bool * State :=
  match JsMap.get agentId (agents st) with
  | None => (false, st)
  | Some agent =>
      if negb (AgentStatus_eqb (Agent.status agent) AVAILABLE) then (false, st)
      else
        let '(_, st') := updateAgent st h agentId (assignUpdate callId) in
        (true, st')
  end.

Definition isToday (h : Host) (date : Z) : bool :=
  let today := now h in
  (getDate h date =? getDate h today)
  && (getMonth h date =? getMonth h today)
  && (getFullYear h date =? getFullYear h today).

Definition isThisWeek (h : Host) (date : Z) : bool :=
  let today := now h in
  let weekStart := setDate h today (getDate h today - getDay h today) in
  weekStart <=? date.

Definition isThisMonth (h : Host) (date : Z) : bool :=
  let today := now h in
  (getMonth h date =? getMonth h today)
  && (getFullYear h date =? getFullYear h today).

Definition newStatistics (h : Host) (s : AgentStatistics.t) (callDuration : Q)
    : AgentStatistics.t :=
  {| AgentStatistics.totalCalls := AgentStatistics.totalCalls s + 1;
     AgentStatistics.totalCallDuration :=
       Qplus (AgentStatistics.totalCallDuration s) callDuration;
     AgentStatistics.averageCallDuration :=
       Qdiv (Qplus (AgentStatistics.totalCallDuration s) callDuration)
            (inject_Z (AgentStatistics.totalCalls s + 1));
     AgentStatistics.callsToday :=
       if isToday h (now h) then AgentStatistics.callsToday s + 1 else 1;
     AgentStatistics.callsThisWeek :=
       if isThisWeek h (now h) then AgentStatistics.callsThisWeek s + 1 else 1;
     AgentStatistics.callsThisMonth :=
       if isThisMonth h (now h) then AgentStatistics.callsThisMonth s + 1 else 1;
     AgentStatistics.lastCallTime := Some (now h) |}.

Definition releaseAgentFromCall (st : State) (h : Host) (agentId : string)
    (callDuration : Q) : bool * State :=
  match JsMap.get agentId (agents st) with
  | None => (false, st)
  | Some agent =>
      let stats := newStatistics h (Agent.statistics agent) callDuration in
      let '(_, st') := updateAgent st h agentId (releaseUpdate stats) in
      (true, st')
  end.

Definition testAgent (h : Host) (id name email username : string) : Agent.t :=
  {| Agent.id := id; Agent.name := name; Agent.email := email;
     Agent.username := username; Agent.password := "password123";
     Agent.status := OFFLINE; Agent.groupIds := [];
     Agent.currentCallId := None; Agent.lastActivity := now h;
     Agent.statistics := AgentStatistics.zero; Agent.acsUserId := None |}.

Definition initializeTestAgents (st : State) (h : Host) : State :=
  fold_left
    (fun st agent =>
       with_agents st (JsMap.set (Agent.id agent) agent (agents st)))
    [ testAgent h "agent-001" "John Doe" "john.doe@example.com" "john.doe";
      testAgent h "agent-002" "Jane Smith" "jane.smith@example.com" "jane.smith";
      testAgent h "agent-003" "Bob Wilson" "bob.wilson@example.com" "bob.wilson" ]
    st.
End AgentService.

(** ** services/groupService.ts *)
Module GroupService.

Definition createGroup (st : State) (uuid : string)
    (request : CreateGroupRequest.t) : Group.t * State :=
  let group := {|
    Group.id := uuid;
    Group.name := CreateGroupRequest.name request;
    Group.location := CreateGroupRequest.location request;
    Group.phoneNumber := CreateGroupRequest.phoneNumber request;
    Group.agentIds := [];
    Group.overflowGroupIds :=
      match CreateGroupRequest.overflowGroupIds request with
      | Some ids => ids
      | None => []
      end;
    Group.overflowEnabled :=
      match CreateGroupRequest.overflowEnabled request with
      | Some b => b
      | None => false
      end;
    Group.statistics := GroupStatistics.zero |} in
  (group, with_groups st (JsMap.set (Group.id group) group (groups st))).

Definition getGroup (st : State) (id : string) : option Group.t :=
  JsMap.get id (groups st).

Definition getAllGroups (st : State) : list Group.t :=
  JsMap.values (groups st).

Definition getGroupByPhoneNumber (st : State) (phoneNumber : string)
    : option Group.t :=
  find (fun group => String.eqb (Group.phoneNumber group) phoneNumber)
       (JsMap.values (groups st)).

Definition updateGroupStatistics (st : State) (groupId : string) : State :=
  match JsMap.get groupId (groups st) with
  | None => st
  | Some group =>
      let agents := AgentService.getAgentsByGroup st groupId in
      let availableAgents :=
        filter (fun agent => AgentStatus_eqb (Agent.status agent) AVAILABLE)
               agents in
      let busyAgents :=
        filter (fun agent => AgentStatus_eqb (Agent.status agent) BUSY
                             || AgentStatus_eqb (Agent.status agent) IN_CALL)
               agents in
      let s := Group.statistics group in
      let statistics := {|
        GroupStatistics.totalCalls := GroupStatistics.totalCalls s;
        GroupStatistics.averageWaitTime := GroupStatistics.averageWaitTime s;
        GroupStatistics.callsInQueue := GroupStatistics.callsInQueue s;
        GroupStatistics.busyAgents := Z.of_nat (List.length busyAgents);
        GroupStatistics.availableAgents := Z.of_nat (List.length availableAgents);
        GroupStatistics.totalAgents := Z.of_nat (List.length agents) |} in
      with_groups st
        (JsMap.set groupId (Group.with_statistics group statistics) (groups st))
  end.

Definition groupIdsUpdate (ids : list string) : UpdateAgentRequest.t :=
  {| UpdateAgentRequest.name := None; UpdateAgentRequest.email := None;
     UpdateAgentRequest.username := None; UpdateAgentRequest.password := None;
     UpdateAgentRequest.groupIds := Some ids;
     UpdateAgentRequest.status := None;
     UpdateAgentRequest.currentCallId := None;
     UpdateAgentRequest.statistics := None |}.



Definition deleteGroup (st : State) (h : Host) (id : string) : bool * State :=
  let agents := AgentService.getAllAgents st in
  let st1 :=
    fold_left
      (fun st agent =>
         if arrayIncludes (Agent.groupIds agent) id then
           let newGroupIds :=
             filter (fun gId => negb (String.eqb gId id)) (Agent.groupIds agent) in
           snd (AgentService.updateAgent st h (Agent.id agent)
                  (groupIdsUpdate newGroupIds))
         else st)
      agents st in
  let '(found, m) := JsMap.delete id (groups st1) in
  (found, with_groups st1 m).

Definition addAgentToGroup (st : State) (h : Host) (groupId agentId : string)
    : bool * State :=
  match JsMap.get groupId (groups st), AgentService.getAgent st agentId with
  | Some group, Some agent =>
      (* Add agent to group *)
      let st1 :=
        if negb (arrayIncludes (Group.agentIds group) agentId) then
          with_groups st
            (JsMap.set groupId
               (Group.with_agentIds group (Group.agentIds group ++ [agentId]))
               (groups st))
        else st in
      (* Add group to agent *)
      let st2 :=
        if negb (arrayIncludes (Agent.groupIds agent) groupId) then
          snd (AgentService.updateAgent st1 h agentId
                 (groupIdsUpdate (Agent.groupIds agent ++ [groupId])))
        else st1 in
      (true, updateGroupStatistics st2 groupId)
  | _, _ => (false, st)
  end.

Definition removeAgentFromGroup (st : State) (h : Host)
    (groupId agentId : string) : bool * State :=
  match JsMap.get groupId (groups st), AgentService.getAgent st agentId with
  | Some group, Some agent =>
      let st1 :=
        with_groups st
          (JsMap.set groupId
             (Group.with_agentIds group
                (filter (fun id => negb (String.eqb id agentId))
                        (Group.agentIds group)))
             (groups st)) in
      let st2 :=
        snd (AgentService.updateAgent st1 h agentId
               (groupIdsUpdate
                  (filter (fun id => negb (String.eqb id groupId))
                          (Agent.groupIds agent)))) in
      (true, updateGroupStatistics st2 groupId)
  | _, _ => (false, st)
  end.

Definition getAvailableGroups (st : State) (originalGroupId : string)
    : list Group.t :=
  match JsMap.get originalGroupId (groups st) with
  | None => []
  | Some originalGroup =>
      if negb (Group.overflowEnabled originalGroup) then []
      else
        flat_map
          (fun group : option Group.t =>
             match group with
             | None => []
             | Some group =>
                 let availableAgents :=
                   AgentService.getAvailableAgentsByGroup st (Group.id group) in
                 if (0 <? List.length availableAgents)%nat then [group] else []
             end)
          (map (fun id => JsMap.get id (groups st))
               (Group.overflowGroupIds originalGroup))
  end.

Definition setOverflowGroups (st : State) (groupId : string)
    (overflowGroupIds : list string) : bool * State :=
  match JsMap.get groupId (groups st) with
  | None => (false, st)
  | Some group =>
      (true,
       with_groups st
         (JsMap.set groupId (Group.with_overflowGroupIds group overflowGroupIds)
            (groups st)))
  end.

Definition enableOverflow (st : State) (groupId : string) (enabled : bool)
    : bool * State :=
  match JsMap.get groupId (groups st) with
  | None => (false, st)
  | Some group =>
      (true,
       with_groups st
         (JsMap.set groupId (Group.with_overflowEnabled group enabled)
            (groups st)))
  end.
End GroupService.

(** ** services/acsService.ts *)
Module ACSService.

(** What [callAutomationClient.answerCall] does: it throws, or returns a
    result whose [callConnection] (when present) and the result itself may
    carry a [callConnectionId]. *)
Inductive SdkAnswer :=
| AnswerThrows
| AnswerResult (callConnection : option (option string))
               (callConnectionId : option string).

(** What [getCallConnection(..).hangUp(true)] does. *)
Inductive SdkHangUp :=
| HangUpDone
| HangUpThrows (isError : bool) (message : string) (code : option string).

(** The service's configuration and the outcome of the SDK requests made
    during the operation at hand. *)
Record t := {
  callAutomationClient : bool;              (* false: null, mock mode *)
  ACS_CALLBACK_BASE_URL : option string;
  sdkAnswerCall : SdkAnswer;
  sdkTransferCallToParticipant : bool;      (* false: it throws *)
  sdkHangUp : SdkHangUp
}.

Definition transferCallToAgent (acs : t) (h : Host)
    (callConnectionId agentUserId : string) (agentId : option string)
    : bool * list Event :=
  if negb (callAutomationClient acs) then (true, [])
  else if sdkTransferCallToParticipant acs then
    (true,
     match agentId with
     | Some agentId' =>
         if truthy agentId then
           [notifyAgent agentId' "acs_call_transfer_incoming"
              (TransferData callConnectionId agentUserId (now h))]
         else []
     | None => []
     end)
  else (false, []).

Definition answerCall (acs : t) (h : Host) (callId : string) (call : Call.t)
    (agentUserId agentId : option string) : bool * Call.t * list Event :=
  if negb (callAutomationClient acs) then (true, call, [])
  else if negb (truthy (Call.acsIncomingCallContext call)) then (false, call, [])
  else
    let callbackUrl :=
      match orElse (ACS_CALLBACK_BASE_URL acs) (Some "http://localhost:3001") with
      | Some base => base
      | None => "undefined"
      end ++ "/api/calls/events" in
    if includes callbackUrl "localhost" || includes callbackUrl "127.0.0.1" then
      let call' :=
        Call.with_acsCallConnectionId call
          (Some ("mock-connection-" ++ numberToString (now h))) in
      (true, call', [])
    else
      match sdkAnswerCall acs with
      | AnswerThrows => (false, call, [])
      | AnswerResult None _ => (true, call, [])
      | AnswerResult (Some method1) method2 =>
          let callConnectionId := orElse method1 method2 in
          match callConnectionId with
          | Some connectionId =>
              if truthy callConnectionId then
                let call' := Call.with_acsCallConnectionId call callConnectionId in
                match agentUserId with
                | Some agentUserId' =>
                    if truthy agentUserId then
                      let '(_, events) :=
                        transferCallToAgent acs h connectionId agentUserId' agentId in
                      (true, call', events)
                    else (true, call', [])
                | None => (true, call', [])
                end
              else (true, call, [])
          | None => (true, call, [])
          end
      end.

Definition endCall (acs : t) (callId : string) (call : Call.t) : bool :=
  if negb (callAutomationClient acs) then true
  else
    match Call.acsCallConnectionId call with
    | Some connectionId =>
        if negb (truthy (Call.acsCallConnectionId call)) then true
        else if startsWith connectionId "mock-connection-" then true
        else
          match sdkHangUp acs with
          | HangUpDone => true
          | HangUpThrows isError message code =>
              isError && (includes message "Call not found"
                          || includes message "8522"
                          || optEq code "8522")
          end
    | None => true
    end.

(** Transfer of a call to another phone number. *)
Definition transferCall (acs : t) (callId : string) (call : Call.t)
    (targetPhoneNumber : string) : bool :=
  if negb (callAutomationClient acs) then true
  else if negb (truthy (Call.acsCallConnectionId call)) then false
  else sdkTransferCallToParticipant acs.

Definition isConfigured (acs : t) : bool := callAutomationClient acs.

(** The fields of an incoming-call webhook payload that are read. *)
Module EventData.
Record t := {
  callConnectionId : option string;
  incomingCallContext : option string;
  data_incomingCallContext : option string;
  subject_incomingCallContext : option string;
  eventGridEvent_data_incomingCallContext : option string
}.
End EventData.

(** Returns [(callConnectionId, incomingCallContext)]. *)
Definition extractCallConnectionInfo (eventData : EventData.t)
    : option string * option string :=
  let callConnectionId := EventData.callConnectionId eventData in
  let incomingCallContext := EventData.incomingCallContext eventData in
  let incomingCallContext :=
    if negb (truthy incomingCallContext) then
      orElse (EventData.data_incomingCallContext eventData)
        (orElse (EventData.subject_incomingCallContext eventData)
           (EventData.eventGridEvent_data_incomingCallContext eventData))
    else incomingCallContext in
  (callConnectionId, incomingCallContext).
End ACSService.

(** ** services/callService.ts *)
Module CallService.

(** A call object is reached through the map: writing it back is what a
    mutation of the shared object amounts to. *)
Definition storeAt (st : State) (callId : string) (call : Call.t) : State :=
  with_calls st (JsMap.set callId call (calls st)).

Definition store (st : State) (call : Call.t) : State :=
  storeAt st (Call.id call) call.

Definition assignCallToAgent (st : State) (h : Host) (call : Call.t)
    : option Agent.t * State :=
  let availableAgents :=
    AgentService.getAvailableAgentsByGroup st (Call.groupId call) in
  match availableAgents with
  | [] => (None, st)
  | selectedAgent :: _ =>
      let '(ok, st') :=
        AgentService.assignCallToAgent st h (Agent.id selectedAgent) (Call.id call) in
      if ok then (Some selectedAgent, st') else (None, st')
  end.

(** The loop of [tryOverflowRouting] over the overflow groups computed on
    entry; the call is returned as the loop leaves it. *)
Fixpoint tryOverflowLoop (st : State) (h : Host) (call : Call.t)
    (overflowGroups : list Group.t) : bool * Call.t * State :=
  match overflowGroups with
  | [] => (false, call, st)
  | group :: rest =>
      let availableAgents :=
        AgentService.getAvailableAgentsByGroup st (Group.id group) in
      if (0 <? List.length availableAgents)%nat then
        let call1 := Call.with_groupId call (Group.id group) in
        let st1 := store st call1 in
        let '(assignedAgent, st2) := assignCallToAgent st1 h call1 in
        match assignedAgent with
        | Some agent =>
            let call2 :=
              Call.with_status
                (Call.with_assignedAgentId call1 (Some (Agent.id agent)))
                RINGING in
            let st3 := store st2 call2 in
            (true, call2,
             send st3 (notifyAgent (Agent.id agent) "call_incoming" (CallData call2)))
        | None => tryOverflowLoop st2 h call1 rest
        end
      else tryOverflowLoop st h call rest
  end.

Definition tryOverflowRouting (st : State) (h : Host) (call : Call.t)
    : bool * Call.t * State :=
  let overflowGroups := GroupService.getAvailableGroups st (Call.groupId call) in
  tryOverflowLoop st h call overflowGroups.

Definition handleIncomingCall (st : State) (h : Host) (uuid : string)
    (phoneNumber callerNumber : string)
    (acsEventData : option ACSService.EventData.t) : option Call.t * State :=
  match GroupService.getGroupByPhoneNumber st phoneNumber with
  | None => (None, st)
  | Some group =>
      let acsConnectionInfo :=
        match acsEventData with
        | Some eventData => ACSService.extractCallConnectionInfo eventData
        | None => (None, None)
        end in
      let call := {|
        Call.id := uuid;
        Call.phoneNumber := callerNumber;
        Call.groupId := Group.id group;
        Call.assignedAgentId := None;
        Call.status := INCOMING;
        Call.startTime := now h;
        Call.endTime := None;
        Call.duration := None;
        Call.waitTime := None;
        Call.acsCallConnectionId := fst acsConnectionInfo;
        Call.acsIncomingCallContext := snd acsConnectionInfo |} in
      let st1 := store st call in
      let '(assignedAgent, st2) := assignCallToAgent st1 h call in
      match assignedAgent with
      | Some agent =>
          let call' :=
            Call.with_status
              (Call.with_assignedAgentId call (Some (Agent.id agent))) RINGING in
          let st3 := store st2 call' in
          (Some call',
           send st3 (notifyAgent (Agent.id agent) "call_incoming" (CallData call')))
      | None =>
          let '(_, call', st3) := tryOverflowRouting st2 h call in
          (Some call', st3)
      end
  end.

(** [(agentData as any)?.acsUserId] for [agentData = getAgent(agentId)] *)
Definition agentACSUserId (st : State) (agentId : string) : option string :=
  match AgentService.getAgent st agentId with
  | Some agentData => Agent.acsUserId agentData
  | None => None
  end.

Definition answerCall (st : State) (h : Host) (acs : ACSService.t)
    (callId agentId : string) : bool * State :=
  match JsMap.get callId (calls st) with
  | None => (false, st)
  | Some call =>
      if negb (optEq (Call.assignedAgentId call) agentId)
         || negb (CallStatus_eqb (Call.status call) RINGING)
      then (false, st)
      else
        let '(acsAnswerSuccess, call1, events) :=
          ACSService.answerCall acs h callId call (agentACSUserId st agentId)
            (Some agentId) in
        (* what the gateway did to the shared call object and sent *)
        let st1 := fold_left send events (storeAt st callId call1) in
        if negb acsAnswerSuccess then (false, st1)
        else
          let call2 := Call.with_status call1 CONNECTED in
          let st2 := storeAt st1 callId call2 in
          let agent := AgentService.getAgent st2 agentId in
          let st3 := GroupService.updateGroupStatistics st2 (Call.groupId call2) in
          let st4 := send st3 (broadcast "call_answered" (CallData call2)) in
          let st5 :=
            match agent with
            | Some agent =>
                send (send st4 (notifyAgent agentId "agent_status_update"
                                  (AgentData agent)))
                     (notifySupervisors "agent_status_updated" (AgentData agent))
            | None => st4
            end in
          (true, st5)
  end.

Definition endCall (st : State) (h : Host) (acs : ACSService.t)
    (callId : string) (agentId : option string) : bool * State :=
  match JsMap.get callId (calls st) with
  | None => (false, st)
  | Some call =>
      if truthy agentId
         && negb (match agentId with
                  | Some agentId' => optEq (Call.assignedAgentId call) agentId'
                  | None => false
                  end)
      then (false, st)
      else if negb (ACSService.endCall acs callId call) then (false, st)
      else
        let assignedAgentId := Call.assignedAgentId call in
        let duration := now h - Call.startTime call in
        let call1 :=
          Call.with_duration
            (Call.with_endTime (Call.with_status call ENDED) (Some (now h)))
            (Some duration) in
        let '(call2, st1) :=
          match assignedAgentId with
          | Some assignedAgentId' =>
              if truthy assignedAgentId && negb (duration =? 0) then
                (Call.with_waitTime call1 (Some 0),
                 snd (AgentService.releaseAgentFromCall st h assignedAgentId'
                        (duration # 1000)))
              else (call1, st)
          | None => (call1, st)
          end in
        let st2 := storeAt st1 callId call2 in
        let agent :=
          match assignedAgentId with
          | Some assignedAgentId' =>
              if truthy assignedAgentId
              then AgentService.getAgent st2 assignedAgentId' else None
          | None => None
          end in
        let st3 := GroupService.updateGroupStatistics st2 (Call.groupId call2) in
        let st4 := send st3 (broadcast "call_ended" (CallData call2)) in
        let st5 :=
          match agent, assignedAgentId with
          | Some agent, Some assignedAgentId' =>
              send (send st4 (notifyAgent assignedAgentId' "agent_status_update"
                                (AgentData agent)))
                   (notifySupervisors "agent_status_updated" (AgentData agent))
          | _, _ => st4
          end in
        (true, st5)
  end.

Definition getCall (st : State) (callId : string) : option Call.t :=
  JsMap.get callId (calls st).

Definition getActiveCalls (st : State) : list Call.t :=
  filter (fun call => negb (CallStatus_eqb (Call.status call) ENDED))
         (JsMap.values (calls st)).

Definition getCallsByAgent (st : State) (agentId : string) : list Call.t :=
  filter (fun call => optEq (Call.assignedAgentId call) agentId)
         (JsMap.values (calls st)).

Definition getCallsByGroup (st : State) (groupId : string) : list Call.t :=
  filter (fun call => String.eqb (Call.groupId call) groupId)
         (JsMap.values (calls st)).

Definition transferCall (st : State) (h : Host)
    (callId fromAgentId toAgentId : string) : bool * State :=
  match JsMap.get callId (calls st), AgentService.getAgent st toAgentId with
  | Some call, Some toAgent =>
      if negb (optEq (Call.assignedAgentId call) fromAgentId)
         || negb (AgentStatus_eqb (Agent.status toAgent) AVAILABLE)
      then (false, st)
      else
        (* Release current agent *)
        let st1 :=
          match Call.duration call with
          | Some duration =>
              if negb (duration =? 0) then
                snd (AgentService.releaseAgentFromCall st h fromAgentId
                       (duration # 1000))
              else st
          | None => st
          end in
        (* Assign to new agent *)
        let '(ok, st2) := AgentService.assignCallToAgent st1 h toAgentId callId in
        if ok then
          let call' :=
            Call.with_status
              (Call.with_assignedAgentId call (Some toAgentId)) TRANSFERRED in
          let st3 := storeAt st2 callId call' in
          (true,
           send (send st3 (notifyAgent fromAgentId "call_transferred_out"
                             (CallData call')))
                (notifyAgent toAgentId "call_transferred_in" (CallData call')))
        else (false, st2)
  | _, _ => (false, st)
  end.

Definition findCallByACSConnectionId (st : State) (callConnectionId : string)
    : option Call.t :=
  find (fun call => optEq (Call.acsCallConnectionId call) callConnectionId)
       (JsMap.values (calls st)).
End CallService.

(** ** Public operations as commands, and the states they reach *)
Inductive Op :=
| CreateAgent (h : Host) (uuid : string) (request : CreateAgentRequest.t)
| InitializeTestAgents (h : Host)
| UpdateAgentStatus (h : Host) (id : string) (status : AgentStatus)
| UpdateAgentACSUserId (h : Host) (id acsUserId : string)
| DeleteAgent (id : string)
| AssignCallToAgent (h : Host) (agentId callId : string)
| ReleaseAgentFromCall (h : Host) (agentId : string) (callDuration : Q)
| CreateGroup (uuid : string) (request : CreateGroupRequest.t)
| DeleteGroup (h : Host) (id : string)
| AddAgentToGroup (h : Host) (groupId agentId : string)
| RemoveAgentFromGroup (h : Host) (groupId agentId : string)
| SetOverflowGroups (groupId : string) (overflowGroupIds : list string)
| EnableOverflow (groupId : string) (enabled : bool)
| HandleIncomingCall (h : Host) (uuid phoneNumber callerNumber : string)
    (acsEventData : option ACSService.EventData.t)
| AnswerCall (h : Host) (acs : ACSService.t) (callId agentId : string)
| EndCall (h : Host) (acs : ACSService.t) (callId : string)
    (agentId : option string)
| TransferCall (h : Host) (callId fromAgentId toAgentId : string).

Definition exec (st : State) (op : Op) : State :=
  match op with
  | CreateAgent h uuid request => snd (AgentService.createAgent st h uuid request)
  | InitializeTestAgents h => AgentService.initializeTestAgents st h
  | UpdateAgentStatus h id status =>
      snd (AgentService.updateAgentStatus st h id status)
  | UpdateAgentACSUserId h id acsUserId =>
      snd (AgentService.updateAgentACSUserId st h id acsUserId)
  | DeleteAgent id => snd (AgentService.deleteAgent st id)
  | AssignCallToAgent h agentId callId =>
      snd (AgentService.assignCallToAgent st h agentId callId)
  | ReleaseAgentFromCall h agentId callDuration =>
      snd (AgentService.releaseAgentFromCall st h agentId callDuration)
  | CreateGroup uuid request => snd (GroupService.createGroup st uuid request)
  | DeleteGroup h id => snd (GroupService.deleteGroup st h id)
  | AddAgentToGroup h groupId agentId =>
      snd (GroupService.addAgentToGroup st h groupId agentId)
  | RemoveAgentFromGroup h groupId agentId =>
      snd (GroupService.removeAgentFromGroup st h groupId agentId)
  | SetOverflowGroups groupId ids =>
      snd (GroupService.setOverflowGroups st groupId ids)
  | EnableOverflow groupId enabled =>
      snd (GroupService.enableOverflow st groupId enabled)
  | HandleIncomingCall h uuid phoneNumber callerNumber acsEventData =>
      snd (CallService.handleIncomingCall st h uuid phoneNumber callerNumber
             acsEventData)
  | AnswerCall h acs callId agentId =>
      snd (CallService.answerCall st h acs callId agentId)
  | EndCall h acs callId agentId =>
      snd (CallService.endCall st h acs callId agentId)
  | TransferCall h callId fromAgentId toAgentId =>
      snd (CallService.transferCall st h callId fromAgentId toAgentId)
  end.

Definition run (ops : list Op) : State := fold_left exec ops initial.

Definition isUpdateAgentStatus (op : Op) : bool :=
  match op with
  | UpdateAgentStatus _ _ _ => true
  | _ => false
  end.

(** ** The properties the specification states, as predicates on states *)


Definition isSet {A} (o : option A) : bool :=
  match o with Some _ => true | None => false end.






(** Every listed agent is the one its own id is mapped to. *)
Definition agentsKeyedById (st : State) : Prop :=
  forall agent, In agent (JsMap.values (agents st)) ->
                JsMap.get (Agent.id agent) (agents st) = Some agent.

(** "Release of an agent that is not in a call changes nothing and reports
    success", for one agent of one state. *)
Definition releaseIsNoop (st : State) (h : Host) (agentId : string)
    (callDuration : Q) : Prop :=
  let r := AgentService.releaseAgentFromCall st h agentId callDuration in
  fst r = true
  /\ exists agent agent',
       AgentService.getAgent st agentId = Some agent
       /\ AgentService.getAgent (snd r) agentId = Some agent'
       /\ Agent.status agent' = Agent.status agent
       /\ Agent.currentCallId agent' = Agent.currentCallId agent
       /\ Agent.statistics agent' = Agent.statistics agent.


(** Every entry of the agent map is filed under the id of its agent, and no
    key occurs twice: what [Map.set(agent.id, agent)] maintains. *)
Definition keyedById (m : JsMap.t Agent.t) : Prop :=
  (forall k agent, In (k, agent) m -> k = Agent.id agent)
  /\ NoDup (JsMap.keys m).

(** A call carries a duration only once it is ENDED (or TRANSFERRED after
    that): [endCall] is the only writer of [duration]. *)
Definition unstampedWhileOpen (call : Call.t) : bool :=
  match Call.status call with
  | ENDED | TRANSFERRED => true
  | INCOMING | RINGING | CONNECTED => negb (isSet (Call.duration call))
  end.

Definition callsUnstamped (m : JsMap.t Call.t) : Prop :=
  forallb unstampedWhileOpen (JsMap.values m) = true.



(** ** overflowCandidates, in the words of the specification

    "Ordered list of Groups from overflowGroupIds filtered to those that both
    exist and currently have at least one available agent, in the original
    configured order", consulted only when overflow is enabled. It is
    compared with [GroupService.getAvailableGroups] below. *)
Definition hasAvailableAgent (st : State) (group : Group.t) : bool :=
  existsb (fun agent => arrayIncludes (Agent.groupIds agent) (Group.id group)
                        && AgentStatus_eqb (Agent.status agent) AVAILABLE)
          (JsMap.values (agents st)).

Fixpoint existingGroups (st : State) (ids : list string) : list Group.t :=
  match ids with
  | [] => []
  | id :: ids' =>
      match GroupService.getGroup st id with
      | Some group => group :: existingGroups st ids'
      | None => existingGroups st ids'
      end
  end.

Definition overflowCandidates (st : State) (groupId : string) : list Group.t :=
  match GroupService.getGroup st groupId with
  | Some group =>
      if Group.overflowEnabled group
      then filter (hasAvailableAgent st)
                  (existingGroups st (Group.overflowGroupIds group))
      else []
  | None => []
  end.

(** ** Concrete runs, for evaluating the operations *)
Module Scenario.
Definition h : Z -> Host := Utc.host.

(** No telephony client is configured: the gateway is in mock mode. *)
Definition mockAcs : ACSService.t := {|
  ACSService.callAutomationClient := false;
  ACSService.ACS_CALLBACK_BASE_URL := None;
  ACSService.sdkAnswerCall := ACSService.AnswerThrows;
  ACSService.sdkTransferCallToParticipant := false;
  ACSService.sdkHangUp := ACSService.HangUpDone |}.

(** A configured client with a public callback address, whose requests
    all fail. *)
Definition failingAcs : ACSService.t := {|
  ACSService.callAutomationClient := true;
  ACSService.ACS_CALLBACK_BASE_URL := Some "https://queue.example.com";
  ACSService.sdkAnswerCall := ACSService.AnswerThrows;
  ACSService.sdkTransferCallToParticipant := false;
  ACSService.sdkHangUp :=
    ACSService.HangUpThrows true "Service unavailable" None |}.

Definition group (phoneNumber : string) : CreateGroupRequest.t :=
  CreateGroupRequest.mk "Support" "Madrid" phoneNumber None None.

Definition agent (name : string) (groupIds : list string)
    : CreateAgentRequest.t :=
  CreateAgentRequest.mk name "agent@example.com" name "password123" groupIds.

Definition incomingContext : ACSService.EventData.t := {|
  ACSService.EventData.callConnectionId := None;
  ACSService.EventData.incomingCallContext := Some "ctx-1";
  ACSService.EventData.data_incomingCallContext := None;
  ACSService.EventData.subject_incomingCallContext := None;
  ACSService.EventData.eventGridEvent_data_incomingCallContext := None |}.

(** Group G with the agents X and Y, both AVAILABLE. *)
Definition staffed : list Op :=
  [ CreateGroup "G" (group "+15550100");
    CreateAgent (h 1000) "X" (agent "x" ["G"]);
    CreateAgent (h 1100) "Y" (agent "y" ["G"]);
    UpdateAgentStatus (h 2000) "X" AVAILABLE;
    UpdateAgentStatus (h 2100) "Y" AVAILABLE ].

(** A call for G rings at X, the first available agent. *)
Definition ringing : list Op :=
  staffed
  ++ [ HandleIncomingCall (h 3000) "c1" "+15550100" "+15550199"
         (Some incomingContext) ].

(** X answers and, five seconds later, ends the call. *)
Definition ended : list Op :=
  ringing
  ++ [ AnswerCall (h 4000) mockAcs "c1" "X";
       EndCall (h 9000) mockAcs "c1" (Some "X") ].




(** Groups A, B, C and D; A overflows to B, a missing group, C and D; B has
    no available agent. *)
Definition overflow : list Op :=
  [ CreateGroup "A" (CreateGroupRequest.mk "A" "Madrid" "+15550100"
                       (Some true) (Some ["B"; "missing"; "C"; "D"]));
    CreateGroup "B" (group "+15550101");
    CreateGroup "C" (group "+15550102");
    CreateGroup "D" (group "+15550103");
    CreateAgent (h 1000) "a1" (agent "a1" ["A"]);
    CreateAgent (h 1100) "b1" (agent "b1" ["B"]);
    CreateAgent (h 1200) "c1" (agent "c1" ["C"]);
    CreateAgent (h 1300) "d1" (agent "d1" ["D"]);
    UpdateAgentStatus (h 2000) "b1" BUSY;
    UpdateAgentStatus (h 2100) "c1" AVAILABLE;
    UpdateAgentStatus (h 2200) "d1" AVAILABLE ].
End Scenario.

(** Every entry of the call map is filed under the id of its call, and no
    key occurs twice. *)
Definition callsKeyedById (m : JsMap.t Call.t) : Prop :=
  (forall k call, In (k, call) m -> k = Call.id call)
  /\ NoDup (JsMap.keys m).

(** ** controllers/callController.ts *)
Module CallController.

(** The fields of a call-automation event payload ([event.data]) that the
    handlers read. *)
Module EventData.
Record t := {
  validationCode : option string;
  callConnectionId : option string;
  resultInformation_message : option string;
  resultInformation_subCode : option Z
}.
End EventData.

Module Event.
Record t := {
  eventType : option string;
  type : option string;
  data : option EventData.t
}.
End Event.

Definition hasConnection (callConnectionId : string) (call : Call.t) : bool :=
  optEq (Call.acsCallConnectionId call) callConnectionId.

Definition handleCallConnectedEvent (st : State) (eventData : EventData.t)
    : State :=
  match EventData.callConnectionId eventData with
  | Some callConnectionId =>
      if truthy (EventData.callConnectionId eventData) then
        match CallService.findCallByACSConnectionId st callConnectionId with
        | Some call =>
            let st' :=
              with_calls st
                (JsMap.mutateFirst (hasConnection callConnectionId)
                   (fun call => Call.with_status call CONNECTED) (calls st)) in
            send st' (broadcast "call_connected"
                        (CallData (Call.with_status call CONNECTED)))
        | None => st
        end
      else st
  | None => st
  end.

Definition isTransferDisconnect (eventData : EventData.t) : bool :=
  let disconnectMessage :=
    match orElse (EventData.resultInformation_message eventData) (Some "") with
    | Some message => message
    | None => ""
    end in
  includes disconnectMessage "transfer completed successfully"
  || match EventData.resultInformation_subCode eventData with
     | Some subCode => subCode =? 7015
     | None => false
     end.

Definition handleCallDisconnectedEvent (st : State) (h : Host)
    (acs : ACSService.t) (eventData : EventData.t) : State :=
  if isTransferDisconnect eventData then st
  else
    match EventData.callConnectionId eventData with
    | Some callConnectionId =>
        if truthy (EventData.callConnectionId eventData) then
          match CallService.findCallByACSConnectionId st callConnectionId with
          | Some call =>
              if negb (CallStatus_eqb (Call.status call) ENDED)
              then snd (CallService.endCall st h acs (Call.id call) None)
              else st
          | None => st
          end
        else st
    | None => st
    end.

Definition handleCallTransferEvent (st : State) (eventData : EventData.t)
    : State :=
  match EventData.callConnectionId eventData with
  | Some callConnectionId =>
      if truthy (EventData.callConnectionId eventData) then
        with_calls st
          (JsMap.mutateFirst (hasConnection callConnectionId)
             (fun call => Call.with_acsCallConnectionId call None) (calls st))
      else st
  | None => st
  end.

(** A handler that reads a field of a missing payload throws; the [catch]
    of [processCallAutomationEvent] logs it, before anything was changed. *)
Definition processCallAutomationEvent (st : State) (h : Host)
    (acs : ACSService.t) (event : Event.t) : State :=
  let eventType := orElse (Event.eventType event) (Event.type event) in
  match eventType, Event.data event with
  | Some eventType, Some eventData =>
      if String.eqb eventType "Microsoft.Communication.CallConnected" then
        handleCallConnectedEvent st eventData
      else if String.eqb eventType "Microsoft.Communication.CallDisconnected" then
        handleCallDisconnectedEvent st h acs eventData
      else if String.eqb eventType "Microsoft.Communication.CallTransferAccepted"
              || String.eqb eventType "Microsoft.Communication.CallTransferFailed"
      then handleCallTransferEvent st eventData
      else st
  | _, _ => st
  end.

Inductive EventsResponse :=
| ValidationResponse (validationCode : string)
| Success.

(** The code a subscription-validation event asks to echo, if [event] is
    one and carries a code. *)
Definition validationCodeOf (event : Event.t) : option string :=
  if optEq (Event.eventType event)
           "Microsoft.EventGrid.SubscriptionValidationEvent"
  then
    match Event.data event with
    | Some eventData =>
        if truthy (EventData.validationCode eventData)
        then EventData.validationCode eventData else None
    | None => None
    end
  else None.

(** [handleACSCallEvents] on the events of the request body (none when the
    body is not an array), each with the clock and the gateway outcome that
    hold while it is processed. *)
Fixpoint handleACSCallEvents (st : State)
    (events : list (Host * ACSService.t * Event.t)) : EventsResponse * State :=
  match events with
  | [] => (Success, st)
  | (h, acs, event) :: rest =>
      match validationCodeOf event with
      | Some code => (ValidationResponse code, st)
      | None =>
          handleACSCallEvents (processCallAutomationEvent st h acs event) rest
      end
  end.

(** The events of a batch, processed one after the other. *)
Definition processAll (st : State)
    (events : list (Host * ACSService.t * Event.t)) : State :=
  fold_left (fun st (x : Host * ACSService.t * Event.t) =>
               processCallAutomationEvent st (fst (fst x)) (snd (fst x)) (snd x))
            events st.

(** The payload of an incoming-call event: the two phone numbers and what
    [extractCallConnectionInfo] reads. *)
Module IncomingData.
Record t := {
  validationCode : option string;
  to_phoneNumber_value : option string;
  from_phoneNumber_value : option string;
  acs : ACSService.EventData.t
}.
End IncomingData.

Module IncomingEvent.
Record t := {
  eventType : option string;
  data : option IncomingData.t
}.
End IncomingEvent.

(** The request body: an array of events, or the legacy object. *)
Inductive Body :=
| ArrayBody (events : list IncomingEvent.t)
| ObjectBody (phoneNumber callerNumber : option string).

Inductive Response :=
| Validation (validationCode : string)      (* 200 *)
| BadRequest (error : string)               (* 400 *)
| NotFound (error : string)                 (* 404 *)
| Handled (call : Call.t).                  (* 200 *)

Definition statusCode (response : Response) : Z :=
  match response with
  | Validation _ | Handled _ => 200
  | BadRequest _ => 400
  | NotFound _ => 404
  end.

Definition route (st : State) (h : Host) (uuid : string)
    (phoneNumber callerNumber : option string)
    (acsEventData : option ACSService.EventData.t) (missing : string)
    : Response * State :=
  match phoneNumber, callerNumber with
  | Some phoneNumber', Some callerNumber' =>
      if negb (truthy phoneNumber) || negb (truthy callerNumber)
      then (BadRequest missing, st)
      else
        let '(call, st') :=
          CallService.handleIncomingCall st h uuid phoneNumber' callerNumber'
            acsEventData in
        match call with
        | Some call => (Handled call, st')
        | None =>
            (NotFound "No group found for phone number or failed to create call",
             st')
        end
  | _, _ => (BadRequest missing, st)
  end.

Definition legacy (st : State) (h : Host) (uuid : string)
    (phoneNumber callerNumber : option string) : Response * State :=
  route st h uuid phoneNumber callerNumber None
    "Missing required fields: phoneNumber, callerNumber".

Definition handleIncomingCall (st : State) (h : Host) (uuid : string)
    (body : Body) : Response * State :=
  match body with
  | ArrayBody (event :: _) =>
      if optEq (IncomingEvent.eventType event)
               "Microsoft.EventGrid.SubscriptionValidationEvent"
      then
        let validationCode :=
          match IncomingEvent.data event with
          | Some data => IncomingData.validationCode data
          | None => None
          end in
        match validationCode with
        | Some code =>
            if truthy validationCode then (Validation code, st)
            else (BadRequest "Missing validation code", st)
        | None => (BadRequest "Missing validation code", st)
        end
      else if optEq (IncomingEvent.eventType event)
                    "Microsoft.Communication.IncomingCall"
      then
        match IncomingEvent.data event with
        | None => (BadRequest "Missing call data in incoming call event", st)
        | Some callData =>
            route st h uuid (IncomingData.to_phoneNumber_value callData)
              (IncomingData.from_phoneNumber_value callData)
              (Some (IncomingData.acs callData))
              "Missing required phone number fields in ACS event"
        end
      else
        (* an array has no phoneNumber and no callerNumber property *)
        legacy st h uuid None None
  | ArrayBody [] => legacy st h uuid None None
  | ObjectBody phoneNumber callerNumber =>
      legacy st h uuid phoneNumber callerNumber
  end.
End CallController.

(** ** services/webSocketService.ts: who receives a notification *)
Module WebSocketService.

Inductive ClientType := agentClient | supervisorClient.

Record ClientConnection := {
  isOpen : bool;                 (* ws.readyState === WebSocket.OPEN *)
  agentId : option string;
  supervisorId : option string;
  type : ClientType
}.

Definition isAgent (connection : ClientConnection) : bool :=
  match type connection with agentClient => true | supervisorClient => false end.

Definition isSupervisor (connection : ClientConnection) : bool :=
  negb (isAgent connection).

Definition Clients := JsMap.t ClientConnection.

Inductive ClientMessage :=
| authenticate_agent (agentId : option string)
| authenticate_supervisor (supervisorId : option string)
| ping
| unknownMessage.

(** The clients a message is written to: [sendToClient] writes to the
    connection filed under [clientId] when its socket is open. *)
Definition sendToClient (clients : Clients) (clientId : string) : list string :=
  match JsMap.get clientId clients with
  | Some connection => if isOpen connection then [clientId] else []
  | None => []
  end.

(** A connection opens: it is filed as an agent client and welcomed. *)
Definition connect (clients : Clients) (clientId : string) (open : bool)
    : Clients * list string :=
  let clients' :=
    JsMap.set clientId
      {| isOpen := open; agentId := None; supervisorId := None;
         type := agentClient |} clients in
  (clients', sendToClient clients' clientId).

Definition close (clients : Clients) (clientId : string) : Clients :=
  JsMap.remove clientId clients.

Definition handleMessage (clients : Clients) (clientId : string)
    (message : ClientMessage) : Clients * list string :=
  match JsMap.get clientId clients with
  | None => (clients, [])
  | Some connection =>
      match message with
      | authenticate_agent agentId' =>
          (JsMap.set clientId
             {| isOpen := isOpen connection; agentId := agentId';
                supervisorId := supervisorId connection; type := agentClient |}
             clients, [])
      | authenticate_supervisor supervisorId' =>
          (JsMap.set clientId
             {| isOpen := isOpen connection; agentId := agentId connection;
                supervisorId := supervisorId'; type := supervisorClient |}
             clients, [])
      | ping => (clients, sendToClient clients clientId)
      | unknownMessage => (clients, [])
      end
  end.

Definition isAgentConnection (agentId' : string) (connection : ClientConnection)
    : bool :=
  optEq (agentId connection) agentId' && isAgent connection.

(** The first entry, in listing order, of an agent connection of the agent. *)
Fixpoint findAgentClient (agentId' : string) (clients : Clients)
    : option string :=
  match clients with
  | [] => None
  | (clientId, connection) :: rest =>
      if isAgentConnection agentId' connection then Some clientId
      else findAgentClient agentId' rest
  end.

Definition notifyAgent (clients : Clients) (agentId' : string) : list string :=
  match findAgentClient agentId' clients with
  | Some clientId => sendToClient clients clientId
  | None => []
  end.

Definition notifySupervisors (clients : Clients) : list string :=
  flat_map (fun entry : string * ClientConnection =>
              if isSupervisor (snd entry) then sendToClient clients (fst entry)
              else [])
           clients.

Definition broadcast (clients : Clients) : list string :=
  flat_map (fun entry : string * ClientConnection =>
              sendToClient clients (fst entry))
           clients.

Definition broadcastToAgents (clients : Clients) : list string :=
  flat_map (fun entry : string * ClientConnection =>
              if isAgent (snd entry) then sendToClient clients (fst entry)
              else [])
           clients.

Definition getConnectedAgents (clients : Clients) : list string :=
  flat_map (fun connection =>
              match agentId connection with
              | Some agentId' =>
                  if isAgent connection && truthy (agentId connection)
                  then [agentId'] else []
              | None => []
              end)
           (JsMap.values clients).

Definition isAgentConnected (clients : Clients) (agentId' : string) : bool :=
  existsb (isAgentConnection agentId') (JsMap.values clients).

Definition disconnectAgent (clients : Clients) (agentId' : string)
    : bool * Clients :=
  match findAgentClient agentId' clients with
  | Some clientId => (true, JsMap.remove clientId clients)
  | None => (false, clients)
  end.

End WebSocketService.

(** The recipients of a logged notification. *)
Definition deliver (clients : WebSocketService.Clients) (event : Event)
    : list string :=
  match event with
  | notifyAgent agentId _ _ => WebSocketService.notifyAgent clients agentId
  | notifySupervisors _ _ => WebSocketService.notifySupervisors clients
  | broadcast _ _ => WebSocketService.broadcast clients
  end.

(** ** index.ts: the statistics endpoint *)
Module Index.

Record AgentCounts := {
  total : nat; available : nat; busy : nat; offline : nat
}.

Record CallCounts := {
  active : nat; incoming : nat; ringing : nat; connected : nat
}.

Definition count {A} (f : A -> bool) (l : list A) : nat :=
  List.length (filter f l).

Definition agentCounts (st : State) : AgentCounts :=
  let agents := AgentService.getAllAgents st in
  {| total := List.length agents;
     available := count (fun a => AgentStatus_eqb (Agent.status a) AVAILABLE) agents;
     busy := count (fun a => AgentStatus_eqb (Agent.status a) BUSY
                             || AgentStatus_eqb (Agent.status a) IN_CALL) agents;
     offline := count (fun a => AgentStatus_eqb (Agent.status a) OFFLINE) agents |}.

Definition callCounts (st : State) : CallCounts :=
  let activeCalls := CallService.getActiveCalls st in
  {| active := List.length activeCalls;
     incoming := count (fun c => CallStatus_eqb (Call.status c) INCOMING) activeCalls;
     ringing := count (fun c => CallStatus_eqb (Call.status c) RINGING) activeCalls;
     connected :=
       count (fun c => CallStatus_eqb (Call.status c) CONNECTED) activeCalls |}.

Definition groupsWithOverflow (st : State) : nat :=
  count Group.overflowEnabled (GroupService.getAllGroups st).
End Index.

(** ** routes/callRoutes.ts

    The routes in registration order. A request goes to the first route of
    its method whose path matches; none of the handlers passes it on. A path
    is its list of segments; [litEq] is the comparison of a literal segment
    (case-insensitive in the default configuration). *)
Module CallRoutes.

Inductive Method := GET | POST.

Inductive Segment := Lit (s : string) | Param (name : string).

Inductive Handler :=
| handleIncomingCall | handleACSCallEvents | answerCall | endCall
| transferCall | getActiveCalls | getCall | getCallsByAgent | getCallsByGroup
| getACSToken | testACSConnection.

Definition Method_eqb (a b : Method) : bool :=
  match a, b with
  | GET, GET | POST, POST => true
  | _, _ => false
  end.

Definition routes : list (Method * list Segment * Handler) :=
  [ (POST, [Lit "incoming"], handleIncomingCall);
    (POST, [Lit "events"], handleACSCallEvents);
    (POST, [Param "callId"; Lit "answer"], answerCall);
    (POST, [Param "callId"; Lit "end"], endCall);
    (POST, [Param "callId"; Lit "transfer"], transferCall);
    (GET, [Lit "active"], getActiveCalls);
    (GET, [Param "callId"], getCall);
    (GET, [Lit "agent"; Param "agentId"], getCallsByAgent);
    (GET, [Lit "group"; Param "groupId"], getCallsByGroup);
    (GET, [Lit "acs-token"; Param "agentId"], getACSToken);
    (GET, [Lit "test-acs"], testACSConnection) ].

Section Matching.
Variable litEq : string -> string -> bool.

Fixpoint matches (pattern : list Segment) (path : list string) : bool :=
  match pattern, path with
  | [], [] => true
  | Lit s :: pattern', x :: path' => litEq s x && matches pattern' path'
  | Param _ :: pattern', x :: path' =>
      negb (String.eqb x "") && matches pattern' path'
  | _, _ => false
  end.

Fixpoint dispatchIn (table : list (Method * list Segment * Handler))
    (method : Method) (path : list string) : option Handler :=
  match table with
  | [] => None
  | (m, pattern, handler) :: rest =>
      if Method_eqb m method && matches pattern path then Some handler
      else dispatchIn rest method path
  end.

Definition dispatch (method : Method) (path : list string) : option Handler :=
  dispatchIn routes method path.
End Matching.
End CallRoutes.

(** ** Further concrete runs *)
Module Cases.
Definition h : Z -> Host := Utc.host.

(** A configured client with a public callback address, whose requests
    succeed: the answer yields the connection conn-1. *)
Definition liveAcs : ACSService.t := {|
  ACSService.callAutomationClient := true;
  ACSService.ACS_CALLBACK_BASE_URL := Some "https://queue.example.com";
  ACSService.sdkAnswerCall := ACSService.AnswerResult (Some (Some "conn-1")) None;
  ACSService.sdkTransferCallToParticipant := true;
  ACSService.sdkHangUp := ACSService.HangUpDone |}.

(** A configured client whose callback address is local: development mode. *)
Definition devAcs : ACSService.t := {|
  ACSService.callAutomationClient := true;
  ACSService.ACS_CALLBACK_BASE_URL := None;
  ACSService.sdkAnswerCall := ACSService.AnswerThrows;
  ACSService.sdkTransferCallToParticipant := false;
  ACSService.sdkHangUp :=
    ACSService.HangUpThrows true "Service unavailable" None |}.

(** The call c1 rings at X and is answered through the live gateway. *)
Definition connected : list Op :=
  Scenario.ringing ++ [ AnswerCall (h 4000) liveAcs "c1" "X" ].

(** X is a member of G on both sides; Y only lists G itself. *)
Definition enrolled : list Op :=
  Scenario.staffed ++ [ AddAgentToGroup (h 2500) "G" "X" ].

Definition event (eventType : string) (callConnectionId : string)
    : CallController.Event.t := {|
  CallController.Event.eventType := Some eventType;
  CallController.Event.type := None;
  CallController.Event.data := Some {|
    CallController.EventData.validationCode := None;
    CallController.EventData.callConnectionId := Some callConnectionId;
    CallController.EventData.resultInformation_message := None;
    CallController.EventData.resultInformation_subCode := None |} |}.

Definition eventData (callConnectionId : string) (subCode : option Z)
    : CallController.EventData.t := {|
  CallController.EventData.validationCode := None;
  CallController.EventData.callConnectionId := Some callConnectionId;
  CallController.EventData.resultInformation_message := None;
  CallController.EventData.resultInformation_subCode := subCode |}.

(** Two tabs of agent X (the first one closed), a supervisor and agent Y. *)
Definition clients : WebSocketService.Clients :=
  [ ("t1", {| WebSocketService.isOpen := false;
              WebSocketService.agentId := Some "X";
              WebSocketService.supervisorId := None;
              WebSocketService.type := WebSocketService.agentClient |});
    ("t2", {| WebSocketService.isOpen := true;
              WebSocketService.agentId := Some "X";
              WebSocketService.supervisorId := None;
              WebSocketService.type := WebSocketService.agentClient |});
    ("s1", {| WebSocketService.isOpen := true;
              WebSocketService.agentId := None;
              WebSocketService.supervisorId := Some "boss";
              WebSocketService.type := WebSocketService.supervisorClient |});
    ("t3", {| WebSocketService.isOpen := true;
              WebSocketService.agentId := Some "Y";
              WebSocketService.supervisorId := None;
              WebSocketService.type := WebSocketService.agentClient |}) ].
End Cases.

(** * Properties *)

(** Goals about a concrete run are settled by evaluation. *)
Ltac evaluate := vm_compute; reflexivity.

Ltac evaluate_all :=
  repeat match goal with
         | |- _ /\ _ => split
         | |- exists _, _ => eexists
         | |- _ = _ => evaluate
         end.

(** ** Facts about the insertion-ordered map *)
Section JsMapFacts.
Context {V : Type}.
Implicit Types (m : JsMap.t V) (k : string) (v : V).

Lemma get_set_same m k v : JsMap.get k (JsMap.set k v m) = Some v.
Proof.
  induction m as [|[k' v'] m IH]; simpl.
  - now rewrite String.eqb_refl.
  - destruct (String.eqb k k') eqn:E; simpl; rewrite ?String.eqb_refl, ?E; auto.
Qed.

Lemma get_set_other m k k' v :
  k <> k' -> JsMap.get k' (JsMap.set k v m) = JsMap.get k' m.
Proof.
  intros Hne. induction m as [|[k0 v0] m IH]; simpl.
  - destruct (String.eqb k' k) eqn:E; auto.
    apply String.eqb_eq in E. congruence.
  - destruct (String.eqb k k0) eqn:E; simpl.
    + apply String.eqb_eq in E. subst k0.
      destruct (String.eqb k' k) eqn:E'; auto.
      apply String.eqb_eq in E'. congruence.
    + now rewrite IH.
Qed.

Lemma get_In m k v : JsMap.get k m = Some v -> In v (JsMap.values m).
Proof.
  induction m as [|[k' v'] m IH]; simpl; [discriminate|].
  destruct (String.eqb k k'); intros H; [injection H; auto | auto].
Qed.

Lemma values_set_In m k v x :
  In x (JsMap.values (JsMap.set k v m)) -> x = v \/ In x (JsMap.values m).
Proof.
  induction m as [|[k' v'] m IH]; simpl.
  - intros [H|[]]; auto.
  - destruct (String.eqb k k'); simpl; intros [H|H]; auto.
    destruct (IH H); auto.
Qed.


Lemma forallb_values_set (P : V -> bool) m k v :
  P v = true ->
  forallb P (JsMap.values m) = true ->
  forallb P (JsMap.values (JsMap.set k v m)) = true.
Proof.
  intros Hv Hm. apply forallb_forall. intros x Hx.
  destruct (values_set_In _ _ _ _ Hx) as [->|Hin]; auto.
  rewrite forallb_forall in Hm. auto.
Qed.


End JsMapFacts.

Lemma AgentStatus_eqb_eq a b : AgentStatus_eqb a b = true <-> a = b.
Proof. destruct a, b; simpl; split; intros H; congruence. Qed.

Lemma CallStatus_eqb_eq a b : CallStatus_eqb a b = true <-> a = b.
Proof. destruct a, b; simpl; split; intros H; congruence. Qed.

Lemma optEq_eq a b : optEq a b = true <-> a = Some b.
Proof.
  destruct a as [a|]; simpl.
  - rewrite String.eqb_eq. split; intros H; congruence.
  - split; intros H; discriminate.
Qed.

(** ** AgentService: lookups after an update *)
Section AgentServiceFacts.
Variables (st : State) (h : Host).

Lemma updateAgent_frame id u :
  let st' := snd (AgentService.updateAgent st h id u) in
  groups st' = groups st /\ calls st' = calls st /\ sent st' = sent st.
Proof.
  unfold AgentService.updateAgent.
  destruct (JsMap.get id (agents st)); simpl; auto.
Qed.

Lemma updateAgent_same id u agent :
  AgentService.getAgent st id = Some agent ->
  AgentService.updateAgent st h id u
  = (Some (AgentService.merge agent u (now h)),
     with_agents st
       (JsMap.set id (AgentService.merge agent u (now h)) (agents st))).
Proof.
  unfold AgentService.getAgent, AgentService.updateAgent. now intros ->.
Qed.

Lemma updateAgent_other id u id' :
  id <> id' ->
  AgentService.getAgent (snd (AgentService.updateAgent st h id u)) id'
  = AgentService.getAgent st id'.
Proof.
  intros Hne. unfold AgentService.getAgent, AgentService.updateAgent.
  destruct (JsMap.get id (agents st)); simpl; auto using get_set_other.
Qed.

Lemma assignCallToAgent_success agentId callId agent :
  AgentService.getAgent st agentId = Some agent ->
  Agent.status agent = AVAILABLE ->
  AgentService.assignCallToAgent st h agentId callId
  = (true,
     with_agents st
       (JsMap.set agentId
          (AgentService.merge agent (AgentService.assignUpdate callId) (now h))
          (agents st))).
Proof.
  intros Hget Hst. unfold AgentService.assignCallToAgent.
  unfold AgentService.getAgent in Hget. rewrite Hget, Hst. simpl.
  unfold AgentService.updateAgent. now rewrite Hget.
Qed.

Lemma assignCallToAgent_failure agentId callId :
  fst (AgentService.assignCallToAgent st h agentId callId) = false ->
  snd (AgentService.assignCallToAgent st h agentId callId) = st.
Proof.
  unfold AgentService.assignCallToAgent.
  destruct (JsMap.get agentId (agents st)) as [agent|] eqn:Hget; auto.
  destruct (AgentStatus_eqb (Agent.status agent) AVAILABLE) eqn:E; simpl; auto.
  unfold AgentService.updateAgent. rewrite Hget. simpl. discriminate.
Qed.

Lemma releaseAgentFromCall_success agentId d agent :
  AgentService.getAgent st agentId = Some agent ->
  AgentService.releaseAgentFromCall st h agentId d
  = (true,
     with_agents st
       (JsMap.set agentId
          (AgentService.merge agent
             (AgentService.releaseUpdate
                (AgentService.newStatistics h (Agent.statistics agent) d))
             (now h))
          (agents st))).
Proof.
  intros Hget. unfold AgentService.releaseAgentFromCall.
  unfold AgentService.getAgent in Hget. rewrite Hget.
  unfold AgentService.updateAgent. now rewrite Hget.
Qed.

Lemma releaseAgentFromCall_unknown agentId d :
  AgentService.getAgent st agentId = None ->
  AgentService.releaseAgentFromCall st h agentId d = (false, st).
Proof.
  unfold AgentService.getAgent, AgentService.releaseAgentFromCall.
  now intros ->.
Qed.
End AgentServiceFacts.

(** C5. [assignCallToAgent] (the reservation gate) returns [true] exactly when
    the agent exists and is AVAILABLE; on success the agent is IN_CALL with
    [currentCallId] the call, in a single step that touches nothing else
    (its identity, memberships and statistics, the other agents, the groups,
    the calls and the notifications are as before); on failure it returns
    [false] and the state is unchanged. *)
Theorem assignCallToAgent_check_and_set
    (st : State) (h : Host) (agentId callId : string) :
  let r := AgentService.assignCallToAgent st h agentId callId in
  (fst r = true <->
     exists agent, AgentService.getAgent st agentId = Some agent
                   /\ Agent.status agent = AVAILABLE)
  /\ (fst r = true ->
      exists agent agent',
        AgentService.getAgent st agentId = Some agent
        /\ AgentService.getAgent (snd r) agentId = Some agent'
        /\ Agent.status agent' = IN_CALL
        /\ Agent.currentCallId agent' = Some callId
        /\ Agent.id agent' = Agent.id agent
        /\ Agent.groupIds agent' = Agent.groupIds agent
        /\ Agent.statistics agent' = Agent.statistics agent
        /\ (forall other, other <> agentId ->
              AgentService.getAgent (snd r) other = AgentService.getAgent st other)
        /\ groups (snd r) = groups st
        /\ calls (snd r) = calls st
        /\ sent (snd r) = sent st)
  /\ (fst r = false -> snd r = st).
Proof.
  intros r.
  assert (Hiff : fst r = true <->
     exists agent, AgentService.getAgent st agentId = Some agent
                   /\ Agent.status agent = AVAILABLE).
  { subst r. unfold AgentService.assignCallToAgent, AgentService.getAgent.
    destruct (JsMap.get agentId (agents st)) as [agent|] eqn:Hget.
    - destruct (AgentStatus_eqb (Agent.status agent) AVAILABLE) eqn:E; simpl.
      + apply AgentStatus_eqb_eq in E.
        unfold AgentService.updateAgent. rewrite Hget. simpl.
        split; eauto.
      + split; [discriminate|]. intros (a & Ha & Hs).
        injection Ha as <-. apply AgentStatus_eqb_eq in Hs. congruence.
    - simpl. split; [discriminate|]. intros (a & Ha & _). discriminate. }
  split; [exact Hiff|]. split.
  - intros Hok. apply Hiff in Hok. destruct Hok as (agent & Hget & Hst).
    subst r. rewrite (assignCallToAgent_success st h _ callId _ Hget Hst). simpl.
    exists agent. eexists. split; [exact Hget|].
    unfold AgentService.getAgent. simpl. rewrite get_set_same.
    split; [reflexivity|]. simpl. repeat split; auto.
    intros other Hne. apply get_set_other. congruence.
  - apply assignCallToAgent_failure.
Qed.

(** The AVAILABLE agent X is reserved for c1; a second reservation of X is
    refused and changes nothing. *)
Lemma assignCallToAgent_check_and_set_witness :
  let st := run Scenario.staffed in
  let r := AgentService.assignCallToAgent st (Scenario.h 3000) "X" "c1" in
  let again := AgentService.assignCallToAgent (snd r) (Scenario.h 3100) "X" "c2" in
  fst r = true
  /\ (exists agent agent',
        AgentService.getAgent st "X" = Some agent
        /\ AgentService.getAgent (snd r) "X" = Some agent'
        /\ Agent.status agent' = IN_CALL
        /\ Agent.currentCallId agent' = Some "c1"
        /\ Agent.id agent' = Agent.id agent
        /\ Agent.groupIds agent' = Agent.groupIds agent
        /\ Agent.statistics agent' = Agent.statistics agent
        /\ (forall other, other <> "X" ->
              AgentService.getAgent (snd r) other = AgentService.getAgent st other)
        /\ groups (snd r) = groups st
        /\ calls (snd r) = calls st
        /\ sent (snd r) = sent st)
  /\ fst again = false
  /\ snd again = snd r.
Proof.
  intros st r again.
  destruct (assignCallToAgent_check_and_set st (Scenario.h 3000) "X" "c1")
    as (_ & Hok & _).
  destruct (assignCallToAgent_check_and_set (snd r) (Scenario.h 3100) "X" "c2")
    as (_ & _ & Hfail).
  split; [evaluate|]. split; [apply Hok; evaluate|].
  split; [evaluate|]. apply Hfail. evaluate.
Defined.

(** C4, as the code has it. For every existing agent, whatever its status
    (so also when it is not IN_CALL), [releaseAgentFromCall] reports success
    and is not a no-op: the agent becomes AVAILABLE, its [currentCallId] is
    cleared, one more call is counted and the duration is added to the total. *)
Theorem releaseAgentFromCall_always_releases
    (st : State) (h : Host) (agentId : string) (callDuration : Q)
    (agent : Agent.t) :
  AgentService.getAgent st agentId = Some agent ->
  let r := AgentService.releaseAgentFromCall st h agentId callDuration in
  fst r = true
  /\ exists agent',
       AgentService.getAgent (snd r) agentId = Some agent'
       /\ Agent.status agent' = AVAILABLE
       /\ Agent.currentCallId agent' = None
       /\ AgentStatistics.totalCalls (Agent.statistics agent')
          = AgentStatistics.totalCalls (Agent.statistics agent) + 1
       /\ AgentStatistics.totalCallDuration (Agent.statistics agent')
          = Qplus (AgentStatistics.totalCallDuration (Agent.statistics agent))
                  callDuration.
Proof.
  intros Hget r. subst r.
  rewrite (releaseAgentFromCall_success st h _ callDuration _ Hget). simpl.
  split; [reflexivity|]. eexists.
  unfold AgentService.getAgent. simpl. rewrite get_set_same.
  split; [reflexivity|]. simpl. auto.
Qed.

(** An OFFLINE agent that never took a call is released all the same. *)
Lemma releaseAgentFromCall_always_releases_witness :
  let st := run [CreateAgent (Scenario.h 1000) "X" (Scenario.agent "x" [])] in
  exists agent,
    AgentService.getAgent st "X" = Some agent
    /\ Agent.status agent = OFFLINE
    /\ let r := AgentService.releaseAgentFromCall st (Scenario.h 5000) "X" 5%Q in
       fst r = true
       /\ exists agent',
            AgentService.getAgent (snd r) "X" = Some agent'
            /\ Agent.status agent' = AVAILABLE
            /\ Agent.currentCallId agent' = None
            /\ AgentStatistics.totalCalls (Agent.statistics agent')
               = AgentStatistics.totalCalls (Agent.statistics agent) + 1
            /\ AgentStatistics.totalCallDuration (Agent.statistics agent')
               = Qplus (AgentStatistics.totalCallDuration (Agent.statistics agent))
                       5%Q.
Proof.
  intros st. eexists. split; [evaluate|]. split; [evaluate|].
  apply (releaseAgentFromCall_always_releases st (Scenario.h 5000) "X" 5%Q).
  evaluate.
Defined.

(** C4 as stated fails: releasing an OFFLINE agent makes it AVAILABLE and
    counts a call. *)
Lemma releaseAgentFromCall_not_noop :
  let st := run [CreateAgent (Scenario.h 1000) "X" (Scenario.agent "x" [])] in
  (exists agent, AgentService.getAgent st "X" = Some agent
                 /\ Agent.status agent <> IN_CALL)
  /\ ~ releaseIsNoop st (Scenario.h 5000) "X" 5%Q.
Proof.
  intros st. split.
  - eexists. split; [evaluate|]. simpl. discriminate.
  - intros (_ & agent & agent' & Ha & Ha' & Hs & _).
    vm_compute in Ha. vm_compute in Ha'.
    injection Ha as <-. injection Ha' as <-. discriminate Hs.
Qed.

(** ** Notifications and group statistics leave the other stores alone *)
Lemma fold_send_frame events st :
  let st' := fold_left send events st in
  agents st' = agents st /\ groups st' = groups st /\ calls st' = calls st.
Proof.
  revert st. induction events as [|e events IH]; simpl; auto.
  intros st. destruct (IH (send st e)) as (Ha & Hg & Hc). simpl in *. auto.
Qed.

Lemma updateGroupStatistics_frame st groupId :
  let st' := GroupService.updateGroupStatistics st groupId in
  agents st' = agents st /\ calls st' = calls st /\ sent st' = sent st.
Proof.
  unfold GroupService.updateGroupStatistics.
  destruct (JsMap.get groupId (groups st)); simpl; auto.
Qed.

Lemma updateGroupStatistics_agents st groupId :
  agents (GroupService.updateGroupStatistics st groupId) = agents st.
Proof. apply updateGroupStatistics_frame. Qed.

Lemma updateGroupStatistics_calls st groupId :
  calls (GroupService.updateGroupStatistics st groupId) = calls st.
Proof. apply updateGroupStatistics_frame. Qed.

Lemma find_no_match {A} (f : A -> bool) (l : list A) :
  (forall x, In x l -> f x = false) -> find f l = None.
Proof.
  induction l as [|x l IH]; simpl; auto.
  intros H. rewrite (H x) by auto. auto.
Qed.

(** C7. When no group has the destination number as its phone number,
    [handleIncomingCall] returns none and creates no Call: the call store,
    and the whole state, is unchanged. *)
Theorem handleIncomingCall_unmapped_number
    (st : State) (h : Host) (uuid phoneNumber callerNumber : string)
    (acsEventData : option ACSService.EventData.t) :
  (forall group, In group (GroupService.getAllGroups st) ->
                 Group.phoneNumber group <> phoneNumber) ->
  GroupService.getGroupByPhoneNumber st phoneNumber = None
  /\ CallService.handleIncomingCall st h uuid phoneNumber callerNumber acsEventData
     = (None, st).
Proof.
  intros Hno.
  assert (Hfind : GroupService.getGroupByPhoneNumber st phoneNumber = None).
  { apply find_no_match. intros g Hg. apply String.eqb_neq. auto. }
  split; [exact Hfind|].
  unfold CallService.handleIncomingCall. now rewrite Hfind.
Qed.

(** A call to a number of no group, while another group is staffed. *)
Lemma handleIncomingCall_unmapped_number_witness :
  let st := run Scenario.staffed in
  CallService.handleIncomingCall st (Scenario.h 3000) "c1" "+15550999"
    "+15550199" (Some Scenario.incomingContext) = (None, st)
  /\ calls (snd (CallService.handleIncomingCall st (Scenario.h 3000) "c1"
                   "+15550999" "+15550199" (Some Scenario.incomingContext)))
     = calls st.
Proof.
  intros st.
  assert (H : CallService.handleIncomingCall st (Scenario.h 3000) "c1"
                "+15550999" "+15550199" (Some Scenario.incomingContext)
              = (None, st)).
  { apply (handleIncomingCall_unmapped_number st (Scenario.h 3000) "c1"
             "+15550999" "+15550199" (Some Scenario.incomingContext)).
    intros group [<-|[]]. simpl. discriminate. }
  split; [exact H | now rewrite H].
Defined.

Lemma set_get_same {V} (m : JsMap.t V) k v :
  JsMap.get k m = Some v -> JsMap.set k v m = m.
Proof.
  induction m as [|[k' v'] m IH]; simpl; [discriminate|].
  destruct (String.eqb k k') eqn:E.
  - apply String.eqb_eq in E. intros H. injection H as ->. now subst.
  - intros H. now rewrite IH.
Qed.

(** A failed gateway answer has neither touched the call object nor sent
    anything. *)
Lemma ACSService_answerCall_failure acs h callId call agentUserId agentId :
  fst (fst (ACSService.answerCall acs h callId call agentUserId agentId)) = false ->
  ACSService.answerCall acs h callId call agentUserId agentId = (false, call, []).
Proof.
  unfold ACSService.answerCall.
  destruct (negb (ACSService.callAutomationClient acs)); [discriminate|].
  destruct (negb (truthy (Call.acsIncomingCallContext call))); [reflexivity|].
  match goal with |- context [if ?b then _ else _] => destruct b end;
    [discriminate|].
  destruct (ACSService.sdkAnswerCall acs) as [|[method1|] method2];
    [reflexivity| |discriminate].
  destruct (orElse method1 method2) as [connectionId|]; [|discriminate].
  destruct (truthy (Some connectionId)); [|discriminate].
  destruct agentUserId as [agentUserId'|]; [|discriminate].
  destruct (truthy (Some agentUserId')); [|discriminate].
  destruct (ACSService.transferCallToAgent acs h connectionId agentUserId' agentId).
  discriminate.
Qed.

(** C8. [answerCall] returns [true] exactly when the call exists, is assigned
    to that agent, is RINGING and the telephony gateway reports success; then
    the call is CONNECTED. Whenever it returns [false] (so also when the
    gateway fails on a RINGING call of that agent) the state is unchanged:
    the call stays RINGING and nothing else is done. *)
Theorem answerCall_needs_ringing_and_gateway
    (st : State) (h : Host) (acs : ACSService.t) (callId agentId : string) :
  let r := CallService.answerCall st h acs callId agentId in
  let gateway call :=
    fst (fst (ACSService.answerCall acs h callId call
                (CallService.agentACSUserId st agentId) (Some agentId))) in
  (fst r = true <->
     exists call,
       CallService.getCall st callId = Some call
       /\ Call.assignedAgentId call = Some agentId
       /\ Call.status call = RINGING
       /\ gateway call = true)
  /\ (fst r = true ->
      exists call', CallService.getCall (snd r) callId = Some call'
                    /\ Call.status call' = CONNECTED)
  /\ (fst r = false -> snd r = st)
  /\ (forall call,
        CallService.getCall st callId = Some call ->
        Call.assignedAgentId call = Some agentId ->
        Call.status call = RINGING ->
        gateway call = false ->
        fst r = false
        /\ exists call', CallService.getCall (snd r) callId = Some call'
                         /\ call' = call /\ Call.status call' = RINGING).
Proof.
  intros r gateway.
  assert (Hcases :
    (r = (false, st)
     /\ forall call, CallService.getCall st callId = Some call ->
                     Call.assignedAgentId call = Some agentId ->
                     Call.status call = RINGING -> gateway call = false)
    \/ (fst r = true
        /\ (exists call, CallService.getCall st callId = Some call
                         /\ Call.assignedAgentId call = Some agentId
                         /\ Call.status call = RINGING
                         /\ gateway call = true)
        /\ exists call', CallService.getCall (snd r) callId = Some call'
                         /\ Call.status call' = CONNECTED)).
  { subst r gateway.
    unfold CallService.answerCall, CallService.getCall.
    destruct (JsMap.get callId (calls st)) as [call|] eqn:Hget.
    2:{ left. split; [reflexivity|]. discriminate. }
    destruct (optEq (Call.assignedAgentId call) agentId) eqn:Ha; simpl.
    2:{ left. split; [reflexivity|]. intros c Hc Hc1. injection Hc as <-.
        apply optEq_eq in Hc1. congruence. }
    destruct (CallStatus_eqb (Call.status call) RINGING) eqn:Hs; simpl.
    2:{ left. split; [reflexivity|]. intros c Hc _ Hc2. injection Hc as <-.
        apply CallStatus_eqb_eq in Hc2. congruence. }
    apply optEq_eq in Ha. apply CallStatus_eqb_eq in Hs.
    destruct (ACSService.answerCall acs h callId call
                (CallService.agentACSUserId st agentId) (Some agentId))
      as [[ok call1] events] eqn:Hgw.
    destruct ok; simpl.
    2:{ left. pose proof (ACSService_answerCall_failure acs h callId call
                            (CallService.agentACSUserId st agentId) (Some agentId))
          as Hfail.
        rewrite Hgw in Hfail. specialize (Hfail eq_refl).
        injection Hfail as -> ->. simpl.
        unfold CallService.storeAt. rewrite (set_get_same _ _ _ Hget).
        split; [now destruct st|].
        intros c Hc _ _. injection Hc as <-. now rewrite Hgw. }
    - right. split; [reflexivity|]. split.
      + exists call. rewrite Hgw. auto.
      + exists (Call.with_status call1 CONNECTED). split; [|reflexivity].
        match goal with
        | |- context [match ?a with Some _ => _ | None => _ end] => destruct a
        end; simpl;
        destruct (updateGroupStatistics_frame
                    (CallService.storeAt
                       (fold_left send events (CallService.storeAt st callId call1))
                       callId (Call.with_status call1 CONNECTED))
                    (Call.groupId call1)) as (_ & Hc & _);
        simpl in Hc; rewrite Hc; apply get_set_same. }
  destruct Hcases as [(Hr & Hfail) | (Hok & Hpre & Hpost)].
  - rewrite Hr. simpl. split.
    { split; [discriminate|]. intros (c & Hc & Hc1 & Hc2 & Hg).
      rewrite (Hfail c Hc Hc1 Hc2) in Hg. discriminate. }
    split; [discriminate|]. split; [reflexivity|].
    intros c Hc _ Hc2 _. split; [reflexivity|]. exists c. auto.
  - split; [split; auto|]. split; [auto|]. split; [congruence|].
    intros c Hc _ _ Hg. destruct Hpre as (c' & Hc' & _ & _ & Hg').
    congruence.
Qed.

(** The gateway refuses to answer a ringing call: nothing changes. With the
    mock gateway the same call is answered. *)
Lemma answerCall_needs_ringing_and_gateway_witness :
  let st := run Scenario.ringing in
  let failed := CallService.answerCall st (Scenario.h 4000) Scenario.failingAcs "c1" "X" in
  let answered := CallService.answerCall st (Scenario.h 4000) Scenario.mockAcs "c1" "X" in
  (fst failed = false /\ snd failed = st)
  /\ (fst answered = true
      /\ exists call', CallService.getCall (snd answered) "c1" = Some call'
                       /\ Call.status call' = CONNECTED).
Proof.
  intros st failed answered. split.
  - assert (Hf : fst failed = false) by evaluate.
    split; [exact Hf|].
    apply (answerCall_needs_ringing_and_gateway st (Scenario.h 4000)
             Scenario.failingAcs "c1" "X"). exact Hf.
  - assert (Ha : fst answered = true) by evaluate.
    split; [exact Ha|].
    apply (answerCall_needs_ringing_and_gateway st (Scenario.h 4000)
             Scenario.mockAcs "c1" "X"). exact Ha.
Defined.

(** ** transferCall *)

(** Once its two guards pass, [transferCall] succeeds whatever the status of
    the call: the target is reserved, the call is TRANSFERRED and bound to
    the target, and both agents are notified, in that order. *)
Lemma transferCall_reserves_target
    (st : State) (h : Host) (callId fromAgentId toAgentId : string)
    (call : Call.t) (toAgent : Agent.t) :
  CallService.getCall st callId = Some call ->
  Call.assignedAgentId call = Some fromAgentId ->
  AgentService.getAgent st toAgentId = Some toAgent ->
  Agent.status toAgent = AVAILABLE ->
  let r := CallService.transferCall st h callId fromAgentId toAgentId in
  let call' :=
    Call.with_status (Call.with_assignedAgentId call (Some toAgentId)) TRANSFERRED in
  fst r = true
  /\ CallService.getCall (snd r) callId = Some call'
  /\ (exists toAgent',
        AgentService.getAgent (snd r) toAgentId = Some toAgent'
        /\ Agent.status toAgent' = IN_CALL
        /\ Agent.currentCallId toAgent' = Some callId)
  /\ sent (snd r)
     = (sent st
        ++ [ notifyAgent fromAgentId "call_transferred_out" (CallData call');
             notifyAgent toAgentId "call_transferred_in" (CallData call') ])%list.
Proof.
  intros Hcall Hfrom Hto Havail r call'. subst r.
  unfold CallService.transferCall. unfold CallService.getCall in Hcall.
  rewrite Hcall, Hto.
  apply optEq_eq in Hfrom. rewrite Hfrom.
  rewrite (proj2 (AgentStatus_eqb_eq _ _) Havail). simpl.
  set (st1 := match Call.duration call with
              | Some duration =>
                  if negb (duration =? 0)
                  then snd (AgentService.releaseAgentFromCall st h fromAgentId
                              (duration # 1000))
                  else st
              | None => st
              end).
  assert (H1 : (exists toAgent1,
                  AgentService.getAgent st1 toAgentId = Some toAgent1
                  /\ Agent.status toAgent1 = AVAILABLE)
               /\ calls st1 = calls st /\ sent st1 = sent st).
  { assert (Hst : (exists toAgent1,
                     AgentService.getAgent st toAgentId = Some toAgent1
                     /\ Agent.status toAgent1 = AVAILABLE)
                  /\ calls st = calls st /\ sent st = sent st) by eauto.
    subst st1. destruct (Call.duration call) as [d|]; [|exact Hst].
    destruct (negb (d =? 0)); [|exact Hst].
    destruct (AgentService.getAgent st fromAgentId) as [fromAgent|] eqn:Hf.
    - rewrite (releaseAgentFromCall_success st h _ _ _ Hf). simpl.
      split; [|auto]. unfold AgentService.getAgent. simpl.
      destruct (String.eqb fromAgentId toAgentId) eqn:E.
      + apply String.eqb_eq in E. subst toAgentId.
        rewrite get_set_same. eauto.
      + apply String.eqb_neq in E. rewrite get_set_other by exact E. eauto.
    - rewrite (releaseAgentFromCall_unknown st h _ _ Hf). exact Hst. }
  destruct H1 as ((toAgent1 & Hto1 & Hav1) & Hc1 & Hs1).
  rewrite (assignCallToAgent_success st1 h _ callId _ Hto1 Hav1). simpl.
  unfold CallService.getCall, AgentService.getAgent. simpl.
  rewrite !get_set_same, Hs1, <- app_assoc. simpl.
  repeat split; eauto.
Qed.

(** While the call carries no duration (no [endCall] has stamped one), the
    release of the origin agent is skipped: a distinct origin agent is left
    exactly as it was. *)
Lemma transferCall_live_call_keeps_origin
    (st : State) (h : Host) (callId fromAgentId toAgentId : string)
    (call : Call.t) :
  CallService.getCall st callId = Some call ->
  Call.duration call = None ->
  fromAgentId <> toAgentId ->
  AgentService.getAgent
    (snd (CallService.transferCall st h callId fromAgentId toAgentId)) fromAgentId
  = AgentService.getAgent st fromAgentId.
Proof.
  intros Hcall Hd Hne. unfold CallService.transferCall.
  unfold CallService.getCall in Hcall. rewrite Hcall, Hd.
  destruct (AgentService.getAgent st toAgentId) as [toAgent|] eqn:Hto; auto.
  destruct (negb (optEq (Call.assignedAgentId call) fromAgentId)
            || negb (AgentStatus_eqb (Agent.status toAgent) AVAILABLE)); auto.
  destruct (AgentService.assignCallToAgent st h toAgentId callId)
    as [ok st2] eqn:Has.
  assert (Hkeep : AgentService.getAgent st2 fromAgentId
                  = AgentService.getAgent st fromAgentId).
  { unfold AgentService.assignCallToAgent in Has.
    unfold AgentService.getAgent in Hto. rewrite Hto in Has.
    destruct (negb (AgentStatus_eqb (Agent.status toAgent) AVAILABLE)).
    - now injection Has as _ <-.
    - pose proof (updateAgent_other st h toAgentId
        (AgentService.assignUpdate callId) fromAgentId) as Hother.
      destruct (AgentService.updateAgent st h toAgentId _) as [o st'].
      injection Has as _ <-. apply Hother. congruence. }
  destruct ok; simpl; exact Hkeep.
Qed.

(** C3, at a live call. The call c1 rings at X and Y is AVAILABLE; the
    transfer from X to Y succeeds, reserves Y, marks the call TRANSFERRED and
    notifies both agents, but X is not released: it stays IN_CALL, bound to
    c1, and no call is counted in its statistics. *)
Theorem transferCall_live_call_origin_not_released :
  let st := run Scenario.ringing in
  let r := CallService.transferCall st (Scenario.h 5000) "c1" "X" "Y" in
  (exists call, CallService.getCall st "c1" = Some call
                /\ Call.assignedAgentId call = Some "X"
                /\ Call.status call = RINGING)
  /\ (exists toAgent, AgentService.getAgent st "Y" = Some toAgent
                      /\ Agent.status toAgent = AVAILABLE)
  /\ fst r = true
  /\ (exists call', CallService.getCall (snd r) "c1" = Some call'
                    /\ Call.status call' = TRANSFERRED
                    /\ Call.assignedAgentId call' = Some "Y")
  /\ (exists toAgent', AgentService.getAgent (snd r) "Y" = Some toAgent'
                       /\ Agent.status toAgent' = IN_CALL
                       /\ Agent.currentCallId toAgent' = Some "c1")
  /\ (exists fromAgent,
        AgentService.getAgent (snd r) "X" = Some fromAgent
        /\ AgentService.getAgent st "X" = Some fromAgent
        /\ Agent.status fromAgent = IN_CALL
        /\ Agent.currentCallId fromAgent = Some "c1"
        /\ AgentStatistics.totalCalls (Agent.statistics fromAgent) = 0).
Proof.
  intros st r.
  evaluate_all.
Qed.

(** C10. A call that is ENDED and still names [fromAgentId] as its agent can
    be transferred to any AVAILABLE agent: [transferCall] returns [true], the
    ended call becomes TRANSFERRED and assigned to the target, and the target
    becomes IN_CALL with [currentCallId] the finished call. *)
Theorem transferCall_accepts_ended_call
    (st : State) (h : Host) (callId fromAgentId toAgentId : string)
    (call : Call.t) (toAgent : Agent.t) :
  CallService.getCall st callId = Some call ->
  Call.status call = ENDED ->
  Call.assignedAgentId call = Some fromAgentId ->
  AgentService.getAgent st toAgentId = Some toAgent ->
  Agent.status toAgent = AVAILABLE ->
  let r := CallService.transferCall st h callId fromAgentId toAgentId in
  fst r = true
  /\ (exists call',
        CallService.getCall (snd r) callId = Some call'
        /\ Call.status call' = TRANSFERRED
        /\ Call.assignedAgentId call' = Some toAgentId
        /\ Call.endTime call' = Call.endTime call
        /\ Call.duration call' = Call.duration call)
  /\ (exists toAgent',
        AgentService.getAgent (snd r) toAgentId = Some toAgent'
        /\ Agent.status toAgent' = IN_CALL
        /\ Agent.currentCallId toAgent' = Some callId).
Proof.
  intros Hcall _ Hfrom Hto Hav r.
  destruct (transferCall_reserves_target st h callId fromAgentId toAgentId
              call toAgent Hcall Hfrom Hto Hav) as (Hok & Hc & Ht & _).
  fold r in Hok, Hc, Ht.
  split; [exact Hok|]. split; [|exact Ht].
  eexists. split; [exact Hc|]. simpl. auto.
Qed.

(** The ended call c1 of X is transferred to Y. *)
Lemma transferCall_accepts_ended_call_witness :
  let st := run Scenario.ended in
  let r := CallService.transferCall st (Scenario.h 12000) "c1" "X" "Y" in
  exists call toAgent,
    (CallService.getCall st "c1" = Some call
     /\ Call.status call = ENDED
     /\ Call.assignedAgentId call = Some "X"
     /\ AgentService.getAgent st "Y" = Some toAgent
     /\ Agent.status toAgent = AVAILABLE)
    /\ fst r = true
    /\ (exists call',
          CallService.getCall (snd r) "c1" = Some call'
          /\ Call.status call' = TRANSFERRED
          /\ Call.assignedAgentId call' = Some "Y"
          /\ Call.endTime call' = Call.endTime call
          /\ Call.duration call' = Call.duration call)
    /\ (exists toAgent',
          AgentService.getAgent (snd r) "Y" = Some toAgent'
          /\ Agent.status toAgent' = IN_CALL
          /\ Agent.currentCallId toAgent' = Some "c1").
Proof.
  intros st r. eexists. eexists.
  split; [evaluate_all|].
  eapply (transferCall_accepts_ended_call st (Scenario.h 12000) "c1" "X" "Y");
    evaluate.
Defined.

(** ** endCall *)

(** [endCall] never looks at the status of the call: whenever the call
    exists, the caller is its agent (or names none), the gateway hangs up and
    the clock has moved since the call started, the assigned agent is
    released and one more call is counted for it. *)
Lemma endCall_releases_whatever_status
    (st : State) (h : Host) (acs : ACSService.t) (callId assigned : string)
    (call : Call.t) (agent : Agent.t) :
  CallService.getCall st callId = Some call ->
  Call.assignedAgentId call = Some assigned ->
  assigned <> "" ->
  ACSService.endCall acs callId call = true ->
  now h <> Call.startTime call ->
  AgentService.getAgent st assigned = Some agent ->
  let r := CallService.endCall st h acs callId (Some assigned) in
  fst r = true
  /\ exists agent',
       AgentService.getAgent (snd r) assigned = Some agent'
       /\ Agent.status agent' = AVAILABLE
       /\ Agent.currentCallId agent' = None
       /\ AgentStatistics.totalCalls (Agent.statistics agent')
          = AgentStatistics.totalCalls (Agent.statistics agent) + 1.
Proof.
  intros Hcall Hassigned Hne Hgw Hclock Hagent r. subst r.
  unfold CallService.endCall. unfold CallService.getCall in Hcall.
  rewrite Hcall, Hassigned, Hgw.
  assert (Ht : truthy (Some assigned) = true).
  { simpl. now rewrite (proj2 (String.eqb_neq _ _) Hne). }
  rewrite Ht. simpl optEq. rewrite String.eqb_refl. simpl negb. simpl andb.
  cbv iota.
  assert (Hd : (now h - Call.startTime call =? 0) = false)
    by (apply Z.eqb_neq; lia).
  rewrite Hd. simpl negb. cbv iota.
  rewrite (releaseAgentFromCall_success st h _ _ _ Hagent).
  cbv beta iota zeta.
  match goal with
  | |- context [match ?a with Some _ => _ | None => _ end] => destruct a
  end; simpl; (split; [reflexivity|]);
  unfold AgentService.getAgent; simpl;
  rewrite updateGroupStatistics_agents; simpl; rewrite get_set_same;
  eexists; (split; [reflexivity|]); simpl; auto.
Qed.

(** C2, at a call ended twice. X answers the call c1 and ends it after six
    seconds: one call is counted for X. The same [endCall] sent again a
    second later is accepted, and a second call is counted for X. *)
Theorem endCall_twice_counts_twice :
  let st := run (Scenario.ringing
                 ++ [AnswerCall (Scenario.h 4000) Scenario.mockAcs "c1" "X"]) in
  let first :=
    CallService.endCall st (Scenario.h 9000) Scenario.mockAcs "c1" (Some "X") in
  let second :=
    CallService.endCall (snd first) (Scenario.h 10000) Scenario.mockAcs "c1"
      (Some "X") in
  fst first = true
  /\ (exists call agent,
        CallService.getCall (snd first) "c1" = Some call
        /\ Call.status call = ENDED
        /\ AgentService.getAgent (snd first) "X" = Some agent
        /\ Agent.status agent = AVAILABLE
        /\ AgentStatistics.totalCalls (Agent.statistics agent) = 1)
  /\ fst second = true
  /\ snd second <> snd first
  /\ (exists agent',
        AgentService.getAgent (snd second) "X" = Some agent'
        /\ AgentStatistics.totalCalls (Agent.statistics agent') = 2
        /\ AgentStatistics.callsToday (Agent.statistics agent') = 2).
Proof.
  intros st first second.
  split; [evaluate|].
  split; [evaluate_all|].
  split; [evaluate|].
  split.
  - intros Heq. apply (f_equal agents) in Heq. vm_compute in Heq. discriminate.
  - evaluate_all.
Qed.

(** The second release can hit an agent that has moved on: after the first
    [endCall] a new call c2 rings at X; the repeated [endCall] of c1 makes X
    AVAILABLE and clears its [currentCallId] while c2 is still RINGING at X. *)
Lemma endCall_twice_releases_from_next_call :
  let st := run (Scenario.ended
                 ++ [HandleIncomingCall (Scenario.h 9500) "c2" "+15550100"
                       "+15550188" None]) in
  let second :=
    CallService.endCall st (Scenario.h 10000) Scenario.mockAcs "c1" (Some "X") in
  (exists agent call2,
     AgentService.getAgent st "X" = Some agent
     /\ Agent.status agent = IN_CALL
     /\ Agent.currentCallId agent = Some "c2"
     /\ CallService.getCall st "c2" = Some call2
     /\ Call.status call2 = RINGING
     /\ Call.assignedAgentId call2 = Some "X")
  /\ fst second = true
  /\ (exists agent' call2,
        AgentService.getAgent (snd second) "X" = Some agent'
        /\ Agent.status agent' = AVAILABLE
        /\ Agent.currentCallId agent' = None
        /\ AgentStatistics.totalCalls (Agent.statistics agent') = 2
        /\ CallService.getCall (snd second) "c2" = Some call2
        /\ Call.status call2 = RINGING
        /\ Call.assignedAgentId call2 = Some "X").
Proof.
  intros st second.
  evaluate_all.
Qed.

(** ** addAgentToGroup *)
Lemma arrayIncludes_In arr x : arrayIncludes arr x = true <-> In x arr.
Proof.
  unfold arrayIncludes. rewrite existsb_exists. split.
  - intros (y & Hy & E). apply String.eqb_eq in E. now subst.
  - intros H. exists x. split; [exact H | apply String.eqb_refl].
Qed.

Lemma arrayIncludes_push arr x : arrayIncludes (arr ++ [x]) x = true.
Proof. apply arrayIncludes_In, in_or_app. right. now left. Qed.

Lemma NoDup_push (arr : list string) x :
  arrayIncludes arr x = false -> NoDup arr -> NoDup (arr ++ [x]).
Proof.
  intros Hx Hnd. induction Hnd as [|y l Hy Hnd IH]; simpl.
  - constructor; [intros []|constructor].
  - simpl in Hx. apply orb_false_elim in Hx. destruct Hx as [Hxy Hx].
    constructor; [|auto].
    intros Hin. apply in_app_or in Hin. destruct Hin as [Hin|[->|[]]]; auto.
    now rewrite String.eqb_refl in Hxy.
Qed.

Lemma set_set_same {V} (m : JsMap.t V) k v v' :
  JsMap.set k v (JsMap.set k v' m) = JsMap.set k v m.
Proof.
  induction m as [|[k0 v0] m IH]; simpl.
  - now rewrite String.eqb_refl.
  - destruct (String.eqb k k0) eqn:E; simpl.
    + now rewrite String.eqb_refl.
    + now rewrite E, IH.
Qed.

Lemma getAgentsByGroup_agents st st' groupId :
  agents st' = agents st ->
  AgentService.getAgentsByGroup st' groupId = AgentService.getAgentsByGroup st groupId.
Proof. unfold AgentService.getAgentsByGroup. now intros ->. Qed.

Lemma updateGroupStatistics_idempotent st groupId :
  GroupService.updateGroupStatistics
    (GroupService.updateGroupStatistics st groupId) groupId
  = GroupService.updateGroupStatistics st groupId.
Proof.
  unfold GroupService.updateGroupStatistics at 2 3.
  destruct (JsMap.get groupId (groups st)) as [group|] eqn:Hg.
  - unfold GroupService.updateGroupStatistics. simpl.
    rewrite get_set_same. simpl.
    unfold AgentService.getAgentsByGroup, with_groups. simpl.
    rewrite set_set_same. reflexivity.
  - unfold GroupService.updateGroupStatistics. now rewrite Hg.
Qed.

(** When both sides of the membership are already recorded, the call only
    recomputes the statistics of the group. *)
Lemma addAgentToGroup_member st h groupId agentId group agent :
  GroupService.getGroup st groupId = Some group ->
  AgentService.getAgent st agentId = Some agent ->
  arrayIncludes (Group.agentIds group) agentId = true ->
  arrayIncludes (Agent.groupIds agent) groupId = true ->
  GroupService.addAgentToGroup st h groupId agentId
  = (true, GroupService.updateGroupStatistics st groupId).
Proof.
  intros Hg Ha Hi1 Hi2. unfold GroupService.addAgentToGroup.
  unfold GroupService.getGroup in Hg. now rewrite Hg, Ha, Hi1, Hi2.
Qed.

(** What the first call leaves behind. *)
Lemma addAgentToGroup_adds st h groupId agentId group agent :
  GroupService.getGroup st groupId = Some group ->
  AgentService.getAgent st agentId = Some agent ->
  let r := GroupService.addAgentToGroup st h groupId agentId in
  fst r = true
  /\ GroupService.updateGroupStatistics (snd r) groupId = snd r
  /\ exists group' agent',
       GroupService.getGroup (snd r) groupId = Some group'
       /\ AgentService.getAgent (snd r) agentId = Some agent'
       /\ Group.agentIds group'
          = (if arrayIncludes (Group.agentIds group) agentId
             then Group.agentIds group
             else (Group.agentIds group ++ [agentId])%list)
       /\ Agent.groupIds agent'
          = (if arrayIncludes (Agent.groupIds agent) groupId
             then Agent.groupIds agent
             else (Agent.groupIds agent ++ [groupId])%list).
Proof.
  intros Hg Ha r. subst r. unfold GroupService.addAgentToGroup.
  unfold GroupService.getGroup in *. rewrite Hg, Ha. simpl fst. simpl snd.
  split; [reflexivity|]. split; [apply updateGroupStatistics_idempotent|].
  set (st1 := if negb (arrayIncludes (Group.agentIds group) agentId)
              then _ else st).
  set (ids1 := if arrayIncludes (Group.agentIds group) agentId
               then Group.agentIds group
               else (Group.agentIds group ++ [agentId])%list).
  assert (H1 : agents st1 = agents st
               /\ exists group1, JsMap.get groupId (groups st1) = Some group1
                                 /\ Group.agentIds group1 = ids1).
  { subst st1 ids1.
    destruct (arrayIncludes (Group.agentIds group) agentId); simpl.
    - split; eauto.
    - split; [reflexivity|]. rewrite get_set_same. eauto. }
  destruct H1 as (Hag1 & group1 & Hg1 & Hids1).
  assert (Ha1 : AgentService.getAgent st1 agentId = Some agent).
  { unfold AgentService.getAgent in *. now rewrite Hag1. }
  set (st2 := if negb (arrayIncludes (Agent.groupIds agent) groupId)
              then _ else st1).
  set (ids2 := if arrayIncludes (Agent.groupIds agent) groupId
               then Agent.groupIds agent
               else (Agent.groupIds agent ++ [groupId])%list).
  assert (H2 : groups st2 = groups st1
               /\ exists agent2, AgentService.getAgent st2 agentId = Some agent2
                                 /\ Agent.groupIds agent2 = ids2).
  { subst st2 ids2.
    destruct (arrayIncludes (Agent.groupIds agent) groupId); simpl.
    - split; eauto.
    - rewrite (updateAgent_same st1 h _ _ _ Ha1). simpl.
      split; [reflexivity|]. unfold AgentService.getAgent. simpl.
      rewrite get_set_same. eauto. }
  destruct H2 as (Hgr2 & agent2 & Ha2 & Hids2).
  unfold GroupService.updateGroupStatistics. rewrite Hgr2, Hg1.
  eexists. exists agent2. simpl. rewrite get_set_same.
  split; [reflexivity|]. split; [exact Ha2|]. simpl. auto.
Qed.

(** C9. For an existing group and an existing agent, a second
    [addAgentToGroup] returns [true] and changes nothing: the state, and so
    [group.agentIds] and [agent.groupIds], is exactly as the first call left
    it. The agent is a member on both sides after the first call, and a list
    without duplicates before it has none after it. *)
Theorem addAgentToGroup_idempotent
    (st : State) (h h' : Host) (groupId agentId : string)
    (group : Group.t) (agent : Agent.t) :
  GroupService.getGroup st groupId = Some group ->
  AgentService.getAgent st agentId = Some agent ->
  let first := GroupService.addAgentToGroup st h groupId agentId in
  let second := GroupService.addAgentToGroup (snd first) h' groupId agentId in
  fst first = true
  /\ second = (true, snd first)
  /\ exists group' agent',
       GroupService.getGroup (snd first) groupId = Some group'
       /\ AgentService.getAgent (snd first) agentId = Some agent'
       /\ GroupService.getGroup (snd second) groupId = Some group'
       /\ AgentService.getAgent (snd second) agentId = Some agent'
       /\ In agentId (Group.agentIds group')
       /\ In groupId (Agent.groupIds agent')
       /\ (NoDup (Group.agentIds group) -> NoDup (Group.agentIds group'))
       /\ (NoDup (Agent.groupIds agent) -> NoDup (Agent.groupIds agent')).
Proof.
  intros Hg Ha first second.
  destruct (addAgentToGroup_adds st h groupId agentId group agent Hg Ha)
    as (Hok & Hstats & group' & agent' & Hg' & Ha' & Hids1 & Hids2).
  fold first in Hok, Hstats, Hg', Ha'.
  assert (Hin1 : arrayIncludes (Group.agentIds group') agentId = true).
  { rewrite Hids1.
    destruct (arrayIncludes (Group.agentIds group) agentId) eqn:E; auto.
    apply arrayIncludes_push. }
  assert (Hin2 : arrayIncludes (Agent.groupIds agent') groupId = true).
  { rewrite Hids2.
    destruct (arrayIncludes (Agent.groupIds agent) groupId) eqn:E; auto.
    apply arrayIncludes_push. }
  assert (Hsecond : second = (true, snd first)).
  { subst second.
    rewrite (addAgentToGroup_member (snd first) h' groupId agentId group' agent'
               Hg' Ha' Hin1 Hin2).
    now rewrite Hstats. }
  split; [exact Hok|]. split; [exact Hsecond|].
  exists group', agent'. rewrite Hsecond. simpl snd.
  repeat split; auto.
  - now apply arrayIncludes_In.
  - now apply arrayIncludes_In.
  - intros Hnd. rewrite Hids1.
    destruct (arrayIncludes (Group.agentIds group) agentId) eqn:E; auto.
    now apply NoDup_push.
  - intros Hnd. rewrite Hids2.
    destruct (arrayIncludes (Agent.groupIds agent) groupId) eqn:E; auto.
    now apply NoDup_push.
Qed.

(** The agent X of the staffed group G is added to it twice. *)
Lemma addAgentToGroup_idempotent_witness :
  let st := run Scenario.staffed in
  let first := GroupService.addAgentToGroup st (Scenario.h 3000) "G" "X" in
  let second :=
    GroupService.addAgentToGroup (snd first) (Scenario.h 4000) "G" "X" in
  exists group agent,
    (GroupService.getGroup st "G" = Some group
     /\ AgentService.getAgent st "X" = Some agent)
    /\ fst first = true
    /\ second = (true, snd first)
    /\ exists group' agent',
         GroupService.getGroup (snd first) "G" = Some group'
         /\ AgentService.getAgent (snd first) "X" = Some agent'
         /\ GroupService.getGroup (snd second) "G" = Some group'
         /\ AgentService.getAgent (snd second) "X" = Some agent'
         /\ In "X" (Group.agentIds group')
         /\ In "G" (Agent.groupIds agent')
         /\ (NoDup (Group.agentIds group) -> NoDup (Group.agentIds group'))
         /\ (NoDup (Agent.groupIds agent) -> NoDup (Agent.groupIds agent')).
Proof.
  intros st first second. eexists. eexists.
  split; [split; evaluate|].
  apply (addAgentToGroup_idempotent st (Scenario.h 3000) (Scenario.h 4000)
           "G" "X"); evaluate.
Defined.

(** ** Overflow *)
Lemma filter_length_pos {A} (f : A -> bool) (l : list A) :
  (0 <? List.length (filter f l))%nat = existsb f l.
Proof.
  induction l as [|x l IH]; simpl; auto.
  destruct (f x); simpl; auto.
Qed.

Lemma hasAvailableAgent_length st group :
  (0 <? List.length (AgentService.getAvailableAgentsByGroup st (Group.id group)))%nat
  = hasAvailableAgent st group.
Proof.
  unfold AgentService.getAvailableAgentsByGroup, AgentService.getAgentsByGroup,
    hasAvailableAgent.
  rewrite filter_length_pos.
  induction (JsMap.values (agents st)) as [|a l IH]; simpl; auto.
  destruct (arrayIncludes (Agent.groupIds a) (Group.id group)); simpl; auto.
  now rewrite IH.
Qed.

Lemma getAvailableGroups_overflowCandidates st groupId :
  GroupService.getAvailableGroups st groupId = overflowCandidates st groupId.
Proof.
  unfold GroupService.getAvailableGroups, overflowCandidates,
    GroupService.getGroup.
  destruct (JsMap.get groupId (groups st)) as [group|]; auto.
  destruct (Group.overflowEnabled group); simpl; auto.
  induction (Group.overflowGroupIds group) as [|id ids IH]; simpl; auto.
  unfold GroupService.getGroup.
  destruct (JsMap.get id (groups st)) as [g|]; simpl; auto.
  rewrite hasAvailableAgent_length, IH.
  destruct (hasAvailableAgent st g); auto.
Qed.

Lemma getAvailableGroups_same_stores st st' groupId :
  agents st' = agents st -> groups st' = groups st ->
  GroupService.getAvailableGroups st' groupId
  = GroupService.getAvailableGroups st groupId.
Proof.
  intros Ha Hg.
  unfold GroupService.getAvailableGroups,
    AgentService.getAvailableAgentsByGroup, AgentService.getAgentsByGroup.
  now rewrite Ha, Hg.
Qed.

Lemma getAvailableGroups_In st groupId group :
  In group (GroupService.getAvailableGroups st groupId) ->
  hasAvailableAgent st group = true.
Proof.
  rewrite getAvailableGroups_overflowCandidates. unfold overflowCandidates.
  destruct (GroupService.getGroup st groupId) as [g|]; [|intros []].
  destruct (Group.overflowEnabled g); [|intros []].
  intros H. now apply filter_In in H.
Qed.

(** With the agents keyed by their ids, a call sent to a group that has an
    available agent is taken by the first such agent in listing order. *)
Lemma CallService_assignCallToAgent_first st h call selected others :
  agentsKeyedById st ->
  AgentService.getAvailableAgentsByGroup st (Call.groupId call)
  = selected :: others ->
  exists st',
    CallService.assignCallToAgent st h call = (Some selected, st')
    /\ groups st' = groups st /\ calls st' = calls st /\ sent st' = sent st.
Proof.
  intros Hkeys Hav. unfold CallService.assignCallToAgent. rewrite Hav.
  assert (Hin : In selected
                  (AgentService.getAvailableAgentsByGroup st (Call.groupId call)))
    by (rewrite Hav; now left).
  unfold AgentService.getAvailableAgentsByGroup, AgentService.getAgentsByGroup in Hin.
  apply filter_In in Hin. destruct Hin as (Hin & Hst).
  apply filter_In in Hin. destruct Hin as (Hin & _).
  apply AgentStatus_eqb_eq in Hst.
  rewrite (assignCallToAgent_success st h _ (Call.id call) _ (Hkeys _ Hin) Hst).
  eexists. split; [reflexivity|]. simpl. auto.
Qed.

Lemma getAvailableAgentsByGroup_agents st st' groupId :
  agents st' = agents st ->
  AgentService.getAvailableAgentsByGroup st' groupId
  = AgentService.getAvailableAgentsByGroup st groupId.
Proof.
  unfold AgentService.getAvailableAgentsByGroup. intros H.
  now rewrite (getAgentsByGroup_agents st st' groupId H).
Qed.

Lemma agentsKeyedById_agents st st' :
  agents st' = agents st -> agentsKeyedById st -> agentsKeyedById st'.
Proof. unfold agentsKeyedById. now intros ->. Qed.

(** The first overflow candidate takes the call. *)
Lemma tryOverflowRouting_first st h call first rest :
  agentsKeyedById st ->
  GroupService.getAvailableGroups st (Call.groupId call) = first :: rest ->
  exists selected st',
    hd_error (AgentService.getAvailableAgentsByGroup st (Group.id first))
    = Some selected
    /\ CallService.tryOverflowRouting st h call
       = (true,
          Call.with_status
            (Call.with_assignedAgentId (Call.with_groupId call (Group.id first))
               (Some (Agent.id selected)))
            RINGING,
          st')
    /\ CallService.getCall st' (Call.id call)
       = Some (Call.with_status
                 (Call.with_assignedAgentId
                    (Call.with_groupId call (Group.id first))
                    (Some (Agent.id selected)))
                 RINGING).
Proof.
  intros Hkeys Hgroups.
  assert (Hhas : hasAvailableAgent st first = true).
  { apply (getAvailableGroups_In st (Call.groupId call)).
    rewrite Hgroups. now left. }
  unfold CallService.tryOverflowRouting. rewrite Hgroups. simpl.
  rewrite hasAvailableAgent_length, Hhas.
  rewrite <- hasAvailableAgent_length in Hhas.
  destruct (AgentService.getAvailableAgentsByGroup st (Group.id first))
    as [|selected others] eqn:Hav; [discriminate|].
  set (call1 := Call.with_groupId call (Group.id first)).
  set (st1 := CallService.store st call1).
  assert (Hkeys1 : agentsKeyedById st1)
    by (apply (agentsKeyedById_agents st); auto).
  assert (Hav1 : AgentService.getAvailableAgentsByGroup st1 (Call.groupId call1)
                 = selected :: others).
  { rewrite (getAvailableAgentsByGroup_agents st st1) by reflexivity. exact Hav. }
  destruct (CallService_assignCallToAgent_first st1 h call1 selected others
              Hkeys1 Hav1) as (st2 & Has & _ & Hc & _).
  rewrite Has. exists selected. eexists.
  split; [reflexivity|]. split; [reflexivity|].
  unfold CallService.getCall. simpl. apply get_set_same.
Qed.

(** No overflow candidate: the routing gives up and touches nothing. *)
Lemma tryOverflowRouting_none st h call :
  GroupService.getAvailableGroups st (Call.groupId call) = [] ->
  CallService.tryOverflowRouting st h call = (false, call, st).
Proof. unfold CallService.tryOverflowRouting. now intros ->. Qed.

(** An incoming call whose own group has no available agent goes to the
    first overflow candidate, or stays unassigned when there is none. *)
Lemma handleIncomingCall_overflow
    st h uuid phoneNumber callerNumber acsEventData group :
  agentsKeyedById st ->
  GroupService.getGroupByPhoneNumber st phoneNumber = Some group ->
  AgentService.getAvailableAgentsByGroup st (Group.id group) = [] ->
  let r := CallService.handleIncomingCall st h uuid phoneNumber callerNumber
             acsEventData in
  match GroupService.getAvailableGroups st (Group.id group) with
  | [] =>
      exists call,
        fst r = Some call
        /\ Call.status call = INCOMING
        /\ Call.assignedAgentId call = None
        /\ Call.groupId call = Group.id group
        /\ CallService.getCall (snd r) uuid = Some call
        /\ agents (snd r) = agents st
  | first :: _ =>
      exists call selected,
        fst r = Some call
        /\ Call.groupId call = Group.id first
        /\ Call.status call = RINGING
        /\ hd_error (AgentService.getAvailableAgentsByGroup st (Group.id first))
           = Some selected
        /\ Call.assignedAgentId call = Some (Agent.id selected)
        /\ CallService.getCall (snd r) uuid = Some call
  end.
Proof.
  intros Hkeys Hgroup Hnone r. subst r.
  unfold CallService.handleIncomingCall. rewrite Hgroup.
  set (call := Call.mk uuid callerNumber (Group.id group) None INCOMING (now h)
                 None None None _ _).
  set (st1 := CallService.store st call).
  assert (Has : CallService.assignCallToAgent st1 h call = (None, st1)).
  { unfold CallService.assignCallToAgent.
    rewrite (getAvailableAgentsByGroup_agents st st1) by reflexivity.
    simpl. now rewrite Hnone. }
  rewrite Has.
  assert (Hsame : GroupService.getAvailableGroups st1 (Call.groupId call)
                  = GroupService.getAvailableGroups st (Group.id group))
    by (apply getAvailableGroups_same_stores; reflexivity).
  destruct (GroupService.getAvailableGroups st (Group.id group))
    as [|first rest] eqn:Hgroups.
  - rewrite (tryOverflowRouting_none st1 h call Hsame). simpl.
    exists call. repeat split; auto.
    unfold CallService.getCall. simpl. apply get_set_same.
  - assert (Hkeys1 : agentsKeyedById st1)
      by (apply (agentsKeyedById_agents st); auto).
    destruct (tryOverflowRouting_first st1 h call first rest Hkeys1 Hsame)
      as (selected & st' & Hhd & Hroute & Hget).
    rewrite Hroute. simpl.
    rewrite (getAvailableAgentsByGroup_agents st st1) in Hhd by reflexivity.
    eexists. exists selected. repeat split; auto.
Qed.

(** C6. [getAvailableGroups] is empty when the group does not exist or has
    overflow disabled; otherwise it is [overflowCandidates]: the groups of
    the overflow list that exist and have an available agent, in the
    configured order. A call whose own group has no available agent is
    assigned to the first of them (its groupId becomes that group's id, it
    rings at that group's first available agent); when there is none, and so
    whenever overflow is disabled, the call remains unassigned. *)
Theorem getAvailableGroups_configured_order (st : State) :
  (forall groupId,
     GroupService.getGroup st groupId = None ->
     GroupService.getAvailableGroups st groupId = [])
  /\ (forall groupId group,
        GroupService.getGroup st groupId = Some group ->
        Group.overflowEnabled group = false ->
        GroupService.getAvailableGroups st groupId = [])
  /\ (forall groupId group,
        GroupService.getGroup st groupId = Some group ->
        Group.overflowEnabled group = true ->
        GroupService.getAvailableGroups st groupId
        = filter (hasAvailableAgent st)
                 (existingGroups st (Group.overflowGroupIds group)))
  /\ (forall groupId,
        GroupService.getAvailableGroups st groupId = overflowCandidates st groupId)
  /\ (forall h uuid phoneNumber callerNumber acsEventData group,
        agentsKeyedById st ->
        GroupService.getGroupByPhoneNumber st phoneNumber = Some group ->
        AgentService.getAvailableAgentsByGroup st (Group.id group) = [] ->
        let r := CallService.handleIncomingCall st h uuid phoneNumber
                   callerNumber acsEventData in
        match GroupService.getAvailableGroups st (Group.id group) with
        | [] =>
            exists call,
              fst r = Some call
              /\ Call.status call = INCOMING
              /\ Call.assignedAgentId call = None
              /\ Call.groupId call = Group.id group
              /\ CallService.getCall (snd r) uuid = Some call
              /\ agents (snd r) = agents st
        | first :: _ =>
            exists call selected,
              fst r = Some call
              /\ Call.groupId call = Group.id first
              /\ Call.status call = RINGING
              /\ hd_error
                   (AgentService.getAvailableAgentsByGroup st (Group.id first))
                 = Some selected
              /\ Call.assignedAgentId call = Some (Agent.id selected)
              /\ CallService.getCall (snd r) uuid = Some call
        end).
Proof.
  split; [|split; [|split; [|split]]].
  - intros groupId Hg. rewrite getAvailableGroups_overflowCandidates.
    unfold overflowCandidates. now rewrite Hg.
  - intros groupId group Hg Hoff. rewrite getAvailableGroups_overflowCandidates.
    unfold overflowCandidates. now rewrite Hg, Hoff.
  - intros groupId group Hg Hon. rewrite getAvailableGroups_overflowCandidates.
    unfold overflowCandidates. now rewrite Hg, Hon.
  - apply getAvailableGroups_overflowCandidates.
  - intros. now apply handleIncomingCall_overflow.
Qed.

(** Group A overflows to B, a missing group, C and D; B has no available
    agent: the candidates are C and D, and a call for A rings in C. *)
Lemma getAvailableGroups_configured_order_witness :
  let st := run Scenario.overflow in
  let r := CallService.handleIncomingCall st (Scenario.h 3000) "call-1"
             "+15550100" "+15550199" None in
  agentsKeyedById st
  /\ map Group.id (GroupService.getAvailableGroups st "A") = ["C"; "D"]
  /\ exists call selected,
       fst r = Some call
       /\ Call.groupId call = "C"
       /\ Call.status call = RINGING
       /\ Agent.id selected = "c1"
       /\ Call.assignedAgentId call = Some (Agent.id selected).
Proof.
  intros st r.
  assert (Hkeys : agentsKeyedById st).
  { intros agent Hin. simpl in Hin.
    destruct Hin as [<-|[<-|[<-|[<-|[]]]]]; evaluate. }
  split; [exact Hkeys|]. split; [evaluate|].
  destruct (getAvailableGroups_configured_order st) as (_ & _ & _ & _ & H5).
  assert (Hg : exists group,
             GroupService.getGroupByPhoneNumber st "+15550100" = Some group
             /\ Group.id group = "A"
             /\ AgentService.getAvailableAgentsByGroup st (Group.id group) = [])
    by evaluate_all.
  destruct Hg as (group & Hg & Hid & Hnone).
  specialize (H5 (Scenario.h 3000) "call-1" "+15550100" "+15550199" None group
                 Hkeys Hg Hnone).
  rewrite Hid in H5.
  destruct (GroupService.getAvailableGroups st "A") as [|first rest] eqn:Hl;
    vm_compute in Hl; [discriminate|].
  injection Hl as <- _.
  destruct H5 as (call & selected & Hf & Hgid & Hst & Hhd & Has & _).
  vm_compute in Hhd. injection Hhd as <-.
  do 2 eexists. split; [exact Hf|]. split; [exact Hgid|]. split; [exact Hst|].
  split; [|exact Has]. evaluate.
Defined.

(** ** What every operation preserves of the agent store *)
Lemma answerCall_agents st h acs callId agentId :
  agents (snd (CallService.answerCall st h acs callId agentId)) = agents st.
Proof.
  unfold CallService.answerCall.
  destruct (JsMap.get callId (calls st)) as [call|]; auto.
  destruct (negb (optEq (Call.assignedAgentId call) agentId)
            || negb (CallStatus_eqb (Call.status call) RINGING)); auto.
  destruct (ACSService.answerCall acs h callId call
              (CallService.agentACSUserId st agentId) (Some agentId))
    as [[ok call1] events].
  destruct ok; simpl.
  - match goal with
    | |- context [match ?a with Some _ => _ | None => _ end] => destruct a
    end; simpl; rewrite updateGroupStatistics_agents; simpl;
    now rewrite (proj1 (fold_send_frame events
                          (CallService.storeAt st callId call1))).
  - now rewrite (proj1 (fold_send_frame events
                          (CallService.storeAt st callId call1))).
Qed.

(** A property [I] of the agent map that survives the five ways the services
    write it (a new agent, the three partial updates, the ACS identity) and
    the removal of an agent survives every operation other than
    [updateAgentStatus]. *)
Section AgentStorePreservation.
Variable I : JsMap.t Agent.t -> Prop.

Hypothesis I_new :
  forall m agent,
    I m -> Agent.status agent = OFFLINE -> Agent.currentCallId agent = None ->
    I (JsMap.set (Agent.id agent) agent m).
Hypothesis I_groupIds :
  forall m id agent ids t,
    I m -> JsMap.get id m = Some agent ->
    I (JsMap.set id (AgentService.merge agent (GroupService.groupIdsUpdate ids) t) m).
Hypothesis I_assign :
  forall m id agent callId t,
    I m -> JsMap.get id m = Some agent ->
    I (JsMap.set id (AgentService.merge agent (AgentService.assignUpdate callId) t) m).
Hypothesis I_release :
  forall m id agent stats t,
    I m -> JsMap.get id m = Some agent ->
    I (JsMap.set id (AgentService.merge agent (AgentService.releaseUpdate stats) t) m).
Hypothesis I_acsUserId :
  forall m id agent acsUserId t,
    I m -> JsMap.get id m = Some agent ->
    I (JsMap.set id (AgentService.withACSUserId agent acsUserId t) m).
Hypothesis I_remove : forall m id, I m -> I (JsMap.remove id m).

Lemma updateAgent_groupIds_preserves st h id ids :
  I (agents st) ->
  I (agents (snd (AgentService.updateAgent st h id
                    (GroupService.groupIdsUpdate ids)))).
Proof.
  intros HI. unfold AgentService.updateAgent.
  destruct (JsMap.get id (agents st)) eqn:Hget; simpl; auto.
Qed.

Lemma AgentService_assignCallToAgent_preserves st h agentId callId :
  I (agents st) ->
  I (agents (snd (AgentService.assignCallToAgent st h agentId callId))).
Proof.
  intros HI. unfold AgentService.assignCallToAgent, AgentService.updateAgent.
  destruct (JsMap.get agentId (agents st)) as [agent|] eqn:Hget; simpl; auto.
  destruct (negb (AgentStatus_eqb (Agent.status agent) AVAILABLE)); simpl; auto.
Qed.

Lemma releaseAgentFromCall_preserves st h agentId d :
  I (agents st) ->
  I (agents (snd (AgentService.releaseAgentFromCall st h agentId d))).
Proof.
  intros HI. unfold AgentService.releaseAgentFromCall, AgentService.updateAgent.
  destruct (JsMap.get agentId (agents st)) as [agent|] eqn:Hget; simpl; auto.
Qed.

Lemma initializeTestAgents_preserves st h :
  I (agents st) -> I (agents (AgentService.initializeTestAgents st h)).
Proof.
  intros HI. unfold AgentService.initializeTestAgents. simpl.
  repeat (apply (I_new _ (AgentService.testAgent h _ _ _ _)); auto).
Qed.

Lemma CallService_assignCallToAgent_preserves st h call :
  I (agents st) ->
  I (agents (snd (CallService.assignCallToAgent st h call))).
Proof.
  intros HI. unfold CallService.assignCallToAgent.
  destruct (AgentService.getAvailableAgentsByGroup st (Call.groupId call))
    as [|selected others]; simpl; auto.
  pose proof (AgentService_assignCallToAgent_preserves st h
                (Agent.id selected) (Call.id call) HI) as H.
  destruct (AgentService.assignCallToAgent st h (Agent.id selected) (Call.id call))
    as [ok st']. now destruct ok.
Qed.

Lemma tryOverflowLoop_preserves h overflowGroups :
  forall st call,
    I (agents st) ->
    I (agents (snd (CallService.tryOverflowLoop st h call overflowGroups))).
Proof.
  induction overflowGroups as [|group rest IH]; intros st call HI; simpl; auto.
  destruct (0 <? List.length
                   (AgentService.getAvailableAgentsByGroup st (Group.id group)))%nat;
    [|auto].
  pose proof (CallService_assignCallToAgent_preserves
                (CallService.store st (Call.with_groupId call (Group.id group)))
                h (Call.with_groupId call (Group.id group)) HI) as H.
  destruct (CallService.assignCallToAgent
              (CallService.store st (Call.with_groupId call (Group.id group)))
              h (Call.with_groupId call (Group.id group)))
    as [[agent|] st2]; simpl in *; auto.
Qed.

Lemma handleIncomingCall_preserves st h uuid phoneNumber callerNumber acsEventData :
  I (agents st) ->
  I (agents (snd (CallService.handleIncomingCall st h uuid phoneNumber
                    callerNumber acsEventData))).
Proof.
  intros HI. unfold CallService.handleIncomingCall.
  destruct (GroupService.getGroupByPhoneNumber st phoneNumber) as [group|];
    simpl; auto.
  match goal with
  | |- context [CallService.assignCallToAgent ?s h ?c] =>
      pose proof (CallService_assignCallToAgent_preserves s h c HI) as H;
      destruct (CallService.assignCallToAgent s h c) as [[agent|] st2] eqn:Has
  end; simpl in *; auto.
  unfold CallService.tryOverflowRouting.
  match goal with
  | |- context [CallService.tryOverflowLoop st2 h ?c ?gs] =>
      pose proof (tryOverflowLoop_preserves h gs st2 c H) as H';
      destruct (CallService.tryOverflowLoop st2 h c gs) as [[ok call'] st3]
  end.
  exact H'.
Qed.

Lemma endCall_preserves st h acs callId agentId :
  I (agents st) ->
  I (agents (snd (CallService.endCall st h acs callId agentId))).
Proof.
  intros HI. unfold CallService.endCall.
  destruct (JsMap.get callId (calls st)) as [call|]; auto.
  match goal with |- context [if ?b then (false, st) else _] => destruct b end;
    auto.
  destruct (negb (ACSService.endCall acs callId call)); auto.
  assert (Hrel : forall a d,
            I (agents (snd (AgentService.releaseAgentFromCall st h a d))))
    by (intros; now apply releaseAgentFromCall_preserves).
  destruct (Call.assignedAgentId call) as [assigned|]; cbv beta iota zeta.
  - destruct (truthy (Some assigned)
              && negb (now h - Call.startTime call =? 0));
      cbv beta iota zeta;
      match goal with
      | |- context [match ?a with Some _ => _ | None => _ end] => destruct a
      end; simpl; rewrite updateGroupStatistics_agents; simpl; auto.
  - simpl. rewrite updateGroupStatistics_agents. simpl. auto.
Qed.

Lemma transferCall_preserves st h callId fromAgentId toAgentId :
  I (agents st) ->
  I (agents (snd (CallService.transferCall st h callId fromAgentId toAgentId))).
Proof.
  intros HI. unfold CallService.transferCall.
  destruct (JsMap.get callId (calls st)) as [call|]; auto.
  destruct (AgentService.getAgent st toAgentId) as [toAgent|]; auto.
  destruct (negb (optEq (Call.assignedAgentId call) fromAgentId)
            || negb (AgentStatus_eqb (Agent.status toAgent) AVAILABLE)); auto.
  match goal with
  | |- context [AgentService.assignCallToAgent ?s h toAgentId callId] =>
      assert (H1 : I (agents s));
      [| pose proof (AgentService_assignCallToAgent_preserves s h toAgentId
                       callId H1) as H2;
         destruct (AgentService.assignCallToAgent s h toAgentId callId)
           as [ok st2] ]
  end.
  - destruct (Call.duration call) as [d|]; auto.
    destruct (negb (d =? 0)); auto.
    now apply releaseAgentFromCall_preserves.
  - destruct ok; simpl in *; auto.
Qed.

Lemma deleteGroup_preserves st h id :
  I (agents st) -> I (agents (snd (GroupService.deleteGroup st h id))).
Proof.
  intros HI. unfold GroupService.deleteGroup. simpl.
  match goal with
  | |- context [fold_left ?f ?l st] =>
      assert (H : I (agents (fold_left f l st)))
  end.
  { generalize (AgentService.getAllAgents st). intros l. revert st HI.
    induction l as [|a l IH]; intros st HI; simpl; auto.
    apply IH. destruct (arrayIncludes (Agent.groupIds a) id); auto.
    now apply updateAgent_groupIds_preserves. }
  exact H.
Qed.

Lemma addAgentToGroup_preserves st h groupId agentId :
  I (agents st) ->
  I (agents (snd (GroupService.addAgentToGroup st h groupId agentId))).
Proof.
  intros HI. unfold GroupService.addAgentToGroup.
  destruct (JsMap.get groupId (groups st)) as [group|]; auto.
  destruct (AgentService.getAgent st agentId) as [agent|]; auto.
  simpl. rewrite updateGroupStatistics_agents.
  destruct (negb (arrayIncludes (Agent.groupIds agent) groupId)).
  - apply updateAgent_groupIds_preserves.
    destruct (negb (arrayIncludes (Group.agentIds group) agentId)); auto.
  - destruct (negb (arrayIncludes (Group.agentIds group) agentId)); auto.
Qed.

Lemma removeAgentFromGroup_preserves st h groupId agentId :
  I (agents st) ->
  I (agents (snd (GroupService.removeAgentFromGroup st h groupId agentId))).
Proof.
  intros HI. unfold GroupService.removeAgentFromGroup.
  destruct (JsMap.get groupId (groups st)) as [group|]; auto.
  destruct (AgentService.getAgent st agentId) as [agent|]; auto.
  simpl. rewrite updateGroupStatistics_agents.
  now apply updateAgent_groupIds_preserves.
Qed.

Lemma exec_preserves st op :
  isUpdateAgentStatus op = false ->
  I (agents st) -> I (agents (exec st op)).
Proof.
  intros Hop HI. destruct op; simpl; try discriminate.
  - apply (I_new _ (Agent.mk uuid _ _ _ _ OFFLINE _ None _ _ None)); auto.
  - now apply initializeTestAgents_preserves.
  - unfold AgentService.updateAgentACSUserId.
    destruct (JsMap.get id (agents st)) eqn:Hget; simpl; auto.
  - now apply I_remove.
  - now apply AgentService_assignCallToAgent_preserves.
  - now apply releaseAgentFromCall_preserves.
  - exact HI.
  - now apply deleteGroup_preserves.
  - now apply addAgentToGroup_preserves.
  - now apply removeAgentFromGroup_preserves.
  - unfold GroupService.setOverflowGroups.
    destruct (JsMap.get groupId (groups st)); auto.
  - unfold GroupService.enableOverflow.
    destruct (JsMap.get groupId (groups st)); auto.
  - now apply handleIncomingCall_preserves.
  - now rewrite answerCall_agents.
  - now apply endCall_preserves.
  - now apply transferCall_preserves.
Qed.
End AgentStorePreservation.







(** ** The agent map stays keyed by id *)
Section JsMapKeys.
Context {V : Type}.
Implicit Types (m : JsMap.t V) (k : string) (v : V).

Lemma get_In_entry m k v : JsMap.get k m = Some v -> In (k, v) m.
Proof.
  induction m as [|[k' v'] m IH]; simpl; [discriminate|].
  destruct (String.eqb k k') eqn:E; intros H.
  - apply String.eqb_eq in E. injection H as <-. subst. now left.
  - right. auto.
Qed.

Lemma get_None_keys m k : JsMap.get k m = None -> ~ In k (JsMap.keys m).
Proof.
  induction m as [|[k' v'] m IH]; simpl; [tauto|].
  destruct (String.eqb k k') eqn:E; [discriminate|].
  apply String.eqb_neq in E. intros H [Hk|Hk]; [congruence|]. now apply IH.
Qed.

Lemma In_entry_get m k v :
  NoDup (JsMap.keys m) -> In (k, v) m -> JsMap.get k m = Some v.
Proof.
  induction m as [|[k' v'] m IH]; simpl; [tauto|].
  intros Hnd [H|H].
  - injection H as -> ->. now rewrite String.eqb_refl.
  - inversion Hnd as [|? ? Hk Hnd']; subst.
    destruct (String.eqb k k') eqn:E; [|auto].
    apply String.eqb_eq in E. subst k'. exfalso. apply Hk.
    change k with (fst (k, v)). now apply in_map.
Qed.

Lemma set_In_entry m k v k' x :
  In (k', x) (JsMap.set k v m) -> (k' = k /\ x = v) \/ In (k', x) m.
Proof.
  induction m as [|[k0 v0] m IH]; simpl.
  - intros [H|[]]. injection H as <- <-. auto.
  - destruct (String.eqb k k0); simpl; intros [H|H]; auto.
    + injection H as <- <-. auto.
    + destruct (IH H); auto.
Qed.

Lemma keys_set m k v :
  JsMap.keys (JsMap.set k v m)
  = match JsMap.get k m with
    | Some _ => JsMap.keys m
    | None => (JsMap.keys m ++ [k])%list
    end.
Proof.
  induction m as [|[k0 v0] m IH]; simpl; auto.
  destruct (String.eqb k k0) eqn:E; simpl.
  - apply String.eqb_eq in E. now subst.
  - rewrite IH. now destruct (JsMap.get k m).
Qed.

Lemma NoDup_keys_set m k v :
  NoDup (JsMap.keys m) -> NoDup (JsMap.keys (JsMap.set k v m)).
Proof.
  intros Hnd. rewrite keys_set.
  destruct (JsMap.get k m) eqn:Hget; auto.
  apply get_None_keys in Hget.
  apply NoDup_rev in Hnd. rewrite <- (rev_involutive (_ ++ _)%list).
  apply NoDup_rev. rewrite rev_app_distr. simpl. constructor; auto.
  now rewrite <- in_rev.
Qed.

Lemma remove_In_entry m k k' x :
  In (k', x) (JsMap.remove k m) -> In (k', x) m.
Proof.
  induction m as [|[k0 v0] m IH]; simpl; auto.
  destruct (String.eqb k k0); simpl; auto. intros [H|H]; auto.
Qed.

Lemma NoDup_keys_remove m k :
  NoDup (JsMap.keys m) -> NoDup (JsMap.keys (JsMap.remove k m)).
Proof.
  induction m as [|[k0 v0] m IH]; simpl; auto.
  intros Hnd. inversion Hnd as [|? ? Hk Hnd']; subst.
  destruct (String.eqb k k0); simpl; auto.
  constructor; auto. intros Hin. apply Hk.
  apply in_map_iff in Hin. destruct Hin as ([k1 v1] & <- & Hin).
  apply remove_In_entry in Hin. change (In (fst (k1, v1)) (map fst m)).
  now apply in_map.
Qed.
End JsMapKeys.

Lemma keyedById_set m k agent :
  keyedById m -> k = Agent.id agent -> keyedById (JsMap.set k agent m).
Proof.
  intros (Hk & Hnd) Hid. split.
  - intros k' x Hin. destruct (set_In_entry _ _ _ _ _ Hin) as [(-> & ->)|H]; auto.
  - now apply NoDup_keys_set.
Qed.

Lemma keyedById_get_id m k agent :
  keyedById m -> JsMap.get k m = Some agent -> k = Agent.id agent.
Proof. intros (Hk & _) Hget. eauto using get_In_entry. Qed.

Lemma keyedById_listed m agent :
  keyedById m -> In agent (JsMap.values m) ->
  JsMap.get (Agent.id agent) m = Some agent.
Proof.
  intros (Hk & Hnd) Hin. apply in_map_iff in Hin.
  destruct Hin as ([k a] & Ha & Hin). simpl in Ha. subst a.
  rewrite <- (Hk _ _ Hin). now apply In_entry_get.
Qed.

Lemma exec_keyedById st op :
  keyedById (agents st) -> keyedById (agents (exec st op)).
Proof.
  intros HI. destruct (isUpdateAgentStatus op) eqn:Hkind.
  - destruct op; try discriminate. simpl.
    unfold AgentService.updateAgentStatus, AgentService.updateAgent.
    destruct (JsMap.get id (agents st)) as [agent|] eqn:Hget; [|exact HI].
    simpl. apply keyedById_set; [exact HI|].
    exact (keyedById_get_id _ _ _ HI Hget).
  - apply exec_preserves; auto; clear.
    + intros m agent HI _ _. now apply keyedById_set.
    + intros m id agent ids t HI Hget. apply keyedById_set; [exact HI|].
      exact (keyedById_get_id _ _ _ HI Hget).
    + intros m id agent callId t HI Hget. apply keyedById_set; [exact HI|].
      exact (keyedById_get_id _ _ _ HI Hget).
    + intros m id agent stats t HI Hget. apply keyedById_set; [exact HI|].
      exact (keyedById_get_id _ _ _ HI Hget).
    + intros m id agent acsUserId t HI Hget. apply keyedById_set; [exact HI|].
      exact (keyedById_get_id _ _ _ HI Hget).
    + intros m id (Hk & Hnd). split.
      * intros k a Hin. eauto using remove_In_entry.
      * now apply NoDup_keys_remove.
Qed.

(** Every state the operations reach has its agents keyed by their ids: the
    premise of the overflow routing result holds in all of them. *)
Lemma run_agentsKeyedById ops : agentsKeyedById (run ops).
Proof.
  assert (H : forall st, keyedById (agents st) ->
                         keyedById (agents (fold_left exec ops st))).
  { induction ops as [|op ops IH]; intros st HI; simpl; auto.
    apply IH. now apply exec_keyedById. }
  intros agent Hin. apply keyedById_listed; [|exact Hin].
  apply H. split; [intros k a []|constructor].
Qed.

(** ** Open calls carry no duration *)
Lemma updateAgent_calls st h id u :
  calls (snd (AgentService.updateAgent st h id u)) = calls st.
Proof. apply updateAgent_frame. Qed.

Lemma AgentService_assignCallToAgent_calls st h agentId callId :
  calls (snd (AgentService.assignCallToAgent st h agentId callId)) = calls st.
Proof.
  unfold AgentService.assignCallToAgent.
  destruct (JsMap.get agentId (agents st)) as [agent|]; auto.
  destruct (negb (AgentStatus_eqb (Agent.status agent) AVAILABLE)); auto.
  pose proof (updateAgent_calls st h agentId (AgentService.assignUpdate callId)).
  now destruct (AgentService.updateAgent st h agentId _).
Qed.

Lemma releaseAgentFromCall_calls st h agentId d :
  calls (snd (AgentService.releaseAgentFromCall st h agentId d)) = calls st.
Proof.
  unfold AgentService.releaseAgentFromCall.
  destruct (JsMap.get agentId (agents st)) as [agent|]; auto.
  pose proof (updateAgent_calls st h agentId
                (AgentService.releaseUpdate
                   (AgentService.newStatistics h (Agent.statistics agent) d))).
  now destruct (AgentService.updateAgent st h agentId _).
Qed.

Lemma CallService_assignCallToAgent_calls st h call :
  calls (snd (CallService.assignCallToAgent st h call)) = calls st.
Proof.
  unfold CallService.assignCallToAgent.
  destruct (AgentService.getAvailableAgentsByGroup st (Call.groupId call))
    as [|selected others]; auto.
  pose proof (AgentService_assignCallToAgent_calls st h (Agent.id selected)
                (Call.id call)) as H.
  destruct (AgentService.assignCallToAgent st h (Agent.id selected) (Call.id call))
    as [ok st']. now destruct ok.
Qed.

Lemma deleteGroup_calls st h id :
  calls (snd (GroupService.deleteGroup st h id)) = calls st.
Proof.
  unfold GroupService.deleteGroup. simpl.
  generalize (AgentService.getAllAgents st). intros l.
  assert (H : forall st0, calls (fold_left
             (fun st1 agent =>
                if arrayIncludes (Agent.groupIds agent) id
                then snd (AgentService.updateAgent st1 h (Agent.id agent)
                            (GroupService.groupIdsUpdate
                               (filter (fun gId => negb (String.eqb gId id))
                                       (Agent.groupIds agent))))
                else st1) l st0) = calls st0).
  { induction l as [|a l IH]; intros st0; simpl; auto.
    rewrite IH. destruct (arrayIncludes (Agent.groupIds a) id); auto.
    apply updateAgent_calls. }
  apply H.
Qed.

Lemma addAgentToGroup_calls st h groupId agentId :
  calls (snd (GroupService.addAgentToGroup st h groupId agentId)) = calls st.
Proof.
  unfold GroupService.addAgentToGroup.
  destruct (JsMap.get groupId (groups st)) as [group|]; auto.
  destruct (AgentService.getAgent st agentId) as [agent|]; auto.
  simpl. rewrite updateGroupStatistics_calls.
  destruct (negb (arrayIncludes (Agent.groupIds agent) groupId));
    rewrite ?updateAgent_calls;
    destruct (negb (arrayIncludes (Group.agentIds group) agentId)); auto.
Qed.

Lemma removeAgentFromGroup_calls st h groupId agentId :
  calls (snd (GroupService.removeAgentFromGroup st h groupId agentId)) = calls st.
Proof.
  unfold GroupService.removeAgentFromGroup.
  destruct (JsMap.get groupId (groups st)) as [group|]; auto.
  destruct (AgentService.getAgent st agentId) as [agent|]; auto.
  simpl. now rewrite updateGroupStatistics_calls, updateAgent_calls.
Qed.

Lemma callsUnstamped_get m callId call :
  callsUnstamped m -> JsMap.get callId m = Some call ->
  unstampedWhileOpen call = true.
Proof.
  unfold callsUnstamped. rewrite forallb_forall. eauto using get_In.
Qed.

Lemma tryOverflowLoop_callsUnstamped h overflowGroups :
  forall st call,
    Call.duration call = None ->
    callsUnstamped (calls st) ->
    callsUnstamped
      (calls (snd (CallService.tryOverflowLoop st h call overflowGroups))).
Proof.
  induction overflowGroups as [|group rest IH]; intros st call Hd HI; simpl; auto.
  destruct (0 <? List.length
                   (AgentService.getAvailableAgentsByGroup st (Group.id group)))%nat;
    [|auto].
  set (call1 := Call.with_groupId call (Group.id group)).
  set (st1 := CallService.store st call1).
  assert (HI1 : callsUnstamped (calls st1)).
  { apply forallb_values_set; [|exact HI].
    unfold unstampedWhileOpen. simpl. rewrite Hd. now destruct (Call.status call). }
  pose proof (CallService_assignCallToAgent_calls st1 h call1) as Hc.
  destruct (CallService.assignCallToAgent st1 h call1) as [[agent|] st2];
    simpl in Hc.
  - simpl. rewrite Hc. apply forallb_values_set; [|exact HI1].
    unfold unstampedWhileOpen. simpl. now rewrite Hd.
  - apply IH; [exact Hd | now rewrite Hc].
Qed.

Lemma ACSService_answerCall_call acs h callId call agentUserId agentId :
  let call1 :=
    snd (fst (ACSService.answerCall acs h callId call agentUserId agentId)) in
  Call.status call1 = Call.status call /\ Call.duration call1 = Call.duration call.
Proof.
  unfold ACSService.answerCall.
  repeat match goal with
         | |- context [if ?b then _ else _] => destruct b
         | |- context [match ?x with _ => _ end] => destruct x
         end; simpl; auto.
Qed.

Lemma exec_callsUnstamped st op :
  callsUnstamped (calls st) -> callsUnstamped (calls (exec st op)).
Proof.
  intros HI. destruct op; cbv beta iota delta [exec].
  - exact HI.
  - exact HI.
  - unfold AgentService.updateAgentStatus. now rewrite updateAgent_calls.
  - unfold AgentService.updateAgentACSUserId.
    destruct (JsMap.get id (agents st)); auto.
  - exact HI.
  - now rewrite AgentService_assignCallToAgent_calls.
  - now rewrite releaseAgentFromCall_calls.
  - exact HI.
  - now rewrite deleteGroup_calls.
  - now rewrite addAgentToGroup_calls.
  - now rewrite removeAgentFromGroup_calls.
  - unfold GroupService.setOverflowGroups.
    destruct (JsMap.get groupId (groups st)); auto.
  - unfold GroupService.enableOverflow.
    destruct (JsMap.get groupId (groups st)); auto.
  - (* handleIncomingCall *)
    unfold CallService.handleIncomingCall.
    destruct (GroupService.getGroupByPhoneNumber st phoneNumber) as [group|];
      simpl; auto.
    match goal with
    | |- context [CallService.assignCallToAgent _ h ?c] => set (call := c)
    end.
    set (st1 := CallService.store st call).
    assert (HI1 : callsUnstamped (calls st1))
      by (apply forallb_values_set; [reflexivity | exact HI]).
    pose proof (CallService_assignCallToAgent_calls st1 h call) as Hc.
    destruct (CallService.assignCallToAgent st1 h call) as [[agent|] st2];
      simpl in Hc.
    + simpl. rewrite Hc. apply forallb_values_set; [reflexivity | exact HI1].
    + unfold CallService.tryOverflowRouting.
      pose proof (tryOverflowLoop_callsUnstamped h
                    (GroupService.getAvailableGroups st2 (Call.groupId call))
                    st2 call eq_refl) as Hloop.
      rewrite Hc in Hloop. specialize (Hloop HI1).
      now destruct (CallService.tryOverflowLoop st2 h call _) as [[ok call'] st3].
  - (* answerCall *)
    unfold CallService.answerCall.
    destruct (JsMap.get callId (calls st)) as [call|] eqn:Hget; auto.
    destruct (optEq (Call.assignedAgentId call) agentId); simpl; auto.
    destruct (CallStatus_eqb (Call.status call) RINGING) eqn:Hs; simpl; auto.
    apply CallStatus_eqb_eq in Hs.
    pose proof (callsUnstamped_get _ _ _ HI Hget) as Hu.
    unfold unstampedWhileOpen in Hu. rewrite Hs in Hu.
    destruct (ACSService_answerCall_call acs h callId call
                (CallService.agentACSUserId st agentId) (Some agentId))
      as (Hs1 & Hd1).
    destruct (ACSService.answerCall acs h callId call
                (CallService.agentACSUserId st agentId) (Some agentId))
      as [[ok call1] events].
    simpl in Hs1, Hd1.
    assert (HI1 : callsUnstamped
                    (calls (fold_left send events
                              (CallService.storeAt st callId call1)))).
    { destruct (fold_send_frame events (CallService.storeAt st callId call1))
        as (_ & _ & ->). simpl.
      apply forallb_values_set; [|exact HI].
      unfold unstampedWhileOpen. now rewrite Hs1, Hs, Hd1. }
    destruct ok; simpl; [|exact HI1].
    match goal with
    | |- context [match ?a with Some _ => _ | None => _ end] => destruct a
    end; simpl; rewrite updateGroupStatistics_calls; simpl;
    (apply forallb_values_set; [|exact HI1]);
    unfold unstampedWhileOpen; simpl; now rewrite Hd1.
  - (* endCall *)
    unfold CallService.endCall.
    destruct (JsMap.get callId (calls st)) as [call|]; auto.
    match goal with |- context [if ?b then (false, st) else _] => destruct b end;
      auto.
    destruct (negb (ACSService.endCall acs callId call)); auto.
    destruct (Call.assignedAgentId call) as [assigned|]; cbv beta iota zeta.
    + destruct (truthy (Some assigned)
                && negb (now h - Call.startTime call =? 0));
        cbv beta iota zeta;
        match goal with
        | |- context [match ?a with Some _ => _ | None => _ end] => destruct a
        end; simpl; rewrite updateGroupStatistics_calls; simpl;
        rewrite ?releaseAgentFromCall_calls;
        now apply forallb_values_set.
    + simpl. rewrite updateGroupStatistics_calls. simpl.
      now apply forallb_values_set.
  - (* transferCall *)
    unfold CallService.transferCall.
    destruct (JsMap.get callId (calls st)) as [call|]; auto.
    destruct (AgentService.getAgent st toAgentId) as [toAgent|]; auto.
    destruct (negb (optEq (Call.assignedAgentId call) fromAgentId)
              || negb (AgentStatus_eqb (Agent.status toAgent) AVAILABLE)); auto.
    match goal with
    | |- context [AgentService.assignCallToAgent ?s h toAgentId callId] =>
        assert (H1 : calls s = calls st);
        [| pose proof (AgentService_assignCallToAgent_calls s h toAgentId callId)
             as H2;
           destruct (AgentService.assignCallToAgent s h toAgentId callId)
             as [ok st2] ]
    end.
    + destruct (Call.duration call) as [d|]; auto.
      destruct (negb (d =? 0)); auto. apply releaseAgentFromCall_calls.
    + simpl in H2. destruct ok; simpl; rewrite H2, H1; auto.
      now apply forallb_values_set.
Qed.

Lemma run_callsUnstamped ops : callsUnstamped (calls (run ops)).
Proof.
  assert (H : forall st, callsUnstamped (calls st) ->
                         callsUnstamped (calls (fold_left exec ops st))).
  { induction ops as [|op ops IH]; intros st HI; simpl; auto.
    apply IH. now apply exec_callsUnstamped. }
  apply H. reflexivity.
Qed.

(** In every reachable state, transferring a call that is RINGING or
    CONNECTED to another agent leaves the origin agent exactly as it was: the
    release that [transferCall] intends never happens for a live call. *)
Lemma transferCall_never_releases_live_origin
    (ops : list Op) (h : Host) (callId fromAgentId toAgentId : string)
    (call : Call.t) :
  CallService.getCall (run ops) callId = Some call ->
  Call.status call = RINGING \/ Call.status call = CONNECTED ->
  fromAgentId <> toAgentId ->
  AgentService.getAgent
    (snd (CallService.transferCall (run ops) h callId fromAgentId toAgentId))
    fromAgentId
  = AgentService.getAgent (run ops) fromAgentId.
Proof.
  intros Hcall Hlive Hne.
  apply (transferCall_live_call_keeps_origin _ h callId fromAgentId toAgentId call);
    auto.
  pose proof (callsUnstamped_get _ _ _ (run_callsUnstamped ops) Hcall) as Hu.
  unfold unstampedWhileOpen in Hu.
  destruct Hlive as [Hs|Hs]; rewrite Hs in Hu;
    now destruct (Call.duration call).
Qed.

(** A successful [endCall] marks the call ENDED and stamps it, and leaves
    [assignedAgentId] as it was: ended calls keep naming their last agent. *)
Lemma endCall_keeps_assignedAgentId
    (st : State) (h : Host) (acs : ACSService.t) (callId : string)
    (agentId : option string) (call : Call.t) :
  CallService.getCall st callId = Some call ->
  let r := CallService.endCall st h acs callId agentId in
  fst r = true ->
  exists call',
    CallService.getCall (snd r) callId = Some call'
    /\ Call.status call' = ENDED
    /\ Call.assignedAgentId call' = Call.assignedAgentId call
    /\ Call.endTime call' = Some (now h)
    /\ Call.duration call' = Some (now h - Call.startTime call).
Proof.
  intros Hcall r. subst r. unfold CallService.endCall.
  unfold CallService.getCall in *. rewrite Hcall.
  match goal with |- context [if ?b then (false, st) else _] => destruct b end;
    [discriminate|].
  destruct (negb (ACSService.endCall acs callId call)); [discriminate|].
  intros _.
  destruct (Call.assignedAgentId call) as [assigned|] eqn:Has;
    cbv beta iota zeta.
  - destruct (truthy (Some assigned)
              && negb (now h - Call.startTime call =? 0));
      cbv beta iota zeta;
      match goal with
      | |- context [match ?a with Some _ => _ | None => _ end] => destruct a
      end; simpl; rewrite updateGroupStatistics_calls; simpl;
      rewrite get_set_same; eexists; (split; [reflexivity|]); simpl; auto.
  - simpl. rewrite updateGroupStatistics_calls. simpl.
    rewrite get_set_same. eexists. split; [reflexivity|]. simpl. auto.
Qed.

(** * Further properties of the services *)

(** ** Group membership *)
Lemma filter_push_absent (l : list string) x :
  ~ In x l -> filter (fun y => negb (String.eqb y x)) (l ++ [x]) = l.
Proof.
  intros Hx. induction l as [|y l IH]; simpl.
  - now rewrite String.eqb_refl.
  - destruct (String.eqb y x) eqn:E.
    + apply String.eqb_eq in E. subst. exfalso. apply Hx. now left.
    + simpl. rewrite IH; auto. intros H. apply Hx. now right.
Qed.

Lemma filter_absent (l : list string) x :
  ~ In x l -> filter (fun y => negb (String.eqb y x)) l = l.
Proof.
  intros Hx. induction l as [|y l IH]; simpl; auto.
  destruct (String.eqb y x) eqn:E.
  - apply String.eqb_eq in E. subst. exfalso. apply Hx. now left.
  - simpl. rewrite IH; auto. intros H. apply Hx. now right.
Qed.

Lemma filter_push_present (l : list string) x :
  filter (fun y => negb (String.eqb y x)) (l ++ [x])
  = filter (fun y => negb (String.eqb y x)) l.
Proof.
  rewrite filter_app. simpl. rewrite String.eqb_refl. simpl. apply app_nil_r.
Qed.

Lemma filter_removes (l : list string) x :
  ~ In x (filter (fun y => negb (String.eqb y x)) l).
Proof.
  intros H. apply filter_In in H. destruct H as (_ & H).
  now rewrite String.eqb_refl in H.
Qed.

(** What [removeAgentFromGroup] leaves behind. *)
Lemma removeAgentFromGroup_removes st h groupId agentId group agent :
  GroupService.getGroup st groupId = Some group ->
  AgentService.getAgent st agentId = Some agent ->
  let r := GroupService.removeAgentFromGroup st h groupId agentId in
  fst r = true
  /\ exists group' agent',
       GroupService.getGroup (snd r) groupId = Some group'
       /\ AgentService.getAgent (snd r) agentId = Some agent'
       /\ Group.agentIds group'
          = filter (fun id => negb (String.eqb id agentId)) (Group.agentIds group)
       /\ Agent.groupIds agent'
          = filter (fun id => negb (String.eqb id groupId)) (Agent.groupIds agent).
Proof.
  intros Hg Ha r. subst r. unfold GroupService.removeAgentFromGroup.
  unfold GroupService.getGroup in *. rewrite Hg, Ha. simpl fst. simpl snd.
  split; [reflexivity|].
  set (st1 := with_groups st _).
  assert (Ha1 : AgentService.getAgent st1 agentId = Some agent) by exact Ha.
  rewrite (updateAgent_same st1 h _ _ _ Ha1). simpl snd.
  unfold GroupService.updateGroupStatistics. simpl groups.
  rewrite get_set_same. simpl.
  eexists. eexists. rewrite get_set_same.
  split; [reflexivity|]. unfold AgentService.getAgent. simpl.
  rewrite get_set_same. split; [reflexivity|]. simpl. auto.
Qed.

(** X1. For an existing group and agent, [addAgentToGroup] followed by
    [removeAgentFromGroup] leaves both lists stripped of the pair: they are
    restored exactly when the agent was on neither list before; an agent
    that was already listed on one side is no longer listed there. *)
Theorem addAgentToGroup_then_removeAgentFromGroup
    (st : State) (h h' : Host) (groupId agentId : string)
    (group : Group.t) (agent : Agent.t) :
  GroupService.getGroup st groupId = Some group ->
  AgentService.getAgent st agentId = Some agent ->
  let added := GroupService.addAgentToGroup st h groupId agentId in
  let removed := GroupService.removeAgentFromGroup (snd added) h' groupId agentId in
  fst added = true /\ fst removed = true
  /\ exists group' agent',
       GroupService.getGroup (snd removed) groupId = Some group'
       /\ AgentService.getAgent (snd removed) agentId = Some agent'
       /\ Group.agentIds group'
          = filter (fun id => negb (String.eqb id agentId)) (Group.agentIds group)
       /\ Agent.groupIds agent'
          = filter (fun id => negb (String.eqb id groupId)) (Agent.groupIds agent)
       /\ (~ In agentId (Group.agentIds group) ->
           Group.agentIds group' = Group.agentIds group)
       /\ (~ In groupId (Agent.groupIds agent) ->
           Agent.groupIds agent' = Agent.groupIds agent).
Proof.
  intros Hg Ha added removed.
  destruct (addAgentToGroup_adds st h groupId agentId group agent Hg Ha)
    as (Hok & _ & group1 & agent1 & Hg1 & Ha1 & Hids1 & Hids2).
  fold added in Hok, Hg1, Ha1.
  destruct (removeAgentFromGroup_removes (snd added) h' groupId agentId
              group1 agent1 Hg1 Ha1)
    as (Hok2 & group' & agent' & Hg' & Ha' & Hf1 & Hf2).
  fold removed in Hok2, Hg', Ha'.
  split; [exact Hok|]. split; [exact Hok2|].
  exists group', agent'. split; [exact Hg'|]. split; [exact Ha'|].
  assert (E1 : Group.agentIds group'
               = filter (fun id => negb (String.eqb id agentId))
                        (Group.agentIds group)).
  { rewrite Hf1, Hids1.
    destruct (arrayIncludes (Group.agentIds group) agentId); auto.
    apply filter_push_present. }
  assert (E2 : Agent.groupIds agent'
               = filter (fun id => negb (String.eqb id groupId))
                        (Agent.groupIds agent)).
  { rewrite Hf2, Hids2.
    destruct (arrayIncludes (Agent.groupIds agent) groupId); auto.
    apply filter_push_present. }
  split; [exact E1|]. split; [exact E2|]. split.
  - intros Hn. rewrite E1. now apply filter_absent.
  - intros Hn. rewrite E2. now apply filter_absent.
Qed.

(** Y lists G but G does not list Y: the round trip restores G's list and
    drops G from Y's. *)
Lemma addAgentToGroup_then_removeAgentFromGroup_witness :
  let st := run Scenario.staffed in
  let added := GroupService.addAgentToGroup st (Scenario.h 3000) "G" "Y" in
  let removed :=
    GroupService.removeAgentFromGroup (snd added) (Scenario.h 4000) "G" "Y" in
  exists group' agent',
    GroupService.getGroup (snd removed) "G" = Some group'
    /\ AgentService.getAgent (snd removed) "Y" = Some agent'
    /\ Group.agentIds group' = []
    /\ Agent.groupIds agent' = [].
Proof.
  intros st added removed.
  destruct (GroupService.getGroup st "G") as [group|] eqn:Hg;
    [|vm_compute in Hg; discriminate].
  destruct (AgentService.getAgent st "Y") as [agent|] eqn:Ha;
    [|vm_compute in Ha; discriminate].
  destruct (addAgentToGroup_then_removeAgentFromGroup st (Scenario.h 3000)
              (Scenario.h 4000) "G" "Y" group agent Hg Ha)
    as (_ & _ & group' & agent' & Hg' & Ha' & E1 & E2 & _).
  vm_compute in Hg. injection Hg as <-.
  vm_compute in Ha. injection Ha as <-.
  exists group', agent'. split; [exact Hg'|]. split; [exact Ha'|].
  split; [exact E1 | exact E2].
Defined.

(** X2. [removeAgentFromGroup] returns [true] exactly when the group and the
    agent both exist; then neither list names the other any more. Otherwise
    nothing changes. *)
Theorem removeAgentFromGroup_both_sides
    (st : State) (h : Host) (groupId agentId : string) :
  let r := GroupService.removeAgentFromGroup st h groupId agentId in
  (fst r = true <->
     GroupService.getGroup st groupId <> None
     /\ AgentService.getAgent st agentId <> None)
  /\ (fst r = false -> snd r = st)
  /\ (fst r = true ->
      exists group' agent',
        GroupService.getGroup (snd r) groupId = Some group'
        /\ AgentService.getAgent (snd r) agentId = Some agent'
        /\ ~ In agentId (Group.agentIds group')
        /\ ~ In groupId (Agent.groupIds agent')).
Proof.
  intros r.
  destruct (GroupService.getGroup st groupId) as [group|] eqn:Hg.
  - destruct (AgentService.getAgent st agentId) as [agent|] eqn:Ha.
    + destruct (removeAgentFromGroup_removes st h groupId agentId group agent
                  Hg Ha) as (Hok & group' & agent' & Hg' & Ha' & E1 & E2).
      fold r in Hok, Hg', Ha'.
      split; [split; [intros _; split; discriminate | auto]|].
      split; [congruence|]. intros _.
      exists group', agent'. rewrite E1, E2.
      auto using filter_removes.
    + assert (Hr : r = (false, st)).
      { subst r. unfold GroupService.removeAgentFromGroup.
        unfold GroupService.getGroup in Hg. now rewrite Hg, Ha. }
      rewrite Hr. simpl.
      split; [split; [discriminate | intros (_ & H); congruence]|].
      split; [auto | discriminate].
  - assert (Hr : r = (false, st)).
    { subst r. unfold GroupService.removeAgentFromGroup.
      unfold GroupService.getGroup in Hg. now rewrite Hg. }
    rewrite Hr. simpl.
    split; [split; [discriminate | intros (H & _); congruence]|].
    split; [auto | discriminate].
Qed.

Lemma removeAgentFromGroup_both_sides_witness :
  let st := run Cases.enrolled in
  let r := GroupService.removeAgentFromGroup st (Scenario.h 4000) "G" "X" in
  let missing := GroupService.removeAgentFromGroup st (Scenario.h 4000) "G" "Z" in
  fst r = true
  /\ (exists group' agent',
        GroupService.getGroup (snd r) "G" = Some group'
        /\ AgentService.getAgent (snd r) "X" = Some agent'
        /\ ~ In "X" (Group.agentIds group')
        /\ ~ In "G" (Agent.groupIds agent'))
  /\ fst missing = false /\ snd missing = st.
Proof.
  intros st r missing.
  destruct (removeAgentFromGroup_both_sides st (Scenario.h 4000) "G" "X")
    as (_ & _ & Hok).
  destruct (removeAgentFromGroup_both_sides st (Scenario.h 4000) "G" "Z")
    as (_ & Hfail & _).
  split; [evaluate|]. split; [apply Hok; evaluate|].
  split; [evaluate|]. apply Hfail. evaluate.
Defined.

(** ** deleteGroup *)
Lemma keys_set_present {V} (m : JsMap.t V) k v v' :
  JsMap.get k m = Some v' -> JsMap.keys (JsMap.set k v m) = JsMap.keys m.
Proof. intros H. rewrite keys_set. now rewrite H. Qed.

Lemma get_remove_same {V} (m : JsMap.t V) k :
  NoDup (JsMap.keys m) -> JsMap.get k (JsMap.remove k m) = None.
Proof.
  induction m as [|[k' v'] m IH]; simpl; auto.
  intros Hnd. inversion Hnd as [|? ? Hk Hnd']; subst.
  destruct (String.eqb k k') eqn:E; simpl.
  - apply String.eqb_eq in E. subst k'.
    destruct (JsMap.get k m) eqn:Hget; auto.
    exfalso. apply Hk. apply get_In_entry in Hget.
    change k with (fst (k, v)). now apply in_map.
  - rewrite E. auto.
Qed.

Lemma get_remove_other {V} (m : JsMap.t V) k k' :
  k <> k' -> JsMap.get k' (JsMap.remove k m) = JsMap.get k' m.
Proof.
  intros Hne. induction m as [|[k0 v0] m IH]; simpl; auto.
  destruct (String.eqb k k0) eqn:E; simpl.
  - apply String.eqb_eq in E. subst k0.
    destruct (String.eqb k' k) eqn:E'; auto.
    apply String.eqb_eq in E'. congruence.
  - now rewrite IH.
Qed.

(** The cascade of [deleteGroup] over a snapshot of agents whose ids are
    pairwise distinct and who are all current. *)
Lemma deleteGroup_cascade h id (l : list Agent.t) :
  forall st,
    NoDup (map Agent.id l) ->
    (forall agent, In agent l ->
                   AgentService.getAgent st (Agent.id agent) = Some agent) ->
    let strip st agent :=
      if arrayIncludes (Agent.groupIds agent) id then
        snd (AgentService.updateAgent st h (Agent.id agent)
               (GroupService.groupIdsUpdate
                  (filter (fun gId => negb (String.eqb gId id))
                          (Agent.groupIds agent))))
      else st in
    let st' := fold_left strip l st in
    groups st' = groups st
    /\ JsMap.keys (agents st') = JsMap.keys (agents st)
    /\ (forall k, ~ In k (map Agent.id l) ->
                  AgentService.getAgent st' k = AgentService.getAgent st k)
    /\ (forall agent, In agent l ->
          exists agent', AgentService.getAgent st' (Agent.id agent) = Some agent'
                         /\ ~ In id (Agent.groupIds agent')).
Proof.
  induction l as [|a l IH]; intros st Hnd Hcur strip st'.
  - simpl in *. repeat split; auto. intros agent [].
  - inversion Hnd as [|? ? Ha Hnd']; subst.
    subst st'. simpl fold_left.
    set (st1 := strip st a).
    assert (H1 : groups st1 = groups st
                 /\ JsMap.keys (agents st1) = JsMap.keys (agents st)
                 /\ (forall k, k <> Agent.id a ->
                       AgentService.getAgent st1 k = AgentService.getAgent st k)
                 /\ exists a', AgentService.getAgent st1 (Agent.id a) = Some a'
                               /\ ~ In id (Agent.groupIds a')).
    { subst st1 strip. cbv beta.
      pose proof (Hcur a (or_introl eq_refl)) as Hget.
      destruct (arrayIncludes (Agent.groupIds a) id) eqn:E.
      - rewrite (updateAgent_same st h _ _ _ Hget). simpl.
        split; [reflexivity|]. split.
        + unfold AgentService.getAgent in Hget.
          now rewrite (keys_set_present _ _ _ _ Hget).
        + split.
          * intros k Hk. unfold AgentService.getAgent. simpl.
            apply get_set_other. congruence.
          * eexists. unfold AgentService.getAgent. simpl.
            rewrite get_set_same. split; [reflexivity|]. simpl.
            apply filter_removes.
      - split; [reflexivity|]. split; [reflexivity|]. split; [auto|].
        exists a. split; [exact Hget|].
        intros Hin. apply arrayIncludes_In in Hin. congruence. }
    destruct H1 as (Hg1 & Hk1 & Ho1 & a' & Ha' & Hnot).
    assert (Hcur1 : forall agent, In agent l ->
              AgentService.getAgent st1 (Agent.id agent) = Some agent).
    { intros agent Hin. rewrite Ho1; [apply Hcur; now right|].
      intros E. apply Ha. rewrite <- E. now apply in_map. }
    destruct (IH st1 Hnd' Hcur1) as (Hg2 & Hk2 & Ho2 & Hall).
    fold strip in Hg2, Hk2, Ho2, Hall.
    split; [congruence|]. split; [congruence|]. split.
    + intros k Hk. simpl in Hk. rewrite Ho2 by tauto. apply Ho1.
      intros E. apply Hk. now left.
    + intros agent [<-|Hin].
      * exists a'. rewrite Ho2 by exact Ha. auto.
      * now apply Hall.
Qed.

Lemma keyedById_ids m :
  keyedById m -> NoDup (map Agent.id (JsMap.values m)).
Proof.
  intros (Hk & Hnd).
  assert (E : map Agent.id (JsMap.values m) = JsMap.keys m).
  { unfold JsMap.values, JsMap.keys. rewrite map_map.
    apply map_ext_in. intros [k a] Hin. simpl. symmetry. now apply Hk. }
  now rewrite E.
Qed.

(** X3. With the agents filed under their ids, [deleteGroup] returns whether
    the group existed, and afterwards no agent of the store lists the group
    any more; the agents are otherwise the same entries, and the other
    groups are untouched, also those that still name the deleted group in
    their overflow list. *)
Theorem deleteGroup_cascades
    (st : State) (h : Host) (id : string) :
  keyedById (agents st) ->
  let r := GroupService.deleteGroup st h id in
  fst r = JsMap.has id (groups st)
  /\ (forall agent', In agent' (AgentService.getAllAgents (snd r)) ->
                     ~ In id (Agent.groupIds agent'))
  /\ JsMap.keys (agents (snd r)) = JsMap.keys (agents st)
  /\ (NoDup (JsMap.keys (groups st)) -> GroupService.getGroup (snd r) id = None)
  /\ (forall other, other <> id ->
        GroupService.getGroup (snd r) other = GroupService.getGroup st other).
Proof.
  intros Hkeyed r. subst r. unfold GroupService.deleteGroup.
  destruct (deleteGroup_cascade h id (AgentService.getAllAgents st) st
              (keyedById_ids _ Hkeyed)
              (fun agent Hin => keyedById_listed _ _ Hkeyed Hin))
    as (Hg & Hk & _ & Hall).
  cbv zeta in Hg, Hk, Hall.
  set (st1 := fold_left _ (AgentService.getAllAgents st) st) in *.
  simpl. rewrite Hg.
  split; [reflexivity|]. split.
  - intros agent' Hin. unfold AgentService.getAllAgents in Hin. simpl in Hin.
    assert (Hnd1 : NoDup (JsMap.keys (agents st1)))
      by (rewrite Hk; apply Hkeyed).
    apply in_map_iff in Hin. destruct Hin as ([k a1] & E & Hin).
    simpl in E. subst a1.
    assert (Hkin : In k (JsMap.keys (agents st))).
    { rewrite <- Hk. change k with (fst (k, agent')). now apply in_map. }
    apply in_map_iff in Hkin. destruct Hkin as ([k0 a0] & E0 & Hin0).
    simpl in E0. subst k0.
    pose proof (proj1 Hkeyed _ _ Hin0) as Hid.
    assert (Hl : In a0 (AgentService.getAllAgents st)).
    { unfold AgentService.getAllAgents. change a0 with (snd (k, a0)).
      now apply in_map. }
    destruct (Hall a0 Hl) as (a' & Hget & Hnot).
    rewrite <- Hid in Hget. unfold AgentService.getAgent in Hget.
    rewrite (In_entry_get _ _ _ Hnd1 Hin) in Hget. now injection Hget as ->.
  - split; [exact Hk|]. split.
    + intros Hnd. unfold GroupService.getGroup. simpl. now apply get_remove_same.
    + intros other Hne. unfold GroupService.getGroup. simpl.
      apply get_remove_other. congruence.
Qed.

Lemma deleteGroup_cascades_witness :
  let st := run Cases.enrolled in
  let r := GroupService.deleteGroup st (Scenario.h 5000) "G" in
  keyedById (agents st)
  /\ fst r = true
  /\ (forall agent', In agent' (AgentService.getAllAgents (snd r)) ->
                     ~ In "G" (Agent.groupIds agent'))
  /\ GroupService.getGroup (snd r) "G" = None.
Proof.
  intros st r.
  assert (Hkeyed : keyedById (agents st)).
  { split.
    - intros k agent Hin. vm_compute in Hin.
      destruct Hin as [E|[E|[]]]; injection E as <- <-; reflexivity.
    - vm_compute. repeat constructor; simpl; intuition discriminate. }
  destruct (deleteGroup_cascades st (Scenario.h 5000) "G" Hkeyed)
    as (Hr & Hall & _ & Hnone & _).
  split; [exact Hkeyed|]. split; [evaluate|]. split; [exact Hall|].
  apply Hnone. vm_compute. repeat constructor; simpl; intuition discriminate.
Defined.

(** ** Group statistics *)
Lemma status_partition (l : list Agent.t) :
  List.length l
  = (List.length (filter (fun a => AgentStatus_eqb (Agent.status a) AVAILABLE) l)
     + List.length (filter (fun a => AgentStatus_eqb (Agent.status a) BUSY
                                     || AgentStatus_eqb (Agent.status a) IN_CALL) l)
     + List.length (filter (fun a => AgentStatus_eqb (Agent.status a) OFFLINE) l))%nat.
Proof.
  induction l as [|a l IH]; simpl; auto.
  destruct (Agent.status a); simpl; lia.
Qed.

(** X4. For an existing group, [updateGroupStatistics] recomputes the three
    agent counts from the agents that list the group in their own
    [groupIds] (the group's [agentIds] is not consulted): [totalAgents] is
    their number, [availableAgents] the number of AVAILABLE ones, and
    [totalAgents = availableAgents + busyAgents + offline agents], BUSY and
    IN_CALL both counting as busy. Everything else of the group, and every
    other store, is unchanged; for an unknown group nothing changes. *)
Theorem updateGroupStatistics_counts (st : State) (groupId : string) :
  let st' := GroupService.updateGroupStatistics st groupId in
  agents st' = agents st /\ calls st' = calls st /\ sent st' = sent st
  /\ (GroupService.getGroup st groupId = None -> st' = st)
  /\ (forall group,
        GroupService.getGroup st groupId = Some group ->
        exists group',
          GroupService.getGroup st' groupId = Some group'
          /\ group' = Group.with_statistics group (Group.statistics group')
          /\ GroupStatistics.totalAgents (Group.statistics group')
             = Z.of_nat (List.length (AgentService.getAgentsByGroup st groupId))
          /\ GroupStatistics.availableAgents (Group.statistics group')
             = Z.of_nat (List.length
                           (AgentService.getAvailableAgentsByGroup st groupId))
          /\ GroupStatistics.totalAgents (Group.statistics group')
             = GroupStatistics.availableAgents (Group.statistics group')
               + GroupStatistics.busyAgents (Group.statistics group')
               + Z.of_nat (List.length
                             (filter (fun a => AgentStatus_eqb (Agent.status a) OFFLINE)
                                     (AgentService.getAgentsByGroup st groupId)))
          /\ GroupStatistics.totalCalls (Group.statistics group')
             = GroupStatistics.totalCalls (Group.statistics group)
          /\ GroupStatistics.averageWaitTime (Group.statistics group')
             = GroupStatistics.averageWaitTime (Group.statistics group)
          /\ GroupStatistics.callsInQueue (Group.statistics group')
             = GroupStatistics.callsInQueue (Group.statistics group)).
Proof.
  intros st'.
  destruct (updateGroupStatistics_frame st groupId) as (Ha & Hc & Hs).
  fold st' in Ha, Hc, Hs.
  split; [exact Ha|]. split; [exact Hc|]. split; [exact Hs|].
  subst st'. unfold GroupService.updateGroupStatistics, GroupService.getGroup.
  split.
  - now intros ->.
  - intros group ->. simpl. rewrite get_set_same.
    eexists. split; [reflexivity|]. simpl.
    split; [reflexivity|]. split; [reflexivity|]. split; [reflexivity|].
    split; [|auto].
    rewrite (status_partition (AgentService.getAgentsByGroup st groupId)) at 1.
    lia.
Qed.

(** ** The phone number of a group *)
Lemma values_set_absent {V} (m : JsMap.t V) k v :
  JsMap.get k m = None -> JsMap.values (JsMap.set k v m) = (JsMap.values m ++ [v])%list.
Proof.
  induction m as [|[k' v'] m IH]; simpl; auto.
  destruct (String.eqb k k'); [discriminate|]. intros H. simpl.
  f_equal. now apply IH.
Qed.

Lemma find_app_some {A} (f : A -> bool) (l l' : list A) x :
  find f l = Some x -> find f (l ++ l') = Some x.
Proof.
  induction l as [|y l IH]; simpl; [discriminate|].
  destruct (f y); auto.
Qed.

Lemma find_app_none {A} (f : A -> bool) (l l' : list A) :
  find f l = None -> find f (l ++ l') = find f l'.
Proof.
  induction l as [|y l IH]; simpl; auto.
  destruct (f y); [discriminate | auto].
Qed.

(** X5. [createGroup] does not check that the phone number is free. Under a
    new id, the group that already answers a number keeps answering it (a
    later group with the same number is never found by
    [getGroupByPhoneNumber]), and the new group answers its own number
    exactly when no earlier group had it. *)
Theorem createGroup_first_group_keeps_number
    (st : State) (uuid : string) (request : CreateGroupRequest.t)
    (phoneNumber : string) :
  JsMap.get uuid (groups st) = None ->
  let r := GroupService.createGroup st uuid request in
  GroupService.getGroup (snd r) uuid = Some (fst r)
  /\ (forall group,
        GroupService.getGroupByPhoneNumber st phoneNumber = Some group ->
        GroupService.getGroupByPhoneNumber (snd r) phoneNumber = Some group)
  /\ (GroupService.getGroupByPhoneNumber st
        (CreateGroupRequest.phoneNumber request) = None ->
      GroupService.getGroupByPhoneNumber (snd r)
        (CreateGroupRequest.phoneNumber request) = Some (fst r)).
Proof.
  intros Hnew r. subst r. unfold GroupService.createGroup,
    GroupService.getGroup, GroupService.getGroupByPhoneNumber. simpl.
  rewrite get_set_same. split; [reflexivity|].
  rewrite (values_set_absent _ _ _ Hnew). split.
  - intros group Hfind. now apply find_app_some.
  - intros Hnone. rewrite (find_app_none _ _ _ Hnone). simpl.
    now rewrite String.eqb_refl.
Qed.

(** A second group is created with the number of G: calls to that number
    are still looked up as G. *)
Lemma createGroup_first_group_keeps_number_witness :
  let st := run Scenario.staffed in
  let r := GroupService.createGroup st "G2" (Scenario.group "+15550100") in
  GroupService.getGroup (snd r) "G2" = Some (fst r)
  /\ exists group,
       GroupService.getGroupByPhoneNumber (snd r) "+15550100" = Some group
       /\ Group.id group = "G".
Proof.
  intros st r.
  destruct (createGroup_first_group_keeps_number st "G2"
              (Scenario.group "+15550100") "+15550100")
    as (Hget & Hkeep & _); [evaluate|].
  split; [exact Hget|].
  destruct (GroupService.getGroupByPhoneNumber st "+15550100") as [group|] eqn:Hg;
    [|vm_compute in Hg; discriminate].
  exists group. split; [now apply Hkeep|].
  vm_compute in Hg. now injection Hg as <-.
Defined.




(** ** Incoming calls: direct assignment *)

(** X7. When the group of the dialled number has an available agent (agents
    filed under their ids), [handleIncomingCall] creates the call under the
    generated id, for that group, RINGING and assigned to the first
    available agent in listing order; that agent becomes IN_CALL with the
    call as its current call, the other agents and the groups are untouched,
    and exactly one notification, call_incoming to that agent, is sent. *)
Theorem handleIncomingCall_rings_first_available
    (st : State) (h : Host) (uuid phoneNumber callerNumber : string)
    (acsEventData : option ACSService.EventData.t)
    (group : Group.t) (selected : Agent.t) (others : list Agent.t) :
  agentsKeyedById st ->
  GroupService.getGroupByPhoneNumber st phoneNumber = Some group ->
  AgentService.getAvailableAgentsByGroup st (Group.id group) = selected :: others ->
  let r := CallService.handleIncomingCall st h uuid phoneNumber callerNumber
             acsEventData in
  exists call,
    fst r = Some call
    /\ CallService.getCall (snd r) uuid = Some call
    /\ Call.id call = uuid
    /\ Call.phoneNumber call = callerNumber
    /\ Call.groupId call = Group.id group
    /\ Call.status call = RINGING
    /\ Call.assignedAgentId call = Some (Agent.id selected)
    /\ Call.startTime call = now h
    /\ Call.duration call = None
    /\ (exists agent',
          AgentService.getAgent (snd r) (Agent.id selected) = Some agent'
          /\ Agent.status agent' = IN_CALL
          /\ Agent.currentCallId agent' = Some uuid)
    /\ (forall other, other <> Agent.id selected ->
          AgentService.getAgent (snd r) other = AgentService.getAgent st other)
    /\ groups (snd r) = groups st
    /\ sent (snd r)
       = (sent st ++ [notifyAgent (Agent.id selected) "call_incoming"
                        (CallData call)])%list.
Proof.
  intros Hkeys Hgroup Hav r. subst r.
  unfold CallService.handleIncomingCall. rewrite Hgroup.
  set (call := Call.mk uuid callerNumber (Group.id group) None INCOMING (now h)
                 None None None _ _).
  set (st1 := CallService.store st call).
  assert (Hin : In selected
                  (AgentService.getAvailableAgentsByGroup st (Group.id group)))
    by (rewrite Hav; now left).
  unfold AgentService.getAvailableAgentsByGroup, AgentService.getAgentsByGroup in Hin.
  apply filter_In in Hin. destruct Hin as (Hin & Hst).
  apply filter_In in Hin. destruct Hin as (Hin & _).
  apply AgentStatus_eqb_eq in Hst.
  assert (Hget1 : AgentService.getAgent st1 (Agent.id selected) = Some selected)
    by exact (Hkeys _ Hin).
  unfold CallService.assignCallToAgent.
  rewrite (getAvailableAgentsByGroup_agents st st1) by reflexivity.
  simpl Call.groupId. rewrite Hav.
  rewrite (assignCallToAgent_success st1 h _ (Call.id call) _ Hget1 Hst).
  cbv beta iota zeta. simpl fst. simpl snd.
  eexists. split; [reflexivity|].
  unfold CallService.getCall, AgentService.getAgent. simpl.
  rewrite !get_set_same.
  repeat (split; [reflexivity|]).
  split; [eexists; split; [reflexivity|]; simpl; auto|].
  split; [|auto].
  intros other Hne. apply get_set_other. congruence.
Qed.

Lemma handleIncomingCall_rings_first_available_witness :
  let st := run Scenario.staffed in
  let r := CallService.handleIncomingCall st (Scenario.h 3000) "c1"
             "+15550100" "+15550199" None in
  exists call,
    fst r = Some call
    /\ Call.status call = RINGING
    /\ Call.assignedAgentId call = Some "X"
    /\ (exists agent',
          AgentService.getAgent (snd r) "X" = Some agent'
          /\ Agent.status agent' = IN_CALL
          /\ Agent.currentCallId agent' = Some "c1")
    /\ AgentService.getAgent (snd r) "Y" = AgentService.getAgent st "Y".
Proof.
  intros st r.
  destruct (GroupService.getGroupByPhoneNumber st "+15550100") as [group|] eqn:Hg;
    [|vm_compute in Hg; discriminate].
  destruct (AgentService.getAvailableAgentsByGroup st (Group.id group))
    as [|selected others] eqn:Hav.
  { vm_compute in Hg. injection Hg as <-. vm_compute in Hav. discriminate. }
  destruct (handleIncomingCall_rings_first_available st (Scenario.h 3000) "c1"
              "+15550100" "+15550199" None group selected others
              (run_agentsKeyedById Scenario.staffed) Hg Hav)
    as (call & Hr & _ & _ & _ & _ & Hs & Has & _ & _ & Hag & Hoth & _).
  vm_compute in Hg. injection Hg as <-.
  vm_compute in Hav. injection Hav as <- _.
  exists call. split; [exact Hr|]. split; [exact Hs|]. split; [exact Has|].
  split; [exact Hag|]. apply Hoth. discriminate.
Defined.

(** ** endCall: when it is accepted and what it stamps *)

(** [endCall] on behalf of nobody is accepted as soon as the call exists and
    the gateway hangs up. *)
Lemma endCall_unattributed_accepted st h acs callId call :
  CallService.getCall st callId = Some call ->
  ACSService.endCall acs callId call = true ->
  fst (CallService.endCall st h acs callId None) = true.
Proof.
  unfold CallService.getCall, CallService.endCall. intros -> Hgw.
  simpl. rewrite Hgw. simpl.
  destruct (Call.assignedAgentId call) as [assigned|]; cbv beta iota zeta.
  - destruct (truthy (Some assigned)
              && negb (now h - Call.startTime call =? 0));
      cbv beta iota zeta;
      match goal with
      | |- context [match ?a with Some _ => _ | None => _ end] => destruct a
      end; reflexivity.
  - reflexivity.
Qed.

(** X8. [endCall] returns [true] exactly when the call exists, the caller
    (when a non-empty agent id is given) is the assigned agent, and the
    gateway hangs up; the status of the call plays no part. Whenever it
    returns [false] the state is unchanged. *)
Theorem endCall_accepted_iff
    (st : State) (h : Host) (acs : ACSService.t) (callId : string)
    (agentId : option string) :
  let r := CallService.endCall st h acs callId agentId in
  (fst r = true <->
     exists call,
       CallService.getCall st callId = Some call
       /\ (truthy agentId = true -> Call.assignedAgentId call = agentId)
       /\ ACSService.endCall acs callId call = true)
  /\ (fst r = false -> snd r = st).
Proof.
  intros r. subst r. unfold CallService.endCall, CallService.getCall.
  destruct (JsMap.get callId (calls st)) as [call|] eqn:Hget.
  2:{ simpl. split; [|auto]. split; [discriminate|].
      intros (c & Hc & _). discriminate. }
  assert (Hauth :
    truthy agentId
    && negb match agentId with
            | Some agentId' => optEq (Call.assignedAgentId call) agentId'
            | None => false
            end = false
    <-> (truthy agentId = true -> Call.assignedAgentId call = agentId)).
  { destruct agentId as [a|]; simpl.
    - destruct (negb (String.eqb a "")); simpl.
      + destruct (optEq (Call.assignedAgentId call) a) eqn:E; simpl.
        * apply optEq_eq in E. split; auto.
        * split; [discriminate|]. intros H. specialize (H eq_refl).
          apply optEq_eq in H. congruence.
      + split; [discriminate | auto].
    - split; [discriminate | auto]. }
  destruct (truthy agentId
            && negb match agentId with
                    | Some agentId' => optEq (Call.assignedAgentId call) agentId'
                    | None => false
                    end) eqn:Ha.
  { simpl. split; [|auto]. split; [discriminate|].
    intros (c & Hc & Hc1 & _). injection Hc as <-.
    apply Hauth in Hc1. congruence. }
  destruct (ACSService.endCall acs callId call) eqn:Hgw; simpl.
  2:{ split; [|auto]. split; [discriminate|].
      intros (c & Hc & _ & Hc2). injection Hc as <-. congruence. }
  assert (Hok : forall p : bool * State, fst p = true ->
            (fst p = true <->
             exists c, Some call = Some c
                       /\ (truthy agentId = true -> Call.assignedAgentId c = agentId)
                       /\ ACSService.endCall acs callId c = true)
            /\ (fst p = false -> snd p = st)).
  { intros p Hp. split; [|congruence]. split; [|auto].
    intros _. exists call. split; [reflexivity|]. split; [|exact Hgw].
    now apply Hauth. }
  apply Hok.
  destruct (Call.assignedAgentId call) as [assigned|]; cbv beta iota zeta.
  - destruct (truthy (Some assigned)
              && negb (now h - Call.startTime call =? 0));
      cbv beta iota zeta;
      match goal with
      | |- context [match ?a with Some _ => _ | None => _ end] => destruct a
      end; reflexivity.
  - reflexivity.
Qed.


(** X refuses to end a call that rings at Y's desk; nothing changes. *)
Lemma endCall_accepted_iff_witness :
  let st := run Scenario.ringing in
  let refused :=
    CallService.endCall st (Scenario.h 5000) Scenario.mockAcs "c1" (Some "Y") in
  let failed :=
    CallService.endCall st (Scenario.h 5000) Scenario.failingAcs "c9" None in
  fst refused = false /\ snd refused = st
  /\ fst failed = false /\ snd failed = st.
Proof.
  intros st refused failed.
  destruct (endCall_accepted_iff st (Scenario.h 5000) Scenario.mockAcs "c1"
              (Some "Y")) as (_ & H1).
  destruct (endCall_accepted_iff st (Scenario.h 5000) Scenario.failingAcs "c9"
              None) as (_ & H2).
  split; [evaluate|]. split; [apply H1; evaluate|].
  split; [evaluate|]. apply H2; evaluate.
Defined.

(** X9. A call that was ended stays on the record of its agent: after a
    successful [endCall] the call is ENDED, stamped with the end time and
    the time since its start, still names the agent it was assigned to and
    is still among the calls of that agent, and it is no longer among the
    active calls. *)
Theorem endCall_call_stays_with_agent
    (st : State) (h : Host) (acs : ACSService.t) (callId : string)
    (agentId : option string) (call : Call.t) (assigned : string) :
  CallService.getCall st callId = Some call ->
  Call.assignedAgentId call = Some assigned ->
  let r := CallService.endCall st h acs callId agentId in
  fst r = true ->
  exists call',
    CallService.getCall (snd r) callId = Some call'
    /\ Call.status call' = ENDED
    /\ Call.endTime call' = Some (now h)
    /\ Call.duration call' = Some (now h - Call.startTime call)
    /\ In call' (CallService.getCallsByAgent (snd r) assigned)
    /\ ~ In call' (CallService.getActiveCalls (snd r)).
Proof.
  intros Hcall Hassigned r Hok.
  destruct (endCall_keeps_assignedAgentId st h acs callId agentId call Hcall Hok)
    as (call' & Hget & Hs & Ha & He & Hd).
  exists call'. repeat (split; [assumption|]). fold r in Hget. split.
  - unfold CallService.getCallsByAgent. apply filter_In. split.
    + exact (get_In _ _ _ Hget).
    + apply optEq_eq. congruence.
  - unfold CallService.getActiveCalls. rewrite filter_In. intros (_ & Hactive).
    rewrite Hs in Hactive. discriminate.
Qed.

(** The ringing call of X, ended after six seconds. *)
Lemma endCall_call_stays_with_agent_witness :
  let st := run Scenario.ringing in
  let r := CallService.endCall st (Scenario.h 9000) Scenario.mockAcs "c1" None in
  exists call',
    CallService.getCall (snd r) "c1" = Some call'
    /\ Call.status call' = ENDED
    /\ Call.duration call' = Some 6000
    /\ In call' (CallService.getCallsByAgent (snd r) "X")
    /\ CallService.getActiveCalls (snd r) = [].
Proof.
  intros st r.
  destruct (CallService.getCall st "c1") as [call|] eqn:Hc;
    [|vm_compute in Hc; discriminate].
  destruct (endCall_call_stays_with_agent st (Scenario.h 9000) Scenario.mockAcs
              "c1" None call "X" Hc)
    as (call' & Hget & Hs & He & Hd & Hlisted & _).
  - vm_compute in Hc. now injection Hc as <-.
  - evaluate.
  - vm_compute in Hc. injection Hc as <-.
    exists call'. split; [exact Hget|]. split; [exact Hs|].
    split; [exact Hd|]. split; [exact Hlisted | evaluate].
Defined.

(** X10. A call that is ended in the millisecond it started, or that has no
    assigned agent, is marked ENDED without any release: the agent store is
    left exactly as it was, so an agent the call was ringing at stays
    IN_CALL on the ended call. *)
Theorem endCall_zero_duration_keeps_agent
    (st : State) (h : Host) (acs : ACSService.t) (callId : string)
    (agentId : option string) (call : Call.t) :
  CallService.getCall st callId = Some call ->
  Call.assignedAgentId call = None \/ now h = Call.startTime call ->
  let r := CallService.endCall st h acs callId agentId in
  fst r = true ->
  agents (snd r) = agents st
  /\ exists call',
       CallService.getCall (snd r) callId = Some call'
       /\ Call.status call' = ENDED.
Proof.
  intros Hcall Hcase r Hok.
  destruct (endCall_keeps_assignedAgentId st h acs callId agentId call Hcall Hok)
    as (call' & Hget & Hs & _).
  split; [|eauto].
  subst r. unfold CallService.endCall in *.
  unfold CallService.getCall in Hcall. rewrite Hcall in *.
  match goal with |- context [if ?b then (false, st) else _] => destruct b end;
    [reflexivity|].
  destruct (negb (ACSService.endCall acs callId call)); [reflexivity|].
  destruct (Call.assignedAgentId call) as [assigned|] eqn:Ha; cbv beta iota zeta.
  - destruct Hcase as [Hcase|Hcase]; [discriminate|].
    assert (Hz : (now h - Call.startTime call =? 0) = true)
      by (apply Z.eqb_eq; lia).
    rewrite Hz, andb_false_r. cbv beta iota zeta.
    match goal with
    | |- context [match ?a with Some _ => _ | None => _ end] => destruct a
    end; simpl; now rewrite updateGroupStatistics_agents.
  - simpl. now rewrite updateGroupStatistics_agents.
Qed.

(** The call c1 starts ringing at X at t = 3000 and is ended at t = 3000. *)
Lemma endCall_zero_duration_keeps_agent_witness :
  let st := run Scenario.ringing in
  let r := CallService.endCall st (Scenario.h 3000) Scenario.mockAcs "c1"
             (Some "X") in
  fst r = true
  /\ agents (snd r) = agents st
  /\ (exists call', CallService.getCall (snd r) "c1" = Some call'
                    /\ Call.status call' = ENDED)
  /\ exists agent, AgentService.getAgent (snd r) "X" = Some agent
                   /\ Agent.status agent = IN_CALL
                   /\ Agent.currentCallId agent = Some "c1".
Proof.
  intros st r.
  destruct (CallService.getCall st "c1") as [call|] eqn:Hc;
    [|vm_compute in Hc; discriminate].
  assert (Hok : fst r = true) by evaluate.
  destruct (endCall_zero_duration_keeps_agent st (Scenario.h 3000)
              Scenario.mockAcs "c1" (Some "X") call Hc) as (Hag & Hcall).
  { right. vm_compute in Hc. injection Hc as <-. reflexivity. }
  { exact Hok. }
  split; [exact Hok|]. split; [exact Hag|]. split; [exact Hcall|].
  evaluate_all.
Defined.

(** X11. [transferCall] returns [true] exactly when the call exists, names
    [fromAgentId] as its agent, and the target agent exists and is
    AVAILABLE; whenever it returns [false] the state is unchanged. *)
Theorem transferCall_accepted_iff
    (st : State) (h : Host) (callId fromAgentId toAgentId : string) :
  let r := CallService.transferCall st h callId fromAgentId toAgentId in
  (fst r = true <->
     exists call toAgent,
       CallService.getCall st callId = Some call
       /\ Call.assignedAgentId call = Some fromAgentId
       /\ AgentService.getAgent st toAgentId = Some toAgent
       /\ Agent.status toAgent = AVAILABLE)
  /\ (fst r = false -> snd r = st).
Proof.
  intros r.
  destruct (CallService.getCall st callId) as [call|] eqn:Hcall.
  2:{ assert (Hr : r = (false, st)).
      { subst r. unfold CallService.transferCall.
        unfold CallService.getCall in Hcall. now rewrite Hcall. }
      rewrite Hr. simpl. split; [|auto]. split; [discriminate|].
      intros (c & t & Hc & _). discriminate. }
  destruct (AgentService.getAgent st toAgentId) as [toAgent|] eqn:Hto.
  2:{ assert (Hr : r = (false, st)).
      { subst r. unfold CallService.transferCall.
        unfold CallService.getCall in Hcall. now rewrite Hcall, Hto. }
      rewrite Hr. simpl. split; [|auto]. split; [discriminate|].
      intros (c & t & _ & _ & Ht & _). discriminate. }
  destruct (optEq (Call.assignedAgentId call) fromAgentId) eqn:Hfrom.
  - destruct (AgentStatus_eqb (Agent.status toAgent) AVAILABLE) eqn:Hav.
    + apply optEq_eq in Hfrom. apply AgentStatus_eqb_eq in Hav.
      destruct (transferCall_reserves_target st h callId fromAgentId toAgentId
                  call toAgent Hcall Hfrom Hto Hav) as (Hok & _).
      fold r in Hok. split; [|congruence].
      split; [intros _; eauto 6 | auto].
    + assert (Hr : r = (false, st)).
      { subst r. unfold CallService.transferCall.
        unfold CallService.getCall in Hcall.
        now rewrite Hcall, Hto, Hfrom, Hav. }
      rewrite Hr. simpl. split; [|auto]. split; [discriminate|].
      intros (c & t & _ & _ & Ht & Hs). injection Ht as <-.
      apply AgentStatus_eqb_eq in Hs. congruence.
  - assert (Hr : r = (false, st)).
    { subst r. unfold CallService.transferCall.
      unfold CallService.getCall in Hcall. now rewrite Hcall, Hto, Hfrom. }
    rewrite Hr. simpl. split; [|auto]. split; [discriminate|].
    intros (c & t & Hc & Hf & _). injection Hc as <-.
    apply optEq_eq in Hf. congruence.
Qed.

(** Y, who is not the agent of c1, cannot hand it over; X cannot hand it to
    itself while IN_CALL. *)
Lemma transferCall_accepted_iff_witness :
  let st := run Scenario.ringing in
  let r1 := CallService.transferCall st (Scenario.h 5000) "c1" "Y" "X" in
  let r2 := CallService.transferCall st (Scenario.h 5000) "c1" "X" "X" in
  fst r1 = false /\ snd r1 = st /\ fst r2 = false /\ snd r2 = st.
Proof.
  intros st r1 r2.
  destruct (transferCall_accepted_iff st (Scenario.h 5000) "c1" "Y" "X")
    as (_ & H1).
  destruct (transferCall_accepted_iff st (Scenario.h 5000) "c1" "X" "X")
    as (_ & H2).
  split; [evaluate|]. split; [apply H1; evaluate|].
  split; [evaluate|]. apply H2; evaluate.
Defined.

(** ** The telephony gateway *)
Lemma prefix_app p s t : String.prefix p s = true -> String.prefix p (s ++ t) = true.
Proof.
  revert s. induction p as [|a p IH]; intros s.
  - intros _. now destruct (s ++ t).
  - destruct s as [|b s]; simpl; [intros H; discriminate H|].
    destruct (ascii_dec a b); auto.
Qed.

Lemma includes_app s t p : includes s p = true -> includes (s ++ t) p = true.
Proof.
  induction s as [|a s IH]; simpl.
  - intros H. destruct p; simpl in H; [|discriminate].
    destruct t; reflexivity.
  - intros H. apply orb_true_iff in H. apply orb_true_iff.
    destruct H as [H|H]; [left | right; auto].
    exact (prefix_app p (String a s) t H).
Qed.

(** X12. With a client configured but no public callback address (none
    configured, or one that contains localhost or 127.0.0.1), [answerCall]
    never reaches the SDK: for a call with an incoming context it succeeds,
    sends nothing, and files the connection id mock-connection-<clock> on
    the call. [endCall] on that call then succeeds without the SDK,
    whatever the gateway would answer. *)
Theorem answerCall_development_round_trip
    (acs acs' : ACSService.t) (h : Host) (callId : string) (call : Call.t)
    (agentUserId agentId : option string) :
  ACSService.callAutomationClient acs = true ->
  truthy (Call.acsIncomingCallContext call) = true ->
  match ACSService.ACS_CALLBACK_BASE_URL acs with
  | None => True
  | Some base =>
      base = "" \/ includes base "localhost" = true
      \/ includes base "127.0.0.1" = true
  end ->
  let r := ACSService.answerCall acs h callId call agentUserId agentId in
  r = (true,
       Call.with_acsCallConnectionId call
         (Some ("mock-connection-" ++ numberToString (now h))),
       [])
  /\ ACSService.endCall acs' callId (snd (fst r)) = true.
Proof.
  intros Hclient Hctx Hurl r.
  assert (Hr : r = (true,
                    Call.with_acsCallConnectionId call
                      (Some ("mock-connection-" ++ numberToString (now h))),
                    [])).
  { subst r. unfold ACSService.answerCall. rewrite Hclient, Hctx. simpl negb.
    cbv iota.
    assert (Hlocal :
      let callbackUrl :=
        match orElse (ACSService.ACS_CALLBACK_BASE_URL acs)
                (Some "http://localhost:3001") with
        | Some base => base
        | None => "undefined"
        end ++ "/api/calls/events" in
      includes callbackUrl "localhost" || includes callbackUrl "127.0.0.1" = true).
    { destruct (ACSService.ACS_CALLBACK_BASE_URL acs) as [base|]; [|reflexivity].
      destruct Hurl as [->|[H|H]]; [reflexivity| |].
      - unfold orElse. simpl truthy.
        destruct (negb (String.eqb base "")); [|reflexivity].
        cbv zeta. now rewrite (includes_app _ _ _ H).
      - unfold orElse. simpl truthy.
        destruct (negb (String.eqb base "")); [|reflexivity].
        cbv zeta. rewrite (includes_app _ _ _ H). apply orb_true_r. }
    cbv zeta in Hlocal. now rewrite Hlocal. }
  split; [exact Hr|]. rewrite Hr. simpl fst. simpl snd.
  unfold ACSService.endCall.
  destruct (negb (ACSService.callAutomationClient acs')); [reflexivity|].
  unfold startsWith. simpl.
  generalize (numberToString (now h)). intros n. now destruct n.
Qed.

Lemma answerCall_development_round_trip_witness :
  let call := Call.mk "c1" "+15550199" "G" (Some "X") RINGING 3000 None None
                None None (Some "ctx-1") in
  let r := ACSService.answerCall Cases.devAcs (Scenario.h 4000) "c1" call
             (Some "acs-user-x") (Some "X") in
  r = (true, Call.with_acsCallConnectionId call (Some "mock-connection-4000"), [])
  /\ ACSService.endCall Scenario.failingAcs "c1" (snd (fst r)) = true.
Proof.
  intros call r.
  apply (answerCall_development_round_trip Cases.devAcs Scenario.failingAcs
           (Scenario.h 4000) "c1" call (Some "acs-user-x") (Some "X"));
    [reflexivity | reflexivity | exact I].
Defined.

(** X13. The gateway's [endCall] reports failure in one situation only: a
    client is configured, the call carries a real (non-empty, non-mock)
    connection id, and hanging up throws something other than an Error that
    mentions "Call not found" or 8522 (by message or code). In particular a
    connection that is already gone counts as ended. *)
Theorem ACSService_endCall_fails_iff
    (acs : ACSService.t) (callId : string) (call : Call.t) :
  ACSService.endCall acs callId call = false <->
  ACSService.callAutomationClient acs = true
  /\ exists connectionId isError message code,
       Call.acsCallConnectionId call = Some connectionId
       /\ connectionId <> ""
       /\ startsWith connectionId "mock-connection-" = false
       /\ ACSService.sdkHangUp acs = ACSService.HangUpThrows isError message code
       /\ (isError = false
           \/ (includes message "Call not found" = false
               /\ includes message "8522" = false
               /\ code <> Some "8522")).
Proof.
  unfold ACSService.endCall.
  destruct (ACSService.callAutomationClient acs); simpl.
  2:{ split; [discriminate|]. intros (H & _). discriminate. }
  destruct (Call.acsCallConnectionId call) as [connectionId|].
  2:{ split; [discriminate|]. intros (_ & c & _ & _ & _ & H & _). discriminate. }
  simpl. destruct (String.eqb connectionId "") eqn:Hempty; simpl.
  { apply String.eqb_eq in Hempty. split; [discriminate|].
    intros (_ & c & _ & _ & _ & H & Hne & _). injection H as <-. congruence. }
  apply String.eqb_neq in Hempty.
  destruct (startsWith connectionId "mock-connection-") eqn:Hmock.
  { split; [discriminate|].
    intros (_ & c & _ & _ & _ & H & _ & Hm & _). injection H as <-. congruence. }
  destruct (ACSService.sdkHangUp acs) as [|isError message code].
  { split; [discriminate|].
    intros (_ & c & e & m & k & _ & _ & _ & H & _). discriminate. }
  split.
  - intros H. split; [reflexivity|].
    exists connectionId, isError, message, code.
    repeat (split; [auto|]).
    destruct isError; [right | now left].
    simpl in H. apply orb_false_elim in H. destruct H as (H & H3).
    apply orb_false_elim in H. destruct H as (H1 & H2).
    repeat split; auto. intros E. apply optEq_eq in E. congruence.
  - intros (_ & c & e & m & k & _ & _ & _ & H & Hcase).
    injection H as <- <- <-.
    destruct Hcase as [->|(H1 & H2 & H3)]; [reflexivity|].
    rewrite H1, H2. simpl.
    destruct (optEq code "8522") eqn:E; [|apply andb_false_r].
    apply optEq_eq in E. congruence.
Qed.

(** X14. [answerCall] of the gateway changes nothing of the call but its
    connection id; it sends at most one notification, and only to the
    answering agent. When it fails it has changed and sent nothing. *)
Theorem ACSService_answerCall_frame
    (acs : ACSService.t) (h : Host) (callId : string) (call : Call.t)
    (agentUserId agentId : option string) :
  let r := ACSService.answerCall acs h callId call agentUserId agentId in
  (exists connectionId,
     snd (fst r) = Call.with_acsCallConnectionId call connectionId)
  /\ (List.length (snd r) <= 1)%nat
  /\ (forall event, In event (snd r) ->
        exists agentId' data,
          agentId = Some agentId'
          /\ event = notifyAgent agentId' "acs_call_transfer_incoming" data)
  /\ (fst (fst r) = false -> r = (false, call, [])).
Proof.
  intros r.
  assert (Hsame : call = Call.with_acsCallConnectionId call
                           (Call.acsCallConnectionId call))
    by (now destruct call).
  split; [|split; [|split]].
  - subst r. unfold ACSService.answerCall, ACSService.transferCallToAgent.
    repeat match goal with
           | |- context [if ?b then _ else _] => destruct b
           | |- context [match ?x with _ => _ end] => destruct x
           end; simpl; eauto.
  - subst r. unfold ACSService.answerCall, ACSService.transferCallToAgent.
    repeat match goal with
           | |- context [if ?b then _ else _] => destruct b
           | |- context [match ?x with _ => _ end] => destruct x
           end; simpl; lia.
  - subst r. unfold ACSService.answerCall, ACSService.transferCallToAgent.
    repeat match goal with
           | |- context [if ?b then _ else _] => destruct b
           | |- context [match ?x with _ => _ end] => destruct x
           end; simpl; intros event Hin;
      try contradiction; destruct Hin as [<-|[]]; eauto.
  - apply ACSService_answerCall_failure.
Qed.

(** ** Call-automation events *)
Section MutateFirst.
Context {V : Type}.
Variables (p : V -> bool) (f : V -> V).

Lemma mutateFirst_none (m : JsMap.t V) :
  find p (JsMap.values m) = None -> JsMap.mutateFirst p f m = m.
Proof.
  induction m as [|[k v] m IH]; simpl; auto.
  destruct (p v); [discriminate|]. intros H. now rewrite IH.
Qed.

Lemma mutateFirst_keys (m : JsMap.t V) :
  JsMap.keys (JsMap.mutateFirst p f m) = JsMap.keys m.
Proof.
  induction m as [|[k v] m IH]; simpl; auto.
  destruct (p v); simpl; auto. f_equal. exact IH.
Qed.

Lemma find_mutateFirst_kept (m : JsMap.t V) v :
  find p (JsMap.values m) = Some v -> p (f v) = true ->
  find p (JsMap.values (JsMap.mutateFirst p f m)) = Some (f v).
Proof.
  induction m as [|[k v0] m IH]; simpl; [discriminate|].
  destruct (p v0) eqn:E; simpl.
  - intros H Hf. injection H as <-. now rewrite Hf.
  - rewrite E. auto.
Qed.

Lemma filter_mutateFirst_dropped (m : JsMap.t V) :
  (forall v, p (f v) = false) ->
  filter p (JsMap.values (JsMap.mutateFirst p f m))
  = tl (filter p (JsMap.values m)).
Proof.
  intros Hf. induction m as [|[k v] m IH]; simpl; auto.
  destruct (p v) eqn:E; simpl.
  - now rewrite Hf.
  - now rewrite E.
Qed.

Lemma mutateFirst_values (m : JsMap.t V) :
  Forall2 (fun v v' => v' = v \/ v' = f v)
          (JsMap.values m) (JsMap.values (JsMap.mutateFirst p f m)).
Proof.
  induction m as [|[k v] m IH]; simpl; [constructor|].
  destruct (p v); simpl; constructor; auto.
  clear. induction m as [|[k v] m IH]; simpl; constructor; auto.
Qed.
End MutateFirst.

Lemma find_filter_nil {A} (p : A -> bool) (l : list A) :
  filter p l = [] -> find p l = None.
Proof.
  induction l as [|x l IH]; simpl; auto.
  destruct (p x); [discriminate | auto].
Qed.

Lemma find_set_keyed (p : Call.t -> bool) (m : JsMap.t Call.t) call call' :
  (forall k c, In (k, c) m -> k = Call.id c) ->
  find p (JsMap.values m) = Some call ->
  p call' = true ->
  find p (JsMap.values (JsMap.set (Call.id call) call' m)) = Some call'.
Proof.
  intros Hk Hfind Hp. induction m as [|[k0 c0] m IH]; simpl in *; [discriminate|].
  assert (E0 : k0 = Call.id c0) by (apply Hk; now left).
  destruct (p c0) eqn:E.
  - injection Hfind as <-. rewrite E0, String.eqb_refl. simpl. now rewrite Hp.
  - destruct (String.eqb (Call.id call) k0); simpl.
    + now rewrite Hp.
    + rewrite E. apply IH; auto.
Qed.

Lemma callsKeyedById_found m p call :
  callsKeyedById m -> find p (JsMap.values m) = Some call ->
  JsMap.get (Call.id call) m = Some call.
Proof.
  intros (Hk & Hnd) Hfind. apply find_some in Hfind. destruct Hfind as (Hin & _).
  apply in_map_iff in Hin. destruct Hin as ([k c] & E & Hin). simpl in E. subst c.
  rewrite <- (Hk _ _ Hin). now apply In_entry_get.
Qed.

(** The call map after a successful [endCall]. *)
Lemma endCall_calls st h acs callId agentId call :
  CallService.getCall st callId = Some call ->
  let r := CallService.endCall st h acs callId agentId in
  fst r = true ->
  exists call',
    calls (snd r) = JsMap.set callId call' (calls st)
    /\ Call.status call' = ENDED
    /\ Call.id call' = Call.id call
    /\ Call.acsCallConnectionId call' = Call.acsCallConnectionId call.
Proof.
  intros Hcall r. subst r. unfold CallService.endCall.
  unfold CallService.getCall in *. rewrite Hcall.
  match goal with |- context [if ?b then (false, st) else _] => destruct b end;
    [discriminate|].
  destruct (negb (ACSService.endCall acs callId call)); [discriminate|].
  intros _.
  destruct (Call.assignedAgentId call) as [assigned|] eqn:Has;
    cbv beta iota zeta.
  - destruct (truthy (Some assigned)
              && negb (now h - Call.startTime call =? 0));
      cbv beta iota zeta;
      match goal with
      | |- context [match ?a with Some _ => _ | None => _ end] => destruct a
      end; simpl; rewrite updateGroupStatistics_calls; simpl;
      rewrite ?releaseAgentFromCall_calls;
      eexists; (split; [reflexivity|]); simpl; auto.
  - simpl. rewrite updateGroupStatistics_calls. simpl.
    eexists. split; [reflexivity|]. simpl. auto.
Qed.

(** A disconnect event for a connection that no call carries, or whose
    call is ENDED, changes nothing. *)
Lemma handleCallDisconnectedEvent_no_live_call st h acs eventData c :
  CallController.EventData.callConnectionId eventData = Some c ->
  CallService.findCallByACSConnectionId st c = None
  \/ (exists call,
        CallService.findCallByACSConnectionId st c = Some call
        /\ Call.status call = ENDED) ->
  CallController.handleCallDisconnectedEvent st h acs eventData = st.
Proof.
  unfold CallController.handleCallDisconnectedEvent.
  intros Hc [H|(call & H & Hs)];
    destruct (CallController.isTransferDisconnect eventData); auto.
  - rewrite Hc, H. now destruct (truthy (Some c)).
  - rewrite Hc, H, Hs. now destruct (truthy (Some c)).
Qed.

(** X15. A disconnect event is ignored, leaving the state exactly as it was,
    when it reports a completed transfer (by message or by subcode 7015),
    when it names no connection, when no call carries the connection, or
    when the call that carries it is already ENDED. *)
Theorem handleCallDisconnectedEvent_ignored
    (st : State) (h : Host) (acs : ACSService.t)
    (eventData : CallController.EventData.t) :
  CallController.isTransferDisconnect eventData = true
  \/ truthy (CallController.EventData.callConnectionId eventData) = false
  \/ (exists callConnectionId,
        CallController.EventData.callConnectionId eventData = Some callConnectionId
        /\ (CallService.findCallByACSConnectionId st callConnectionId = None
            \/ exists call,
                 CallService.findCallByACSConnectionId st callConnectionId
                 = Some call
                 /\ Call.status call = ENDED)) ->
  CallController.handleCallDisconnectedEvent st h acs eventData = st.
Proof.
  intros [H|[H|(c & Hc & Hcase)]].
  - unfold CallController.handleCallDisconnectedEvent. now rewrite H.
  - unfold CallController.handleCallDisconnectedEvent.
    destruct (CallController.isTransferDisconnect eventData); auto.
    rewrite H. now destruct (CallController.EventData.callConnectionId eventData).
  - exact (handleCallDisconnectedEvent_no_live_call st h acs eventData c Hc Hcase).
Qed.


Lemma handleCallDisconnectedEvent_ignored_witness :
  let st := run Cases.connected in
  CallController.handleCallDisconnectedEvent st (Scenario.h 9000) Cases.liveAcs
    (Cases.eventData "conn-1" (Some 7015)) = st
  /\ CallController.handleCallDisconnectedEvent st (Scenario.h 9000) Cases.liveAcs
       (Cases.eventData "conn-9" None) = st.
Proof.
  intros st. split.
  - apply handleCallDisconnectedEvent_ignored. left. evaluate.
  - apply handleCallDisconnectedEvent_ignored. right. right.
    exists "conn-9". split; [reflexivity|]. left. evaluate.
Defined.

(** X16. The event path ends a call once. With the calls filed under their
    ids, a genuine disconnect event for a connection whose call is not ENDED
    and whose hang-up succeeds ends that call; the same event delivered
    again, at any later time and whatever the gateway then answers, finds
    the call ENDED and changes nothing. *)
Theorem handleCallDisconnectedEvent_once
    (st : State) (h h' : Host) (acs acs' : ACSService.t)
    (eventData : CallController.EventData.t) (callConnectionId : string)
    (call : Call.t) :
  callsKeyedById (calls st) ->
  CallController.isTransferDisconnect eventData = false ->
  CallController.EventData.callConnectionId eventData = Some callConnectionId ->
  callConnectionId <> "" ->
  CallService.findCallByACSConnectionId st callConnectionId = Some call ->
  Call.status call <> ENDED ->
  ACSService.endCall acs (Call.id call) call = true ->
  let st1 := CallController.handleCallDisconnectedEvent st h acs eventData in
  st1 = snd (CallService.endCall st h acs (Call.id call) None)
  /\ (exists call',
        CallService.findCallByACSConnectionId st1 callConnectionId = Some call'
        /\ CallService.getCall st1 (Call.id call) = Some call'
        /\ Call.status call' = ENDED)
  /\ CallController.handleCallDisconnectedEvent st1 h' acs' eventData = st1.
Proof.
  intros Hkeyed Htr Hconn Hne Hfind Hlive Hgw st1.
  assert (Ht : truthy (Some callConnectionId) = true).
  { simpl. now rewrite (proj2 (String.eqb_neq _ _) Hne). }
  assert (Hst1 : st1 = snd (CallService.endCall st h acs (Call.id call) None)).
  { subst st1. unfold CallController.handleCallDisconnectedEvent.
    rewrite Htr, Hconn, Ht, Hfind.
    destruct (CallStatus_eqb (Call.status call) ENDED) eqn:E; [|reflexivity].
    apply CallStatus_eqb_eq in E. congruence. }
  assert (Hget : CallService.getCall st (Call.id call) = Some call)
    by exact (callsKeyedById_found _ _ _ Hkeyed Hfind).
  assert (Hok : fst (CallService.endCall st h acs (Call.id call) None) = true).
  { exact (endCall_unattributed_accepted st h acs (Call.id call) call Hget Hgw). }
  destruct (endCall_calls st h acs (Call.id call) None call Hget Hok)
    as (call' & Hcalls & Hs & Hid & Hc).
  assert (Hfind1 : CallService.findCallByACSConnectionId st1 callConnectionId
                   = Some call').
  { unfold CallService.findCallByACSConnectionId. rewrite Hst1, Hcalls.
    apply find_set_keyed; [apply Hkeyed | exact Hfind |].
    rewrite Hc. unfold CallService.findCallByACSConnectionId in Hfind.
    apply find_some in Hfind. apply Hfind. }
  split; [exact Hst1|]. split.
  - exists call'. split; [exact Hfind1|]. split; [|exact Hs].
    unfold CallService.getCall. rewrite Hst1, Hcalls. apply get_set_same.
  - apply (handleCallDisconnectedEvent_no_live_call _ _ _ _ _ Hconn).
    right. eauto.
Qed.

(** The answered call c1 holds connection conn-1; its disconnect event ends
    it, and the same event again changes nothing although the gateway now
    fails. *)
Lemma handleCallDisconnectedEvent_once_witness :
  let st := run Cases.connected in
  let st1 := CallController.handleCallDisconnectedEvent st (Scenario.h 9000)
               Cases.liveAcs (Cases.eventData "conn-1" None) in
  (exists call',
     CallService.getCall st1 "c1" = Some call' /\ Call.status call' = ENDED)
  /\ (exists agent, AgentService.getAgent st1 "X" = Some agent
                    /\ Agent.status agent = AVAILABLE)
  /\ CallController.handleCallDisconnectedEvent st1 (Scenario.h 9500)
       Scenario.failingAcs (Cases.eventData "conn-1" None) = st1.
Proof.
  intros st st1.
  assert (Hkeyed : callsKeyedById (calls st)).
  { split.
    - intros k c Hin. vm_compute in Hin.
      destruct Hin as [E|[]]; injection E as <- <-; reflexivity.
    - vm_compute. repeat constructor; simpl; intuition discriminate. }
  destruct (CallService.findCallByACSConnectionId st "conn-1") as [call|] eqn:Hf;
    [|vm_compute in Hf; discriminate].
  assert (Hcall : Call.id call = "c1" /\ Call.status call <> ENDED
                  /\ ACSService.endCall Cases.liveAcs (Call.id call) call = true).
  { vm_compute in Hf. injection Hf as <-.
    split; [reflexivity|]. split; [discriminate | reflexivity]. }
  destruct Hcall as (Hid & Hlive & Hgw).
  destruct (handleCallDisconnectedEvent_once st (Scenario.h 9000)
              (Scenario.h 9500) Cases.liveAcs Scenario.failingAcs
              (Cases.eventData "conn-1" None) "conn-1" call Hkeyed)
    as (_ & (call' & _ & Hget & Hs) & Hagain);
    [reflexivity | reflexivity | discriminate | exact Hf | exact Hlive | exact Hgw |].
  fold st1 in Hget, Hagain. rewrite Hid in Hget.
  split; [eauto|]. split; [evaluate_all | exact Hagain].
Defined.

(** X17. A transfer event (accepted or failed alike) clears the connection
    id of the first call that carries the connection, and of no other call;
    statuses, assigned agents, agents and groups are untouched and nothing
    is sent. When that call was the only one carrying the connection, a
    later disconnect event for the connection finds no call and changes
    nothing. *)
Theorem handleCallTransferEvent_detaches
    (st : State) (eventData : CallController.EventData.t)
    (callConnectionId : string) :
  CallController.EventData.callConnectionId eventData = Some callConnectionId ->
  callConnectionId <> "" ->
  let st' := CallController.handleCallTransferEvent st eventData in
  agents st' = agents st /\ groups st' = groups st /\ sent st' = sent st
  /\ JsMap.keys (calls st') = JsMap.keys (calls st)
  /\ Forall2 (fun call call' =>
                Call.status call' = Call.status call
                /\ Call.assignedAgentId call' = Call.assignedAgentId call
                /\ Call.id call' = Call.id call)
             (JsMap.values (calls st)) (JsMap.values (calls st'))
  /\ filter (CallController.hasConnection callConnectionId)
            (JsMap.values (calls st'))
     = tl (filter (CallController.hasConnection callConnectionId)
                  (JsMap.values (calls st)))
  /\ ((List.length (filter (CallController.hasConnection callConnectionId)
                      (JsMap.values (calls st))) <= 1)%nat ->
      CallService.findCallByACSConnectionId st' callConnectionId = None
      /\ forall h acs,
           CallController.handleCallDisconnectedEvent st' h acs eventData = st').
Proof.
  intros Hconn Hne st'.
  assert (Ht : truthy (Some callConnectionId) = true).
  { simpl. now rewrite (proj2 (String.eqb_neq _ _) Hne). }
  assert (Hst' : st' = with_calls st
                   (JsMap.mutateFirst (CallController.hasConnection callConnectionId)
                      (fun call => Call.with_acsCallConnectionId call None)
                      (calls st))).
  { subst st'. unfold CallController.handleCallTransferEvent.
    now rewrite Hconn, Ht. }
  rewrite Hst'. simpl.
  split; [reflexivity|]. split; [reflexivity|]. split; [reflexivity|].
  split; [apply mutateFirst_keys|]. split.
  { eapply Forall2_impl; [|apply mutateFirst_values].
    intros c c' [->| ->]; simpl; auto. }
  assert (Hdrop : filter (CallController.hasConnection callConnectionId)
                    (JsMap.values
                       (JsMap.mutateFirst
                          (CallController.hasConnection callConnectionId)
                          (fun call => Call.with_acsCallConnectionId call None)
                          (calls st)))
                  = tl (filter (CallController.hasConnection callConnectionId)
                               (JsMap.values (calls st))))
    by (apply filter_mutateFirst_dropped; reflexivity).
  split; [exact Hdrop|].
  intros Hone.
  assert (Hnone : CallService.findCallByACSConnectionId
                    (with_calls st
                       (JsMap.mutateFirst
                          (CallController.hasConnection callConnectionId)
                          (fun call => Call.with_acsCallConnectionId call None)
                          (calls st))) callConnectionId = None).
  { unfold CallService.findCallByACSConnectionId. simpl.
    change (find (CallController.hasConnection callConnectionId)
              (JsMap.values
                 (JsMap.mutateFirst
                    (CallController.hasConnection callConnectionId)
                    (fun call => Call.with_acsCallConnectionId call None)
                    (calls st))) = None).
    apply find_filter_nil. rewrite Hdrop.
    destruct (filter (CallController.hasConnection callConnectionId)
                (JsMap.values (calls st))) as [|x [|y l]]; auto.
    simpl in Hone. lia. }
  split; [exact Hnone|]. intros h acs.
  apply (handleCallDisconnectedEvent_no_live_call _ _ _ _ _ Hconn). now left.
Qed.

(** After the transfer of the answered call c1 is confirmed, the disconnect
    of its server-side connection no longer ends it. *)
Lemma handleCallTransferEvent_detaches_witness :
  let st := run Cases.connected in
  let st' := CallController.handleCallTransferEvent st
               (Cases.eventData "conn-1" None) in
  CallService.findCallByACSConnectionId st' "conn-1" = None
  /\ CallController.handleCallDisconnectedEvent st' (Scenario.h 9000)
       Cases.liveAcs (Cases.eventData "conn-1" None) = st'
  /\ exists call, CallService.getCall st' "c1" = Some call
                  /\ Call.status call = CONNECTED
                  /\ Call.acsCallConnectionId call = None.
Proof.
  intros st st'.
  destruct (handleCallTransferEvent_detaches st (Cases.eventData "conn-1" None)
              "conn-1" eq_refl) as (_ & _ & _ & _ & _ & _ & Hone);
    [discriminate|].
  destruct Hone as (Hnone & Hdis); [vm_compute; lia|].
  split; [exact Hnone|]. split; [apply Hdis|]. evaluate_all.
Defined.

(** X18. A connected event marks the first call that carries the connection
    as CONNECTED whatever its status was, also when it was ENDED, and
    broadcasts call_connected with it; it touches no agent, no group and no
    other field of the call. Without such a call nothing happens. *)
Theorem handleCallConnectedEvent_forces_connected
    (st : State) (eventData : CallController.EventData.t)
    (callConnectionId : string) :
  CallController.EventData.callConnectionId eventData = Some callConnectionId ->
  callConnectionId <> "" ->
  let st' := CallController.handleCallConnectedEvent st eventData in
  agents st' = agents st /\ groups st' = groups st
  /\ (CallService.findCallByACSConnectionId st callConnectionId = None ->
      st' = st)
  /\ (forall call,
        CallService.findCallByACSConnectionId st callConnectionId = Some call ->
        CallService.findCallByACSConnectionId st' callConnectionId
        = Some (Call.with_status call CONNECTED)
        /\ sent st'
           = (sent st ++ [broadcast "call_connected"
                            (CallData (Call.with_status call CONNECTED))])%list).
Proof.
  intros Hconn Hne st'.
  assert (Ht : truthy (Some callConnectionId) = true).
  { simpl. now rewrite (proj2 (String.eqb_neq _ _) Hne). }
  subst st'. unfold CallController.handleCallConnectedEvent.
  rewrite Hconn, Ht.
  destruct (CallService.findCallByACSConnectionId st callConnectionId)
    as [call|] eqn:Hfind; simpl.
  - split; [reflexivity|]. split; [reflexivity|]. split; [discriminate|].
    intros c Hc. injection Hc as <-. split; [|reflexivity].
    unfold CallService.findCallByACSConnectionId in *. simpl.
    change (find (CallController.hasConnection callConnectionId)
              (JsMap.values (calls st)) = Some call) in Hfind.
    change (find (CallController.hasConnection callConnectionId)
              (JsMap.values
                 (JsMap.mutateFirst
                    (CallController.hasConnection callConnectionId)
                    (fun call => Call.with_status call CONNECTED) (calls st)))
            = Some (Call.with_status call CONNECTED)).
    apply (find_mutateFirst_kept (CallController.hasConnection callConnectionId)
             (fun call => Call.with_status call CONNECTED)); [exact Hfind|].
    apply find_some in Hfind. apply Hfind.
  - split; [reflexivity|]. split; [reflexivity|]. split; [reflexivity|].
    discriminate.
Qed.

(** A late connected event for the connection of a call that has ended puts
    the call back among the active calls. *)
Lemma handleCallConnectedEvent_forces_connected_witness :
  let st := run (Cases.connected
                 ++ [EndCall (Scenario.h 9000) Cases.liveAcs "c1" None]) in
  let st' := CallController.handleCallConnectedEvent st
               (Cases.eventData "conn-1" None) in
  CallService.getActiveCalls st = []
  /\ (exists call,
        CallService.findCallByACSConnectionId st "conn-1" = Some call
        /\ Call.status call = ENDED
        /\ CallService.findCallByACSConnectionId st' "conn-1"
           = Some (Call.with_status call CONNECTED))
  /\ List.length (CallService.getActiveCalls st') = 1%nat.
Proof.
  intros st st'.
  destruct (handleCallConnectedEvent_forces_connected st
              (Cases.eventData "conn-1" None) "conn-1" eq_refl)
    as (_ & _ & _ & Hfound); [discriminate|].
  split; [evaluate|]. split; [|evaluate].
  destruct (CallService.findCallByACSConnectionId st "conn-1") as [call|] eqn:Hf;
    [|vm_compute in Hf; discriminate].
  exists call. split; [reflexivity|]. split; [|apply Hfound; reflexivity].
  vm_compute in Hf. now injection Hf as <-.
Defined.

(** X19. In a batch of call-automation events, the events are processed in
    order up to the first subscription-validation event that carries a
    code: its code is echoed and the events after it are not processed.
    Without such an event every event is processed and the batch is
    acknowledged. An event whose type is none of CallConnected,
    CallDisconnected, CallTransferAccepted and CallTransferFailed, or that
    has no payload, leaves the state unchanged. *)
Theorem handleACSCallEvents_batch
    (st : State) (before after : list (Host * ACSService.t * CallController.Event.t)) :
  Forall (fun x => CallController.validationCodeOf (snd x) = None) before ->
  (forall h acs event code,
     CallController.validationCodeOf event = Some code ->
     CallController.handleACSCallEvents st (before ++ (h, acs, event) :: after)
     = (CallController.ValidationResponse code,
        CallController.processAll st before))
  /\ CallController.handleACSCallEvents st before
     = (CallController.Success, CallController.processAll st before)
  /\ (forall h acs event,
        CallController.Event.data event = None
        \/ (forall eventType,
              orElse (CallController.Event.eventType event)
                     (CallController.Event.type event) = Some eventType ->
              ~ In eventType
                   [ "Microsoft.Communication.CallConnected";
                     "Microsoft.Communication.CallDisconnected";
                     "Microsoft.Communication.CallTransferAccepted";
                     "Microsoft.Communication.CallTransferFailed" ]) ->
        CallController.processCallAutomationEvent st h acs event = st).
Proof.
  intros Hbefore. split; [|split].
  - intros h acs event code Hcode. revert st.
    induction Hbefore as [|[[h0 acs0] e0] l He0 Hl IH]; intros st; simpl.
    + now rewrite Hcode.
    + simpl in He0. rewrite He0. apply IH.
  - revert st.
    induction Hbefore as [|[[h0 acs0] e0] l He0 Hl IH]; intros st; simpl; auto.
    simpl in He0. rewrite He0. apply IH.
  - intros h acs event Hcase.
    unfold CallController.processCallAutomationEvent.
    destruct (orElse (CallController.Event.eventType event)
                (CallController.Event.type event)) as [eventType|]; [|reflexivity].
    destruct (CallController.Event.data event) as [eventData|]; [|reflexivity].
    destruct Hcase as [Hcase|Hcase]; [discriminate|].
    specialize (Hcase eventType eq_refl). simpl in Hcase.
    repeat match goal with
           | |- context [String.eqb eventType ?s] =>
               let E := fresh "E" in
               destruct (String.eqb eventType s) eqn:E;
               [apply String.eqb_eq in E; exfalso; apply Hcase; auto 6|]
           end.
    reflexivity.
Qed.

(** A batch: a participant event (ignored), the disconnect of conn-1, a
    validation event, and a second disconnect that is never processed. *)
Lemma handleACSCallEvents_batch_witness :
  let st := run Cases.connected in
  let validation := {|
    CallController.Event.eventType :=
      Some "Microsoft.EventGrid.SubscriptionValidationEvent";
    CallController.Event.type := None;
    CallController.Event.data := Some {|
      CallController.EventData.validationCode := Some "code-42";
      CallController.EventData.callConnectionId := None;
      CallController.EventData.resultInformation_message := None;
      CallController.EventData.resultInformation_subCode := None |} |} in
  let before :=
    [ (Scenario.h 8000, Cases.liveAcs,
       Cases.event "Microsoft.Communication.ParticipantsUpdated" "conn-1");
      (Scenario.h 9000, Cases.liveAcs,
       Cases.event "Microsoft.Communication.CallDisconnected" "conn-1") ] in
  let after :=
    [ (Scenario.h 9500, Cases.liveAcs,
       Cases.event "Microsoft.Communication.CallConnected" "conn-1") ] in
  CallController.handleACSCallEvents st
    (before ++ (Scenario.h 9200, Cases.liveAcs, validation) :: after)
  = (CallController.ValidationResponse "code-42",
     CallController.processAll st before)
  /\ CallController.processAll st before
     = CallController.handleCallDisconnectedEvent st (Scenario.h 9000)
         Cases.liveAcs (Cases.eventData "conn-1" None).
Proof.
  intros st validation before after.
  destruct (handleACSCallEvents_batch st before after) as (Hval & _ & _).
  { repeat constructor. }
  split; [apply Hval; reflexivity | evaluate].
Defined.

(** ** The incoming-call webhook *)

Lemma CallService_handleIncomingCall_none
    st h uuid phoneNumber callerNumber acsEventData :
  fst (CallService.handleIncomingCall st h uuid phoneNumber callerNumber
         acsEventData) = None ->
  snd (CallService.handleIncomingCall st h uuid phoneNumber callerNumber
         acsEventData) = st.
Proof.
  unfold CallService.handleIncomingCall.
  destruct (GroupService.getGroupByPhoneNumber st phoneNumber); [|reflexivity].
  cbv zeta.
  destruct (CallService.assignCallToAgent _ h _) as [[agent|] st2]; simpl;
    [intros H; discriminate H|].
  destruct (CallService.tryOverflowRouting st2 h _) as [[ok call'] st3]. simpl.
  intros H; discriminate H.
Qed.

Lemma route_outcome st h uuid phoneNumber callerNumber acsEventData missing :
  let r := CallController.route st h uuid phoneNumber callerNumber acsEventData
             missing in
  match fst r with
  | CallController.Handled call =>
      exists phone caller,
        phone <> "" /\ caller <> ""
        /\ CallService.handleIncomingCall st h uuid phone caller acsEventData
           = (Some call, snd r)
  | _ => snd r = st
  end.
Proof.
  unfold CallController.route.
  destruct phoneNumber as [phone|], callerNumber as [caller|]; simpl; auto.
  destruct (String.eqb phone "") eqn:Ep; simpl; auto.
  destruct (String.eqb caller "") eqn:Ec; simpl; auto.
  pose proof (CallService_handleIncomingCall_none st h uuid phone caller
                acsEventData) as Hnone.
  destruct (CallService.handleIncomingCall st h uuid phone caller acsEventData)
    as [[call|] st'] eqn:E; simpl in *; auto.
  exists phone, caller. repeat split; auto; now apply String.eqb_neq.
Qed.

(** X20. The incoming-call webhook changes the state only when it answers
    with a call: a validation handshake, a 400 (missing payload, missing or
    empty phone number or caller) and a 404 (no group has the number) all
    leave agents, groups, calls and notifications as they were. A call in
    the answer is the one [CallService.handleIncomingCall] created for a
    non-empty destination and a non-empty caller. *)
Theorem webhook_changes_state_only_with_a_call
    (st : State) (h : Host) (uuid : string) (body : CallController.Body) :
  let r := CallController.handleIncomingCall st h uuid body in
  match fst r with
  | CallController.Handled call =>
      CallController.statusCode (fst r) = 200
      /\ exists phone caller acsEventData,
           phone <> "" /\ caller <> ""
           /\ CallService.handleIncomingCall st h uuid phone caller acsEventData
              = (Some call, snd r)
  | _ => snd r = st
  end.
Proof.
  assert (Hroute : forall phoneNumber callerNumber acsEventData missing,
            let r := CallController.route st h uuid phoneNumber callerNumber
                       acsEventData missing in
            match fst r with
            | CallController.Handled call =>
                CallController.statusCode (fst r) = 200
                /\ exists phone caller acsEventData,
                     phone <> "" /\ caller <> ""
                     /\ CallService.handleIncomingCall st h uuid phone caller
                          acsEventData = (Some call, snd r)
            | _ => snd r = st
            end).
  { intros p c a missing.
    pose proof (route_outcome st h uuid p c a missing) as H. cbv zeta in *.
    destruct (CallController.route st h uuid p c a missing) as [resp st'].
    simpl in *. destruct resp; auto.
    destruct H as (phone & caller & H). split; [reflexivity|]. eauto. }
  unfold CallController.handleIncomingCall, CallController.legacy.
  destruct body as [[|event rest]|p c]; try apply Hroute.
  destruct (optEq (CallController.IncomingEvent.eventType event)
              "Microsoft.EventGrid.SubscriptionValidationEvent").
  - destruct (CallController.IncomingEvent.data event) as [data|]; simpl; auto.
    destruct (CallController.IncomingData.validationCode data) as [code|];
      simpl; auto.
    destruct (String.eqb code ""); simpl; auto.
  - destruct (optEq (CallController.IncomingEvent.eventType event)
                "Microsoft.Communication.IncomingCall"); [|apply Hroute].
    destruct (CallController.IncomingEvent.data event) as [data|]; simpl; auto.
    apply Hroute.
Qed.

(** ** Who receives a notification *)

Lemma sendToClient_In clients clientId x :
  In x (WebSocketService.sendToClient clients clientId) ->
  x = clientId
  /\ exists connection,
       JsMap.get clientId clients = Some connection
       /\ WebSocketService.isOpen connection = true.
Proof.
  unfold WebSocketService.sendToClient.
  destruct (JsMap.get clientId clients) as [connection|]; [|intros []].
  destruct (WebSocketService.isOpen connection) eqn:E; [|intros []].
  intros [<-|[]]. eauto.
Qed.

Lemma findAgentClient_app agentId before clientId connection after :
  Forall (fun entry : string * WebSocketService.ClientConnection =>
            WebSocketService.isAgentConnection agentId (snd entry) = false)
         before ->
  WebSocketService.isAgentConnection agentId connection = true ->
  WebSocketService.findAgentClient agentId
    (before ++ (clientId, connection) :: after)%list = Some clientId.
Proof.
  intros Hb Hc. induction Hb as [|[k v] l Hv Hl IH]; simpl.
  - now rewrite Hc.
  - simpl in Hv. now rewrite Hv.
Qed.

Lemma findAgentClient_split agentId clients clientId :
  WebSocketService.findAgentClient agentId clients = Some clientId ->
  exists before connection after,
    clients = (before ++ (clientId, connection) :: after)%list
    /\ Forall (fun entry : string * WebSocketService.ClientConnection =>
                 WebSocketService.isAgentConnection agentId (snd entry) = false)
              before
    /\ WebSocketService.isAgentConnection agentId connection = true.
Proof.
  induction clients as [|[k v] l IH]; simpl; [intros H; discriminate H|].
  destruct (WebSocketService.isAgentConnection agentId v) eqn:E.
  - intros H. injection H as <-. exists [], v, l. auto.
  - intros H. destruct (IH H) as (before & connection & after & -> & Hb & Hc).
    exists ((k, v) :: before), connection, after. auto.
Qed.

Lemma findAgentClient_none agentId clients :
  WebSocketService.findAgentClient agentId clients = None ->
  Forall (fun entry : string * WebSocketService.ClientConnection =>
            WebSocketService.isAgentConnection agentId (snd entry) = false)
         clients.
Proof.
  induction clients as [|[k v] l IH]; simpl; [constructor|].
  destruct (WebSocketService.isAgentConnection agentId v) eqn:E;
    [intros H; discriminate H|].
  intros H. constructor; auto.
Qed.

Lemma remove_middle {V} (before : JsMap.t V) k v after :
  NoDup (JsMap.keys (before ++ (k, v) :: after)%list) ->
  JsMap.remove k (before ++ (k, v) :: after)%list = (before ++ after)%list.
Proof.
  induction before as [|[k0 v0] l IH]; simpl.
  - now rewrite String.eqb_refl.
  - intros Hnd. inversion Hnd as [|? ? Hk Hnd']; subst.
    destruct (String.eqb k k0) eqn:E.
    + apply String.eqb_eq in E. subst k0. exfalso. apply Hk.
      unfold JsMap.keys. rewrite map_app. apply in_or_app. right. now left.
    + f_equal. now apply IH.
Qed.

Lemma filter_none {A} (p : A -> bool) (l : list A) :
  Forall (fun x => p x = false) l -> filter p l = [].
Proof.
  induction 1 as [|x l Hx Hl IH]; simpl; auto. now rewrite Hx.
Qed.

(** X21. A notification for an agent goes to one connection at most: the
    first connection, in connection order, that authenticated as this
    agent. When that socket is not open nobody is notified, also when a
    later connection of the same agent is open. *)
Theorem notifyAgent_first_connection_only
    (before : WebSocketService.Clients) (clientId : string)
    (connection : WebSocketService.ClientConnection)
    (after : WebSocketService.Clients) (agentId : string) :
  NoDup (JsMap.keys (before ++ (clientId, connection) :: after)%list) ->
  Forall (fun entry : string * WebSocketService.ClientConnection =>
            WebSocketService.isAgentConnection agentId (snd entry) = false)
         before ->
  WebSocketService.isAgentConnection agentId connection = true ->
  WebSocketService.notifyAgent (before ++ (clientId, connection) :: after)%list
    agentId
  = if WebSocketService.isOpen connection then [clientId] else [].
Proof.
  intros Hnd Hb Hc. unfold WebSocketService.notifyAgent.
  rewrite (findAgentClient_app agentId before clientId connection after Hb Hc).
  unfold WebSocketService.sendToClient.
  rewrite (In_entry_get _ clientId connection Hnd); [reflexivity|].
  apply in_or_app. right. now left.
Qed.

(** Agent X has a stale first tab and an open second one: X counts as
    connected, and no notification for X is delivered. *)
Lemma notifyAgent_first_connection_only_witness :
  WebSocketService.notifyAgent Cases.clients "X" = []
  /\ WebSocketService.isAgentConnected Cases.clients "X" = true
  /\ WebSocketService.sendToClient Cases.clients "t2" = ["t2"].
Proof.
  split; [|split; evaluate].
  apply (notifyAgent_first_connection_only []%list "t1"
           {| WebSocketService.isOpen := false;
              WebSocketService.agentId := Some "X";
              WebSocketService.supervisorId := None;
              WebSocketService.type := WebSocketService.agentClient |}
           (tl Cases.clients) "X").
  - vm_compute. repeat constructor; simpl; intuition discriminate.
  - constructor.
  - reflexivity.
Defined.

(** X22. [disconnectAgent] reports whether the agent was connected, and
    drops exactly the first connection of the agent: its later connections
    and every connection of anybody else stay filed. *)
Theorem disconnectAgent_drops_first_connection
    (clients : WebSocketService.Clients) (agentId : string) :
  NoDup (JsMap.keys clients) ->
  let r := WebSocketService.disconnectAgent clients agentId in
  fst r = WebSocketService.isAgentConnected clients agentId
  /\ filter (WebSocketService.isAgentConnection agentId) (JsMap.values (snd r))
     = tl (filter (WebSocketService.isAgentConnection agentId)
                  (JsMap.values clients))
  /\ filter (fun connection =>
               negb (WebSocketService.isAgentConnection agentId connection))
            (JsMap.values (snd r))
     = filter (fun connection =>
                 negb (WebSocketService.isAgentConnection agentId connection))
              (JsMap.values clients)
  /\ (fst r = false -> snd r = clients).
Proof.
  intros Hnd r. subst r. unfold WebSocketService.disconnectAgent,
    WebSocketService.isAgentConnected.
  destruct (WebSocketService.findAgentClient agentId clients) as [clientId|]
    eqn:Hfind; simpl.
  - destruct (findAgentClient_split _ _ _ Hfind)
      as (before & connection & after & -> & Hb & Hc).
    rewrite (remove_middle before clientId connection after Hnd).
    assert (Hb' : Forall (fun c => WebSocketService.isAgentConnection agentId c
                                   = false) (JsMap.values before)).
    { unfold JsMap.values. apply Forall_map. exact Hb. }
    unfold JsMap.values in *. rewrite !map_app. simpl.
    rewrite existsb_app, !filter_app. simpl. rewrite Hc. simpl.
    rewrite (filter_none _ _ Hb'). simpl.
    rewrite Bool.orb_true_r. repeat split; auto.
    intros H; discriminate H.
  - pose proof (findAgentClient_none _ _ Hfind) as Hall.
    assert (Hall' : Forall (fun c => WebSocketService.isAgentConnection agentId c
                                     = false) (JsMap.values clients)).
    { unfold JsMap.values. apply Forall_map. exact Hall. }
    rewrite (filter_none _ _ Hall'). simpl. repeat split; auto.
    symmetry. apply Bool.not_true_is_false. intros H.
    apply existsb_exists in H. destruct H as (c & Hin & Hc).
    rewrite Forall_forall in Hall'. rewrite (Hall' c Hin) in Hc. discriminate.
Qed.

(** Disconnecting X closes the stale first tab only: X is still connected
    through the second one. *)
Lemma disconnectAgent_drops_first_connection_witness :
  let r := WebSocketService.disconnectAgent Cases.clients "X" in
  fst r = true
  /\ JsMap.keys (snd r) = ["t2"; "s1"; "t3"]
  /\ WebSocketService.isAgentConnected (snd r) "X" = true
  /\ List.length (filter (WebSocketService.isAgentConnection "X")
                    (JsMap.values (snd r))) = 1%nat.
Proof.
  intros r.
  destruct (disconnectAgent_drops_first_connection Cases.clients "X")
    as (Hfst & Hsame & _).
  { vm_compute. repeat constructor; simpl; intuition discriminate. }
  fold r in Hfst, Hsame. split; [rewrite Hfst; evaluate|].
  split; [evaluate|]. split; [evaluate|]. rewrite Hsame. evaluate.
Defined.

(** X23. Whatever is sent, it reaches only clients that are filed with an
    open socket; a notification for an agent reaches only a connection
    authenticated as that agent, and one for the supervisors only
    supervisor connections. *)
Theorem deliver_recipients
    (clients : WebSocketService.Clients) (event : Event) (clientId : string) :
  NoDup (JsMap.keys clients) ->
  In clientId (deliver clients event) ->
  exists connection,
    JsMap.get clientId clients = Some connection
    /\ WebSocketService.isOpen connection = true
    /\ match event with
       | notifyAgent agentId _ _ =>
           WebSocketService.isAgentConnection agentId connection = true
       | notifySupervisors _ _ =>
           WebSocketService.isSupervisor connection = true
       | broadcast _ _ => True
       end.
Proof.
  intros Hnd Hin. destruct event as [agentId type data|type data|type data];
    simpl in Hin.
  - unfold WebSocketService.notifyAgent in Hin.
    destruct (WebSocketService.findAgentClient agentId clients) as [k|] eqn:Hfind;
      [|destruct Hin].
    apply sendToClient_In in Hin. destruct Hin as (-> & connection & Hget & Hopen).
    exists connection. repeat split; auto.
    destruct (findAgentClient_split _ _ _ Hfind)
      as (before & c & after & E & _ & Hc).
    assert (Hget' : JsMap.get k clients = Some c).
    { apply In_entry_get; [exact Hnd|]. rewrite E. apply in_or_app. right.
      now left. }
    congruence.
  - unfold WebSocketService.notifySupervisors in Hin.
    apply in_flat_map in Hin. destruct Hin as ([k c] & Hentry & Hin). simpl in Hin.
    destruct (WebSocketService.isSupervisor c) eqn:Hs; [|destruct Hin].
    apply sendToClient_In in Hin. destruct Hin as (-> & connection & Hget & Hopen).
    exists connection. repeat split; auto.
    rewrite (In_entry_get _ _ _ Hnd Hentry) in Hget. congruence.
  - unfold WebSocketService.broadcast in Hin.
    apply in_flat_map in Hin. destruct Hin as ([k c] & Hentry & Hin). simpl in Hin.
    apply sendToClient_In in Hin. destruct Hin as (-> & connection & Hget & Hopen).
    exists connection. auto.
Qed.

(** The status update that follows an answered call reaches the supervisor
    boss, filed as s1. *)
Lemma deliver_recipients_witness :
  exists connection,
    JsMap.get "s1" Cases.clients = Some connection
    /\ WebSocketService.isOpen connection = true
    /\ WebSocketService.isSupervisor connection = true.
Proof.
  apply (deliver_recipients Cases.clients
           (notifySupervisors "agent_status_updated"
              (CallData (Call.with_status
                           {| Call.id := "c1"; Call.phoneNumber := "+15550199";
                              Call.groupId := "G"; Call.assignedAgentId := None;
                              Call.status := INCOMING; Call.startTime := 0;
                              Call.endTime := None; Call.duration := None;
                              Call.waitTime := None;
                              Call.acsCallConnectionId := None;
                              Call.acsIncomingCallContext := None |} ENDED)))
           "s1").
  - vm_compute. repeat constructor; simpl; intuition discriminate.
  - vm_compute. now left.
Defined.

(** ** The statistics endpoint *)

(** X24. In the answer of the statistics endpoint the agent counts add up:
    total = available + busy + offline, where busy counts the agents that
    are BUSY or IN_CALL. The call counts do not: active exceeds incoming +
    ringing + connected by the number of TRANSFERRED calls, and active
    together with the ENDED calls is every call ever stored. *)
Theorem statistics_endpoint_counts (st : State) :
  let a := Index.agentCounts st in
  let c := Index.callCounts st in
  let stored status :=
    Index.count (fun call => CallStatus_eqb (Call.status call) status)
                (JsMap.values (calls st)) in
  (Index.total a = Index.available a + Index.busy a + Index.offline a)%nat
  /\ (Index.active c
      = Index.incoming c + Index.ringing c + Index.connected c
        + stored TRANSFERRED)%nat
  /\ (Index.active c + stored ENDED
      = List.length (JsMap.values (calls st)))%nat.
Proof.
  cbv zeta. unfold Index.agentCounts, Index.callCounts, Index.count,
    CallService.getActiveCalls, AgentService.getAllAgents. simpl.
  split; [apply status_partition|].
  generalize (JsMap.values (calls st)). intros l.
  split; induction l as [|call l IH]; simpl; auto;
    destruct call; simpl in *;
    match goal with s : CallStatus |- _ => destruct s end; simpl; lia.
Qed.

(** ** The call routes *)

(** X25. No GET request reaches the handler of [/test-acs]: the route is
    registered after [/:callId], which takes every path of one non-empty
    segment that is not [active]. Such a request is answered by [getCall],
    with the segment as the call id. *)
Theorem test_acs_route_unreachable
    (litEq : string -> string -> bool) (path : list string) :
  litEq "test-acs" "" = false ->
  CallRoutes.dispatch litEq CallRoutes.GET path
  <> Some CallRoutes.testACSConnection
  /\ (forall x, path = [x] -> x <> "" -> litEq "active" x = false ->
      CallRoutes.dispatch litEq CallRoutes.GET path = Some CallRoutes.getCall).
Proof.
  intros Hlit. unfold CallRoutes.dispatch, CallRoutes.routes. split.
  - destruct path as [|x [|y [|z rest]]]; simpl.
    + discriminate.
    + destruct (litEq "active" x); simpl; [discriminate|].
      destruct (String.eqb x "") eqn:E; simpl; [|discriminate].
      apply String.eqb_eq in E. subst x.
      rewrite !Bool.andb_false_r, Hlit. simpl. discriminate.
    + rewrite !Bool.andb_false_r. simpl.
      repeat match goal with
             | |- context [if ?b then _ else _] => destruct b
             end; discriminate.
    + rewrite !Bool.andb_false_r. simpl.
      repeat match goal with
             | |- context [if ?b then _ else _] => destruct b
             end; discriminate.
  - intros x -> Hx Hactive. simpl. rewrite Hactive. simpl.
    now rewrite (proj2 (String.eqb_neq _ _) Hx).
Qed.

(** With exact comparison of the literal segments, GET /test-acs is a
    lookup of the call named test-acs. *)
Lemma test_acs_route_unreachable_witness :
  CallRoutes.dispatch String.eqb CallRoutes.GET ["test-acs"]
  = Some CallRoutes.getCall.
Proof.
  destruct (test_acs_route_unreachable String.eqb ["test-acs"] eq_refl)
    as (_ & Hget).
  apply (Hget "test-acs"); [reflexivity | discriminate | reflexivity].
Defined.

(** ** Agent statistics and new agents *)

(** X26. Releasing a stored agent increments its total, daily and monthly
    call counters by one, whenever its previous call was: the release asks
    whether the present moment is today and in this month (the clock being
    read once per operation), so the daily and monthly counters are never
    started afresh. The time of the release becomes the last call time. *)
Theorem releaseAgentFromCall_counters
    (st : State) (h : Host) (agentId : string) (callDuration : Q)
    (agent : Agent.t) :
  AgentService.getAgent st agentId = Some agent ->
  exists agent',
    AgentService.getAgent
      (snd (AgentService.releaseAgentFromCall st h agentId callDuration))
      agentId = Some agent'
    /\ AgentStatistics.totalCalls (Agent.statistics agent')
       = AgentStatistics.totalCalls (Agent.statistics agent) + 1
    /\ AgentStatistics.callsToday (Agent.statistics agent')
       = AgentStatistics.callsToday (Agent.statistics agent) + 1
    /\ AgentStatistics.callsThisMonth (Agent.statistics agent')
       = AgentStatistics.callsThisMonth (Agent.statistics agent) + 1
    /\ AgentStatistics.lastCallTime (Agent.statistics agent') = Some (now h)
    /\ Agent.lastActivity agent' = now h.
Proof.
  intros Hget. rewrite (releaseAgentFromCall_success _ _ _ _ _ Hget).
  eexists. split.
  { unfold AgentService.getAgent. simpl. apply get_set_same. }
  simpl. unfold AgentService.isToday, AgentService.isThisMonth.
  rewrite !Z.eqb_refl. simpl. auto.
Qed.

(** X is released on 2 March 1970 after a call; its last call was counted
    on 1 January: the daily counter goes from 1 to 2. *)
Lemma releaseAgentFromCall_counters_witness :
  let day := 86400000 in
  let st := run (Scenario.ringing
                 ++ [ ReleaseAgentFromCall (Scenario.h 5000) "X" 1%Q ]) in
  exists agent agent',
    AgentService.getAgent st "X" = Some agent
    /\ AgentStatistics.lastCallTime (Agent.statistics agent) = Some 5000
    /\ AgentService.getAgent
         (snd (AgentService.releaseAgentFromCall st (Scenario.h (60 * day))
                 "X" 1%Q)) "X" = Some agent'
    /\ AgentStatistics.callsToday (Agent.statistics agent) = 1
    /\ AgentStatistics.callsToday (Agent.statistics agent') = 2
    /\ AgentStatistics.callsThisMonth (Agent.statistics agent') = 2.
Proof.
  intros day st.
  destruct (AgentService.getAgent st "X") as [agent|] eqn:Hget;
    [|vm_compute in Hget; discriminate].
  destruct (releaseAgentFromCall_counters st (Scenario.h (60 * day)) "X" 1%Q
              agent Hget) as (agent' & Hget' & _ & Htoday & Hmonth & _).
  exists agent, agent'. split; [reflexivity|].
  vm_compute in Hget. injection Hget as <-.
  split; [reflexivity|]. split; [exact Hget'|]. split; [reflexivity|].
  split; [rewrite Htoday | rewrite Hmonth]; reflexivity.
Defined.

(** X27. An agent created under a fresh id is OFFLINE: it is listed among
    the agents of the groups it names, but not among the available ones,
    so no call is routed to it yet. The groups it names are not touched:
    their own member lists and statistics do not learn of it. *)
Theorem createAgent_not_routable
    (st : State) (h : Host) (uuid : string) (request : CreateAgentRequest.t)
    (groupId : string) :
  AgentService.getAgent st uuid = None ->
  let agent := fst (AgentService.createAgent st h uuid request) in
  let st' := snd (AgentService.createAgent st h uuid request) in
  AgentService.getAgent st' uuid = Some agent
  /\ AgentService.getAvailableAgentsByGroup st' groupId
     = AgentService.getAvailableAgentsByGroup st groupId
  /\ AgentService.getAgentsByGroup st' groupId
     = (AgentService.getAgentsByGroup st groupId
        ++ (if arrayIncludes (CreateAgentRequest.groupIds request) groupId
            then [agent] else []))%list
  /\ groups st' = groups st /\ calls st' = calls st /\ sent st' = sent st.
Proof.
  intros Hfresh. cbv zeta. unfold AgentService.createAgent. simpl.
  split; [apply get_set_same|].
  unfold AgentService.getAvailableAgentsByGroup, AgentService.getAgentsByGroup.
  simpl. unfold AgentService.getAgent in Hfresh.
  rewrite (values_set_absent _ _ _ Hfresh), filter_app. simpl.
  destruct (arrayIncludes (CreateAgentRequest.groupIds request) groupId);
    simpl; rewrite ?filter_app; simpl; rewrite ?app_nil_r; auto.
Qed.

(** A third agent Z is created for G: the agents of G are three, the
    available ones are X and Y as before, and G itself is unchanged. *)
Lemma createAgent_not_routable_witness :
  let st := run Scenario.staffed in
  let st' := snd (AgentService.createAgent st (Scenario.h 2500) "Z"
                    (Scenario.agent "z" ["G"])) in
  AgentService.getAvailableAgentsByGroup st' "G"
  = AgentService.getAvailableAgentsByGroup st "G"
  /\ List.length (AgentService.getAgentsByGroup st' "G") = 3%nat
  /\ groups st' = groups st.
Proof.
  intros st st'.
  destruct (createAgent_not_routable st (Scenario.h 2500) "Z"
              (Scenario.agent "z" ["G"]) "G" eq_refl)
    as (_ & Havailable & Hlisted & Hgroups & _).
  split; [exact Havailable|]. split; [|exact Hgroups].
  fold st' in Hlisted. rewrite Hlisted. evaluate.
Defined.

(** ** Calls stay filed under their own id *)

Lemma callsKeyedById_set m k call :
  callsKeyedById m -> k = Call.id call -> callsKeyedById (JsMap.set k call m).
Proof.
  intros (Hk & Hnd) Hid. split.
  - intros k' x Hin. destruct (set_In_entry _ _ _ _ _ Hin) as [(-> & ->)|H]; auto.
  - now apply NoDup_keys_set.
Qed.

Lemma callsKeyedById_get_id m k call :
  callsKeyedById m -> JsMap.get k m = Some call -> k = Call.id call.
Proof. intros (Hk & _) Hget. eauto using get_In_entry. Qed.

Lemma tryOverflowLoop_callsKeyedById h overflowGroups :
  forall st call,
    callsKeyedById (calls st) ->
    callsKeyedById
      (calls (snd (CallService.tryOverflowLoop st h call overflowGroups))).
Proof.
  induction overflowGroups as [|group rest IH]; intros st call HI; simpl; auto.
  destruct (0 <? List.length
                   (AgentService.getAvailableAgentsByGroup st (Group.id group)))%nat;
    [|auto].
  set (call1 := Call.with_groupId call (Group.id group)).
  set (st1 := CallService.store st call1).
  assert (HI1 : callsKeyedById (calls st1))
    by (apply callsKeyedById_set; [exact HI | reflexivity]).
  pose proof (CallService_assignCallToAgent_calls st1 h call1) as Hc.
  destruct (CallService.assignCallToAgent st1 h call1) as [[agent|] st2];
    simpl in Hc.
  - simpl. rewrite Hc. apply callsKeyedById_set; [exact HI1 | reflexivity].
  - apply IH. now rewrite Hc.
Qed.

Lemma ACSService_answerCall_id acs h callId call agentUserId agentId :
  Call.id (snd (fst (ACSService.answerCall acs h callId call agentUserId agentId)))
  = Call.id call.
Proof.
  unfold ACSService.answerCall.
  repeat match goal with
         | |- context [if ?b then _ else _] => destruct b
         | |- context [match ?x with _ => _ end] => destruct x
         end; simpl; auto.
Qed.

Lemma exec_callsKeyedById st op :
  callsKeyedById (calls st) -> callsKeyedById (calls (exec st op)).
Proof.
  intros HI. destruct op; cbv beta iota delta [exec].
  - exact HI.
  - exact HI.
  - unfold AgentService.updateAgentStatus. now rewrite updateAgent_calls.
  - unfold AgentService.updateAgentACSUserId.
    destruct (JsMap.get id (agents st)); auto.
  - exact HI.
  - now rewrite AgentService_assignCallToAgent_calls.
  - now rewrite releaseAgentFromCall_calls.
  - exact HI.
  - now rewrite deleteGroup_calls.
  - now rewrite addAgentToGroup_calls.
  - now rewrite removeAgentFromGroup_calls.
  - unfold GroupService.setOverflowGroups.
    destruct (JsMap.get groupId (groups st)); auto.
  - unfold GroupService.enableOverflow.
    destruct (JsMap.get groupId (groups st)); auto.
  - (* handleIncomingCall *)
    unfold CallService.handleIncomingCall.
    destruct (GroupService.getGroupByPhoneNumber st phoneNumber) as [group|];
      simpl; auto.
    match goal with
    | |- context [CallService.assignCallToAgent _ h ?c] => set (call := c)
    end.
    set (st1 := CallService.store st call).
    assert (HI1 : callsKeyedById (calls st1))
      by (apply callsKeyedById_set; [exact HI | reflexivity]).
    pose proof (CallService_assignCallToAgent_calls st1 h call) as Hc.
    destruct (CallService.assignCallToAgent st1 h call) as [[agent|] st2];
      simpl in Hc.
    + simpl. rewrite Hc. apply callsKeyedById_set; [exact HI1 | reflexivity].
    + unfold CallService.tryOverflowRouting.
      pose proof (tryOverflowLoop_callsKeyedById h
                    (GroupService.getAvailableGroups st2 (Call.groupId call))
                    st2 call) as Hloop.
      rewrite Hc in Hloop. specialize (Hloop HI1).
      now destruct (CallService.tryOverflowLoop st2 h call _) as [[ok call'] st3].
  - (* answerCall *)
    unfold CallService.answerCall.
    destruct (JsMap.get callId (calls st)) as [call|] eqn:Hget; auto.
    destruct (optEq (Call.assignedAgentId call) agentId); simpl; auto.
    destruct (CallStatus_eqb (Call.status call) RINGING); simpl; auto.
    pose proof (callsKeyedById_get_id _ _ _ HI Hget) as Hid.
    pose proof (ACSService_answerCall_id acs h callId call
                  (CallService.agentACSUserId st agentId) (Some agentId)) as Hid1.
    destruct (ACSService.answerCall acs h callId call
                (CallService.agentACSUserId st agentId) (Some agentId))
      as [[ok call1] events].
    simpl in Hid1.
    assert (HI1 : callsKeyedById
                    (calls (fold_left send events
                              (CallService.storeAt st callId call1)))).
    { destruct (fold_send_frame events (CallService.storeAt st callId call1))
        as (_ & _ & ->). simpl.
      apply callsKeyedById_set; [exact HI | congruence]. }
    destruct ok; simpl; [|exact HI1].
    match goal with
    | |- context [match ?a with Some _ => _ | None => _ end] => destruct a
    end; simpl; rewrite updateGroupStatistics_calls; simpl;
    (apply callsKeyedById_set; [exact HI1 | simpl; congruence]).
  - (* endCall *)
    unfold CallService.endCall.
    destruct (JsMap.get callId (calls st)) as [call|] eqn:Hget; auto.
    pose proof (callsKeyedById_get_id _ _ _ HI Hget) as Hid.
    match goal with |- context [if ?b then (false, st) else _] => destruct b end;
      auto.
    destruct (negb (ACSService.endCall acs callId call)); auto.
    destruct (Call.assignedAgentId call) as [assigned|]; cbv beta iota zeta.
    + destruct (truthy (Some assigned)
                && negb (now h - Call.startTime call =? 0));
        cbv beta iota zeta;
        match goal with
        | |- context [match ?a with Some _ => _ | None => _ end] => destruct a
        end; simpl; rewrite updateGroupStatistics_calls; simpl;
        rewrite ?releaseAgentFromCall_calls;
        now apply callsKeyedById_set.
    + simpl. rewrite updateGroupStatistics_calls. simpl.
      now apply callsKeyedById_set.
  - (* transferCall *)
    unfold CallService.transferCall.
    destruct (JsMap.get callId (calls st)) as [call|] eqn:Hget; auto.
    pose proof (callsKeyedById_get_id _ _ _ HI Hget) as Hid.
    destruct (AgentService.getAgent st toAgentId) as [toAgent|]; auto.
    destruct (negb (optEq (Call.assignedAgentId call) fromAgentId)
              || negb (AgentStatus_eqb (Agent.status toAgent) AVAILABLE)); auto.
    match goal with
    | |- context [AgentService.assignCallToAgent ?s h toAgentId callId] =>
        assert (H1 : calls s = calls st);
        [| pose proof (AgentService_assignCallToAgent_calls s h toAgentId callId)
             as H2;
           destruct (AgentService.assignCallToAgent s h toAgentId callId)
             as [ok st2] ]
    end.
    + destruct (Call.duration call) as [d|]; auto.
      destruct (negb (d =? 0)); auto. apply releaseAgentFromCall_calls.
    + simpl in H2. destruct ok; simpl; rewrite H2, H1; auto.
      now apply callsKeyedById_set.
Qed.

Lemma fold_exec_callsKeyedById ops :
  forall st, callsKeyedById (calls st) ->
             callsKeyedById (calls (fold_left exec ops st)).
Proof.
  induction ops as [|op ops IH]; intros st HI; simpl; auto.
  apply IH. now apply exec_callsKeyedById.
Qed.

(** X28. In every state the services reach from the empty one, each call is
    filed under its own id and under no other key: [getCall] of the id of a
    stored call gives that call, and no two stored calls share an id.
    Connected and transfer events keep it so. *)
Theorem calls_filed_under_their_id
    (ops : list Op) (events : list (Host * ACSService.t * CallController.Event.t))
    (call : Call.t) :
  let st := CallController.processAll (run ops) events in
  In call (JsMap.values (calls st)) ->
  CallService.getCall st (Call.id call) = Some call
  /\ NoDup (map Call.id (JsMap.values (calls st))).
Proof.
  cbv zeta.
  assert (HI : callsKeyedById
                 (calls (CallController.processAll (run ops) events))).
  { unfold CallController.processAll.
    assert (H0 : callsKeyedById (calls (run ops))).
    { apply fold_exec_callsKeyedById. split; [intros k c []|constructor]. }
    revert H0. generalize (run ops). induction events as [|[[h acs] e] l IH];
      intros st HI; simpl; auto.
    apply IH. clear IH. unfold CallController.processCallAutomationEvent.
    destruct (orElse (CallController.Event.eventType e)
                (CallController.Event.type e)) as [eventType|]; [|exact HI].
    destruct (CallController.Event.data e) as [eventData|]; [|exact HI].
    assert (Hmut : forall p f,
               (forall c, Call.id (f c) = Call.id c) ->
               callsKeyedById (JsMap.mutateFirst p f (calls st))).
    { intros p f Hf. destruct HI as (Hk & Hnd). split.
      - clear Hnd. induction (calls st) as [|[k0 c0] m IHm]; simpl; [intros ? ? []|].
        assert (Hm : forall k c, In (k, c) m -> k = Call.id c)
          by (intros; apply Hk; now right).
        destruct (p c0); intros k c [H|H]; auto.
        + injection H as <- <-. rewrite Hf. apply Hk. now left.
        + apply Hk. now left.
      - now rewrite mutateFirst_keys. }
    repeat match goal with
           | |- context [if ?b then _ else _] => destruct b
           end; auto.
    - unfold CallController.handleCallConnectedEvent.
      destruct (CallController.EventData.callConnectionId eventData) as [conn|];
        [|exact HI].
      destruct (truthy (Some conn)); [|exact HI].
      destruct (CallService.findCallByACSConnectionId st conn); [|exact HI].
      simpl. now apply Hmut.
    - unfold CallController.handleCallDisconnectedEvent.
      destruct (CallController.isTransferDisconnect eventData); [exact HI|].
      destruct (CallController.EventData.callConnectionId eventData) as [conn|];
        [|exact HI].
      destruct (truthy (Some conn)); [|exact HI].
      destruct (CallService.findCallByACSConnectionId st conn) as [c|];
        [|exact HI].
      destruct (negb (CallStatus_eqb (Call.status c) ENDED)); [|exact HI].
      exact (exec_callsKeyedById st (EndCall h acs (Call.id c) None) HI).
    - unfold CallController.handleCallTransferEvent.
      destruct (CallController.EventData.callConnectionId eventData) as [conn|];
        [|exact HI].
      destruct (truthy (Some conn)); [|exact HI].
      simpl. now apply Hmut. }
  intros Hin. split.
  - destruct HI as (Hk & Hnd). apply in_map_iff in Hin.
    destruct Hin as ([k c] & E & Hin). simpl in E. subst c.
    rewrite <- (Hk _ _ Hin). unfold CallService.getCall. now apply In_entry_get.
  - destruct HI as (Hk & Hnd).
    assert (E : map Call.id (JsMap.values
                               (calls (CallController.processAll (run ops) events)))
                = JsMap.keys (calls (CallController.processAll (run ops) events))).
    { unfold JsMap.values, JsMap.keys. rewrite map_map.
      apply map_ext_in. intros [k c] Hin'. simpl. symmetry. now apply Hk. }
    now rewrite E.
Qed.

(** The call c1, answered and then reported as connected by the gateway. *)
Lemma calls_filed_under_their_id_witness :
  let st := CallController.processAll (run Cases.connected)
              [ (Scenario.h 4500, Cases.liveAcs,
                 Cases.event "Microsoft.Communication.CallConnected" "conn-1") ] in
  exists call,
    JsMap.values (calls st) = [call]
    /\ Call.id call = "c1"
    /\ CallService.getCall st (Call.id call) = Some call.
Proof.
  intros st.
  destruct (JsMap.values (calls st)) as [|call [|]] eqn:Hvalues;
    try (vm_compute in Hvalues; discriminate).
  exists call. split; [reflexivity|].
  split.
  - vm_compute in Hvalues. now injection Hvalues as <-.
  - apply (calls_filed_under_their_id Cases.connected
             [ (Scenario.h 4500, Cases.liveAcs,
                Cases.event "Microsoft.Communication.CallConnected" "conn-1") ]
             call).
    fold st. rewrite Hvalues. now left.
Defined.
